(** * emotiw/dauphiya/ml.py: RBMs, MLP and RNN over a symbolic tensor engine

    The Python module builds Theano expression graphs and hands them to
    [theano.function].  The embedding follows that split:

    - [Expr] is the symbolic graph the Python methods construct;
    - the methods themselves are functions in the monad [M], which threads
      the interpreter state they touch (fresh variables, values of shared
      variables, instance attributes, files);
    - the tensor engine and numpy are external: their operations are the
      fields of the class [Backend], and every statement below holds for any
      backend unless it names one.  Two backends are given at the end: array
      shapes, and arrays of real numbers (floating point idealised as R). *)

From Stdlib Require Import ZArith QArith Reals Lra Lia.
From stdpp Require Import base option list strings pretty gmap.

Set Default Proof Using "Type".
Set Warnings "-clear-no-such-hyp,-notation-for-abbreviation".
Open Scope string_scope.

(** ** Symbolic graphs *)

(** Random draws offered by [RandomStreams]. *)
Inductive rkind := Binomial | Normal | Multinomial.

(** Operations of one argument.  [Sum0], [Sum1], [SumAll] are [.sum(0)],
    [.sum(1)], [.sum()]; [Max0] is [T.max(_, axis=0)]; [Argmax1] is
    [T.argmax(_, axis=1)]; [Shape0], [Shape1] are [.shape[0]], [.shape[1]];
    [PadLeft] is [dimshuffle('x', 0)]; [Tail] is [_[1:]]. *)
Inductive unop :=
| Sigmoid | Exp | Log | Tanh | Softplus | Softmax | Neg | Sqr | Transpose
| Sum0 | Sum1 | SumAll | Mean | Mean0 | Max0 | Argmax | Argmax1
| Shape0 | Shape1 | CastFloatX | PadLeft | Tail.

(** Operations of two arguments.  [Column v i] is [v[:, i]];
    [PickLabels p y] is [p[T.arange(y.shape[0]), y]]. *)
Inductive binop :=
| Dot | Add | Sub | Mul | Div | Maximum | Minimum | Mod
| Column | Concat | CrossEntropy | PickLabels.

#[warnings="-register-all"]
Inductive Expr :=
| Input (name : string)                    (* T.matrix('v'), T.fmatrix('x'), ... *)
| Shared (id : nat)                        (* theano.shared(...) *)
| ConstI (z : Z)                           (* Python int literal *)
| ConstF (q : Q)                           (* Python float *)
| ConstV (v : list Q)                      (* numpy vector baked into the graph *)
| Un (o : unop) (a : Expr)
| Bin (o : binop) (a b : Expr)
| SetColumn (v i x : Expr)                 (* T.set_subtensor(v[:, i], x) *)
| Random (k : rkind) (stream : nat) (p : Expr)
| Grad (cost : Expr) (wrt : nat) (consider_constant : list Expr)
| Scan (out : nat) (h_t y_t : Expr) (xs h0 : Expr).

(** Result of a symbolic method: an expression, or a pair
    [(output, updates)] with [updates] a dict keyed by shared variables. *)
Inductive res :=
| RExpr (e : Expr)
| RTuple (e : Expr) (updates : gmap nat Expr).

(** What [theano.function(inputs, output, updates=updates)] keeps. *)
Record compiled := Compiled {
  fn_inputs : list string;
  fn_output : Expr;
  fn_updates : gmap nat Expr }.

(** Attributes of a Python object: class members and plain data are only
    recorded by name, compiled functions are kept. *)
Inductive attr :=
| AMember
| AFunction (f : compiled).

Inductive exn :=
| NameError | TypeError | IndexError | KeyError | ValueError
| ZeroDivisionError | IOError.

Inductive result (A : Type) :=
| Ok (a : A)
| Raise (e : exn).
Arguments Ok {A} a.
Arguments Raise {A} e.

(** ** The external engine *)

Class Backend (D : Type) := {
  (* numpy.random's hidden generator state *)
  np_rng : Type;
  (* constants *)
  of_int : Z -> D;
  of_float : Q -> D;
  of_vector : list Q -> D;
  (* tensor operations; [None] is a runtime error of the engine *)
  un_op : unop -> D -> option D;
  bin_op : binop -> D -> D -> option D;
  set_column : D -> D -> D -> option D;
  (* draw of kind [k] from stream [s] in state [n] with parameter [p] *)
  draw : rkind -> nat -> nat -> D -> option D;
  (* value of T.grad(cost, wrt, consider_constant) where the cost evaluates
     to [c] and the parameter to [p] *)
  grad_value : Expr -> nat -> list Expr -> gmap string D -> gmap nat D ->
               gmap nat nat -> D -> D -> option D;
  (* rows of a sequence and their reassembly, for theano.scan *)
  unstack : D -> option (list D);
  stack : list D -> option D;
  (* numpy *)
  np_zeros : list nat -> D;
  np_shape : D -> list nat;
  np_take : D -> list nat -> option D;
  np_randint : np_rng -> np_rng;
  np_normal : nat -> nat -> np_rng -> D * np_rng;
  np_glorot : nat -> nat -> np_rng -> D * np_rng;
  np_uniform : Q -> Q -> nat -> np_rng -> list Q * np_rng;
  np_shuffle : list nat -> np_rng -> list nat * np_rng }.

(** ** Interpreter state and its monad *)

Section Interp.
Context {D : Type} `{B : Backend D}.

Record world := World {
  next_id : nat;                      (* variables and objects created so far *)
  shared : gmap nat D;                (* values of the shared variables *)
  rng_state : gmap nat nat;           (* state of each random stream *)
  np : np_rng;                        (* numpy.random *)
  attrs : gmap (nat * string) attr;   (* attributes, by object and name *)
  compilations : nat;                 (* calls of theano.function so far *)
  files : gmap string D }.            (* .npy files *)

Definition M (A : Type) : Type := world -> result A * world.

Definition ret {A} (a : A) : M A := fun w => (Ok a, w).

Definition raise {A} (e : exn) : M A := fun w => (Raise e, w).

Definition bind {A C} (m : M A) (k : A -> M C) : M C :=
  fun w => match m w with
           | (Ok a, w') => k a w'
           | (Raise e, w') => (Raise e, w')
           end.

End Interp.

Arguments world D {B}.
Arguments M D {B} A.

Notation "'do' p <~ m ;; k" := (bind m (fun p => k))
  (at level 10, p pattern, m at level 99, k at level 200,
   format "'[v' 'do'  p  <~  m  ;; '/' k ']'").

Section Primitives.
Context {D : Type} `{B : Backend D}.

Definition with_next_id (n : nat) (w : world D) : world D :=
  World n (shared w) (rng_state w) (np w) (attrs w) (compilations w) (files w).
Definition with_shared (s : gmap nat D) (w : world D) : world D :=
  World (next_id w) s (rng_state w) (np w) (attrs w) (compilations w) (files w).
Definition with_rng_state (r : gmap nat nat) (w : world D) : world D :=
  World (next_id w) (shared w) r (np w) (attrs w) (compilations w) (files w).
Definition with_np (g : np_rng) (w : world D) : world D :=
  World (next_id w) (shared w) (rng_state w) g (attrs w) (compilations w) (files w).
Definition with_attrs (a : gmap (nat * string) attr) (w : world D) : world D :=
  World (next_id w) (shared w) (rng_state w) (np w) a (compilations w) (files w).
Definition with_compilations (c : nat) (w : world D) : world D :=
  World (next_id w) (shared w) (rng_state w) (np w) (attrs w) c (files w).
Definition with_files (f : gmap string D) (w : world D) : world D :=
  World (next_id w) (shared w) (rng_state w) (np w) (attrs w) (compilations w) f.

Definition fresh : M D nat :=
  fun w => (Ok (next_id w), with_next_id (S (next_id w)) w).

(** [theano.shared(value)] *)
Definition theano_shared (v : D) : M D nat :=
  fun w => (Ok (next_id w),
            with_shared (<[next_id w := v]> (shared w)) (with_next_id (S (next_id w)) w)).

(** [var.get_value()] *)
Definition get_value (i : nat) : M D D :=
  fun w => match shared w !! i with
           | Some v => (Ok v, w)
           | None => (Raise KeyError, w)
           end.

(** [var.set_value(v)] *)
Definition set_value (i : nat) (v : D) : M D unit :=
  fun w => (Ok tt, with_shared (<[i := v]> (shared w)) w).

(** [self.rng.binomial(...)], [self.rng.normal(...)], ...: every call makes a
    new stream with its own generator state. *)
Definition random_stream (k : rkind) (p : Expr) : M D Expr :=
  do s <~ fresh ;; ret (Random k s p).

(** A call into numpy.random that returns [A]. *)
Definition numpy_random {A} (f : np_rng -> A * np_rng) : M D A :=
  fun w => let '(a, g) := f (np w) in (Ok a, with_np g w).

(** [RandomStreams(numpy.random.randint(2**30))] *)
Definition RandomStreams : M D unit :=
  fun w => (Ok tt, with_np (np_randint (np w)) w).

Definition hasattr (self : nat) (name : string) : M D bool :=
  fun w => (Ok (bool_decide (is_Some (attrs w !! (self, name)))), w).

Definition setattr (self : nat) (name : string) (a : attr) : M D unit :=
  fun w => (Ok tt, with_attrs (<[(self, name) := a]> (attrs w)) w).

Definition getattr (self : nat) (name : string) : M D attr :=
  fun w => match attrs w !! (self, name) with
           | Some a => (Ok a, w)
           | None => (Raise NameError, w)
           end.

(** A new instance of a class with the given members. *)
Definition new_object (members : list string) : M D nat :=
  fun w => (Ok (next_id w),
            with_attrs (foldr (fun m a => <[(next_id w, m) := AMember]> a) (attrs w) members)
                       (with_next_id (S (next_id w)) w)).

End Primitives.

(** ** Evaluation of graphs and compiled functions *)

Section Eval.
Context {D : Type} `{B : Backend D}.

Definition stream_state (ρ : gmap nat nat) (s : nat) : nat := default 0%nat (ρ !! s).

(** The rows of a [theano.scan] over [xs]: the step graphs [h_t], [y_t] are
    evaluated with the current row bound to x_t and the previous hidden state
    to h_tm1. *)
Definition scan_rows (step : D -> D -> option (D * D)) : list D -> D -> option (list (D * D)) :=
  fix go rows h :=
    match rows with
    | [] => Some []
    | x :: rest =>
        hy ← step x h;
        r ← go rest hy.1;
        Some (hy :: r)
    end.

Fixpoint eval (env : gmap string D) (σ : gmap nat D) (ρ : gmap nat nat) (e : Expr) : option D :=
  match e with
  | Input x => env !! x
  | Shared i => σ !! i
  | ConstI z => Some (of_int z)
  | ConstF q => Some (of_float q)
  | ConstV v => Some (of_vector v)
  | Un o a => a' ← eval env σ ρ a; un_op o a'
  | Bin o a b => a' ← eval env σ ρ a; b' ← eval env σ ρ b; bin_op o a' b'
  | SetColumn v i x =>
      v' ← eval env σ ρ v; i' ← eval env σ ρ i; x' ← eval env σ ρ x;
      set_column v' i' x'
  | Random k s p => p' ← eval env σ ρ p; draw k s (stream_state ρ s) p'
  | Grad c wrt cc =>
      c' ← eval env σ ρ c; p' ← σ !! wrt;
      grad_value c wrt cc env σ ρ c' p'
  | Scan out h_t y_t xs h0 =>
      xs' ← eval env σ ρ xs; rows ← unstack xs'; h0' ← eval env σ ρ h0;
      outs ← scan_rows (fun x h =>
                let env' := <["x_t" := x]> (<["h_tm1" := h]> env) in
                h' ← eval env' σ ρ h_t; y' ← eval env' σ ρ y_t; Some (h', y'))
              rows h0';
      stack (if decide (out = 0%nat) then fst <$> outs else snd <$> outs)
  end.

(** The random streams a graph draws from. *)
Fixpoint streams_of (e : Expr) : list nat :=
  match e with
  | Input _ | Shared _ | ConstI _ | ConstF _ | ConstV _ => []
  | Un _ a => streams_of a
  | Bin _ a b => streams_of a ++ streams_of b
  | SetColumn v i x => streams_of v ++ streams_of i ++ streams_of x
  | Random _ s p => s :: streams_of p
  | Grad c _ _ => streams_of c
  | Scan _ h_t y_t xs h0 => streams_of h_t ++ streams_of y_t ++ streams_of xs ++ streams_of h0
  end.

(** Every stream of a function moves to its next state when the function is
    called. *)
Definition advance (ρ : gmap nat nat) (ss : list nat) : gmap nat nat :=
  foldr (fun s m => <[s := S (stream_state ρ s)]> m) ρ ss.

Definition function_streams (f : compiled) : list nat :=
  streams_of (fn_output f) ++
  flat_map (fun ie => streams_of ie.2) (map_to_list (fn_updates f)).

Definition input_names (inputs : list Expr) : option (list string) :=
  mapM (fun e => match e with Input x => Some x | _ => None end) inputs.

(** [theano.function(inputs, output, updates=updates)] *)
Definition theano_function (inputs : list Expr) (output : Expr)
    (updates : option (gmap nat Expr)) : M D compiled :=
  fun w => match input_names inputs with
           | Some names =>
               (Ok (Compiled names output (default ∅ updates)),
                with_compilations (S (compilations w)) w)
           | None => (Raise TypeError, w)
           end.

(** Calling a compiled function: the output and all update expressions are
    evaluated in the state before the call, then the updates are written
    together. *)
Definition call_function (f : compiled) (args : list D) : M D D :=
  fun w =>
    if bool_decide (length args = length (fn_inputs f)) then
      let env : gmap string D := list_to_map (zip (fn_inputs f) args) in
      let ev := eval env (shared w) (rng_state w) in
      match ev (fn_output f) with
      | Some v =>
          if bool_decide (map_Forall (fun _ e => is_Some (ev e)) (fn_updates f)) then
            (Ok v,
             with_rng_state (advance (rng_state w) (function_streams f))
               (with_shared (omap ev (fn_updates f) ∪ shared w) w))
          else (Raise ValueError, w)
      | None => (Raise ValueError, w)
      end
    else (Raise TypeError, w).

(** ** The [symbolic] decorator *)

(** An argument of a wrapped method: a Theano variable or concrete data. *)
Inductive value :=
| Sym (e : Expr)
| Conc (d : D).

(** What a wrapped method returns: the symbolic result of the method, or the
    value computed by the compiled function. *)
Inductive wres :=
| WSym (r : res)
| WConc (d : D).

(** [isinstance(a, T.Variable)] *)
Definition is_Variable (a : value) : bool :=
  match a with Sym _ => true | Conc _ => false end.

Definition concrete (args : list value) : option (list D) :=
  mapM (fun a => match a with Conc d => Some d | Sym _ => None end) args.

(** [getattr(self, name)] applied to the arguments *)
Definition call_attr (self : nat) (name : string) (args : list value) : M D D :=
  do a <~ getattr self name ;;
  match a, concrete args with
  | AFunction f, Some ds => call_function f ds
  | _, _ => raise TypeError
  end.

(** [symbolic(inputs)(method)]; [oid] gives the identity of [self]. *)
Definition symbolic {T : Type} (oid : T -> nat) (inputs : list Expr)
    (method_name : string) (method : T -> list value -> M D res)
    (self : T) (args : list value) : M D wres :=
  let name := "__" ++ method_name in
  match args with
  | [] => raise IndexError
  | a0 :: _ =>
      if is_Variable a0 then
        do r <~ method self args ;; ret (WSym r)
      else
        do cached <~ hasattr (oid self) name ;;
        if (cached : bool) then
          do d <~ call_attr (oid self) name args ;; ret (WConc d)
        else
          do r <~ method self (Sym <$> inputs) ;;
          let '(output, updates) :=
            match r with
            | RTuple o u => (o, Some u)
            | RExpr o => (o, None)
            end in
          do f <~ theano_function inputs output updates ;;
          do _ <~ setattr (oid self) name (AFunction f) ;;
          do d <~ call_attr (oid self) name args ;; ret (WConc d)
  end.

(** A symbolic call of a wrapped method from inside another method: the
    caller goes on with the returned expression. *)
Definition symbolically (m : list value -> M D wres) (args : list Expr) : M D Expr :=
  do r <~ m (Sym <$> args) ;;
  match r with
  | WSym (RExpr e) => ret e
  | _ => raise TypeError
  end.

End Eval.

Arguments value D : clear implicits.
Arguments wres D : clear implicits.

(** ** Restricted Boltzmann machines *)

(** The attributes set by [BinaryRBM.__init__] and [GaussianRBM.__init__]
    (the two constructors are the same text).  [obj] is the identity of the
    object; [_W], [_c], [_b], [h_samples] are the shared variables. *)
Record rbm := Rbm {
  obj : nat;
  n_hiddens : nat;
  _W : nat;
  _c : nat;
  _b : nat;
  K : nat;
  epsilon : Q;
  n_samples : nat;
  epochs : nat;
  h_samples : nat }.

(** Names every instance answers to: what [__init__] sets and what the class
    body defines. *)
Definition rbm_attributes : list string :=
  ["n_hiddens"; "_W"; "_c"; "_b"; "K"; "epsilon"; "n_samples"; "epochs";
   "h_samples"; "rng";
   "__init__"; "W"; "b"; "c"; "mean_h"; "sample_h"; "mean_v"; "sample_v";
   "free_energy"; "gibbs"; "_fit"; "fit"].

Section RBMCommon.
Context {D : Type} `{B : Backend D}.

(** A method of one parameter besides [self], called with Theano variables. *)
Definition unary (body : Expr -> M D res) (args : list (value D)) : M D res :=
  match args with
  | [Sym v] => body v
  | _ => raise TypeError
  end.

(** [numpy.array([[]])] and [numpy.array([])]: no entries, shapes (1, 0)
    and (0,). *)
Definition np_empty_matrix : D := np_zeros [1; 0]%nat.
Definition np_empty_vector : D := np_zeros [0]%nat.

Definition rbm__init__ (extra : list string) (n_hiddens : nat) (W c b : option D)
    (K : nat) (epsilon : Q) (n_samples epochs : nat) : M D rbm :=
  do self <~ new_object (rbm_attributes ++ extra) ;;
  do _W <~ theano_shared (default np_empty_matrix W) ;;
  do _c <~ theano_shared (default np_empty_vector c) ;;
  do _b <~ theano_shared (default np_empty_vector b) ;;
  do h_samples <~ theano_shared np_empty_matrix ;;
  do _ <~ RandomStreams ;;
  ret (Rbm self n_hiddens _W _c _b K epsilon n_samples epochs h_samples).

(** [T.grad(cost, params, consider_constant=cc)] *)
Definition T_grad (cost : Expr) (params : list nat) (cc : list Expr) : list Expr :=
  (fun p => Grad cost p cc) <$> params.

(** The loop [for p, gp in zip(params, gparams): updates[p] = p - epsilon * gp] *)
Definition sgd_updates (epsilon : Q) (params : list nat) (gparams : list Expr)
    (updates : gmap nat Expr) : gmap nat Expr :=
  foldl (fun u pg => <[pg.1 := Bin Sub (Shared pg.1) (Bin Mul (ConstF epsilon) pg.2)]> u)
        updates (zip params gparams).

(** [for x in xs: body(x)] *)
Fixpoint for_each {A} (xs : list A) (body : A -> M D unit) : M D unit :=
  match xs with
  | [] => ret tt
  | x :: rest => do _ <~ body x ;; for_each rest body
  end.

(** [l[start::step]] for [step >= 1] *)
Definition slice_step {A} (l : list A) (start step : nat) : list A :=
  omap (fun i => l !! (start + i * step)%nat) (seq 0 (length l)).

(** [d.shape[i]] *)
Definition shape_at (d : D) (i : nat) : M D nat :=
  match np_shape d !! i with
  | Some n => ret n
  | None => raise IndexError
  end.

(** [int(numpy.ceil(n / float(k)))] *)
Definition ceil_div (n k : nat) : M D nat :=
  match k with
  | O => raise ZeroDivisionError
  | S _ => ret ((n + k - 1) / k)%nat
  end.

(** [X[rows]] with a list of row numbers *)
Definition rows_of (X : D) (rows : list nat) : M D D :=
  match np_take X rows with
  | Some d => ret d
  | None => raise IndexError
  end.

(** [fit(self, X, verbose=False, callback=None, project=...)]: the body is
    the same in both classes and calls the class's own [_fit]. *)
Definition rbm_fit (_fit : rbm -> list (value D) -> M D (wres D))
    (self : rbm) (X : D) (project : D -> D) : M D unit :=
  do X0 <~ rows_of X [0%nat] ;;
  do n_in <~ shape_at (project X0) 1 ;;
  do W <~ get_value (_W self) ;;
  do W_cols <~ shape_at W 1 ;;
  do _ <~ (if decide (W_cols = 0%nat) then
             do W0 <~ numpy_random (np_normal n_in (n_hiddens self)) ;;
             do _ <~ set_value (_W self) W0 ;;
             do _ <~ set_value (_c self) (np_zeros [n_hiddens self]) ;;
             do _ <~ set_value (_b self) (np_zeros [n_in]) ;;
             set_value (h_samples self) (np_zeros [n_samples self; n_hiddens self])
           else ret tt) ;;
  do n_rows <~ shape_at X 0 ;;
  do inds <~ numpy_random (np_shuffle (seq 0 n_rows)) ;;
  do n_batches <~ ceil_div (length inds) (n_samples self) ;;
  for_each (seq 0 (epochs self)) (fun epoch =>
    for_each (seq 0 n_batches) (fun minibatch =>
      do batch <~ rows_of X (slice_step inds minibatch n_batches) ;;
      do loss <~ _fit self [Conc (project batch)] ;;
      ret tt)).

End RBMCommon.

Module BinaryRBM.
Section Methods.
Context {D : Type} `{B : Backend D}.

Definition __init__ := rbm__init__ (D:=D) ["_pseudo_likelihood"].

Definition mean_h_ (self : rbm) : list (value D) -> M D res :=
  unary (fun v =>
    ret (RExpr (Un Sigmoid (Bin Add (Bin Dot v (Shared (_W self))) (Shared (_c self)))))).
Definition mean_h := symbolic obj [Input "v"] "mean_h" mean_h_.

Definition sample_h_ (self : rbm) : list (value D) -> M D res :=
  unary (fun v =>
    do p <~ symbolically (mean_h self) [v] ;;
    do h <~ random_stream Binomial p ;;
    ret (RExpr h)).
Definition sample_h := symbolic obj [Input "v"] "sample_h" sample_h_.

Definition mean_v_ (self : rbm) : list (value D) -> M D res :=
  unary (fun h =>
    ret (RExpr (Un Sigmoid
      (Bin Add (Bin Dot h (Un Transpose (Shared (_W self)))) (Shared (_b self)))))).
Definition mean_v := symbolic obj [Input "h"] "mean_v" mean_v_.

Definition sample_v_ (self : rbm) : list (value D) -> M D res :=
  unary (fun h =>
    do p <~ symbolically (mean_v self) [h] ;;
    do v <~ random_stream Binomial p ;;
    ret (RExpr v)).
Definition sample_v := symbolic obj [Input "h"] "sample_v" sample_v_.

Definition free_energy_ (self : rbm) : list (value D) -> M D res :=
  unary (fun v =>
    ret (RExpr (Bin Sub (Un Neg (Bin Dot v (Shared (_b self))))
      (Un Sum1 (Un Log (Bin Add (ConstF 1)
         (Un Exp (Bin Add (Bin Dot v (Shared (_W self))) (Shared (_c self)))))))))).
Definition free_energy := symbolic obj [Input "v"] "free_energy" free_energy_.

Definition gibbs_ (self : rbm) : list (value D) -> M D res :=
  unary (fun v =>
    do h_ <~ symbolically (sample_h self) [v] ;;
    do v_ <~ symbolically (sample_v self) [h_] ;;
    ret (RExpr v_)).
Definition gibbs := symbolic obj [Input "v"] "gibbs" gibbs_.

Definition _pseudo_likelihood (self : rbm) (v_pos : Expr) (updates : gmap nat Expr)
    : M D (Expr * gmap nat Expr) :=
  do bit_i <~ theano_shared (of_int 0) ;;
  do fe_xi <~ symbolically (free_energy self) [v_pos] ;;
  do fe_xi_ <~ symbolically (free_energy self)
      [SetColumn v_pos (Shared bit_i)
         (Bin Sub (ConstI 1) (Bin Column v_pos (Shared bit_i)))] ;;
  let updates := <[bit_i := Bin Mod (Bin Add (Shared bit_i) (ConstI 1)) (Un Shape1 v_pos)]> updates in
  ret (Un Mean (Bin Mul (Un Shape1 v_pos) (Un Log (Un Sigmoid (Bin Sub fe_xi_ fe_xi)))),
       updates).

(** The loop [for _ in range(self.K)] of [_fit]; [v_neg] stays unbound when
    the loop body never runs. *)
Fixpoint _fit_chain (self : rbm) (k : nat) (v_neg : option Expr) (h_neg : Expr)
    : M D (option Expr * Expr) :=
  match k with
  | O => ret (v_neg, h_neg)
  | S k' =>
      do v <~ symbolically (sample_v self) [h_neg] ;;
      do h <~ symbolically (sample_h self) [v] ;;
      _fit_chain self k' (Some v) h
  end.

Definition _fit_ (self : rbm) : list (value D) -> M D res :=
  unary (fun v_pos =>
    do (v_neg, h_neg) <~ _fit_chain self (K self) None (Shared (h_samples self)) ;;
    match v_neg with
    | None => raise NameError
    | Some v_neg =>
        do fe_pos <~ symbolically (free_energy self) [v_pos] ;;
        do fe_neg <~ symbolically (free_energy self) [v_neg] ;;
        let cost := Bin Sub (Un Mean fe_pos) (Un Mean fe_neg) in
        let params := [_W self; _b self; _c self] in
        let gparams := T_grad cost params [v_neg] in
        let updates := sgd_updates (epsilon self) params gparams ∅ in
        let updates := <[h_samples self := h_neg]> updates in
        do (loss, updates) <~ _pseudo_likelihood self v_pos updates ;;
        ret (RTuple loss updates)
    end).
Definition _fit := symbolic obj [Input "v_pos"] "_fit" _fit_.

Definition fit := rbm_fit _fit.

End Methods.
End BinaryRBM.

Module GaussianRBM.
Section Methods.
Context {D : Type} `{B : Backend D}.

Definition __init__ := rbm__init__ (D:=D) ["_reconstruction_error"].

Definition mean_h_ (self : rbm) : list (value D) -> M D res :=
  unary (fun v =>
    ret (RExpr (Un Sigmoid (Bin Add (Bin Dot v (Shared (_W self))) (Shared (_c self)))))).
Definition mean_h := symbolic obj [Input "v"] "mean_h" mean_h_.

Definition sample_h_ (self : rbm) : list (value D) -> M D res :=
  unary (fun v =>
    do p <~ symbolically (mean_h self) [v] ;;
    do h <~ random_stream Binomial p ;;
    ret (RExpr h)).
Definition sample_h := symbolic obj [Input "v"] "sample_h" sample_h_.

Definition mean_v_ (self : rbm) : list (value D) -> M D res :=
  unary (fun h =>
    ret (RExpr (Bin Add (Bin Dot h (Un Transpose (Shared (_W self)))) (Shared (_b self))))).
Definition mean_v := symbolic obj [Input "h"] "mean_v" mean_v_.

Definition sample_v_ (self : rbm) : list (value D) -> M D res :=
  unary (fun h =>
    do avg <~ symbolically (mean_v self) [h] ;;
    do v <~ random_stream Normal avg ;;
    ret (RExpr v)).
Definition sample_v := symbolic obj [Input "h"] "sample_v" sample_v_.

Definition free_energy_ (self : rbm) : list (value D) -> M D res :=
  unary (fun v =>
    ret (RExpr (Bin Sub (Un Neg (Un Sum1 (Un Sqr (Bin Sub v (Shared (_b self))))))
      (Un Sum1 (Un Log (Bin Add (ConstF 1)
         (Un Exp (Bin Add (Bin Dot v (Shared (_W self))) (Shared (_c self)))))))))).
Definition free_energy := symbolic obj [Input "v"] "free_energy" free_energy_.

Definition gibbs_ (self : rbm) : list (value D) -> M D res :=
  unary (fun v =>
    do h_ <~ symbolically (sample_h self) [v] ;;
    do v_ <~ symbolically (sample_v self) [h_] ;;
    ret (RExpr v_)).
Definition gibbs := symbolic obj [Input "v"] "gibbs" gibbs_.

Definition _reconstruction_error (self : rbm) (v_pos : Expr) : M D Expr :=
  do h <~ symbolically (mean_h self) [v_pos] ;;
  do z <~ symbolically (mean_v self) [h] ;;
  ret (Un Mean (Un Sum1 (Un Sqr (Bin Sub v_pos z)))).

(** The loop of [_fit]: the visibles are set to their mean ("Use mean to
    reduce instability"), the hiddens are sampled. *)
Fixpoint _fit_chain (self : rbm) (k : nat) (v_neg : option Expr) (h_neg : Expr)
    : M D (option Expr * Expr) :=
  match k with
  | O => ret (v_neg, h_neg)
  | S k' =>
      do v <~ symbolically (mean_v self) [h_neg] ;;
      do h <~ symbolically (sample_h self) [v] ;;
      _fit_chain self k' (Some v) h
  end.

Definition _fit_ (self : rbm) : list (value D) -> M D res :=
  unary (fun v_pos =>
    do (v_neg, h_neg) <~ _fit_chain self (K self) None (Shared (h_samples self)) ;;
    match v_neg with
    | None => raise NameError
    | Some v_neg =>
        do fe_pos <~ symbolically (free_energy self) [v_pos] ;;
        do fe_neg <~ symbolically (free_energy self) [v_neg] ;;
        let cost := Bin Sub (Un Mean fe_pos) (Un Mean fe_neg) in
        let params := [_W self; _b self; _c self] in
        let gparams := T_grad cost params [v_neg] in
        let updates := sgd_updates (epsilon self) params gparams ∅ in
        let updates := <[h_samples self := h_neg]> updates in
        do loss <~ _reconstruction_error self v_pos ;;
        ret (RTuple loss updates)
    end).
Definition _fit := symbolic obj [Input "v_pos"] "_fit" _fit_.

Definition fit := rbm_fit _fit.

End Methods.
End GaussianRBM.

(** ** Files *)

Section Files.
Context {D : Type} `{B : Backend D}.

(** [numpy.save(name, value)] *)
Definition numpy_save (name : string) (v : D) : M D unit :=
  fun w => (Ok tt, with_files (<[name := v]> (files w)) w).

(** [numpy.load(name)] *)
Definition numpy_load (name : string) : M D D :=
  fun w => match files w !! name with
           | Some v => (Ok v, w)
           | None => (Raise IOError, w)
           end.

(** [theano.function] with the updates given as a list of pairs; a variable
    updated twice is refused. *)
Definition theano_function_pairs (inputs : list Expr) (output : Expr)
    (updates : list (nat * Expr)) : M D compiled :=
  if decide (NoDup updates.*1) then
    theano_function inputs output (Some (list_to_map updates))
  else raise ValueError.

End Files.

(** ** SetRBM *)

Module SetRBM.

Record t := Make {
  n_visibles : nat;
  n_hiddens : nat;
  n_classes : nat;
  x : Expr;
  y : Expr;
  W : nat;
  U : nat;
  b : nat;
  c : nat;
  d : nat;
  learning_rate : nat;
  K : nat }.

Definition params (self : t) : list nat := [W self; U self; b self; c self; d self].

Section Graph.

Definition _softminus (x : Expr) : Expr := Bin Sub x (Un Softplus x).

Definition _free_energy (self : t) (x y : Expr) : Expr :=
  let bias_term := Bin Add (Bin Dot y (Shared (d self))) (Bin Dot x (Shared (c self))) in
  let softmax_x := Un Log (Un Sum0 (Un Exp (_softminus
      (Bin Add (Bin Dot x (Shared (W self))) (Shared (b self)))))) in
  let hidden_term := Un SumAll (Un Softplus (Bin Add (Bin Dot y (Shared (U self))) softmax_x)) in
  Bin Sub (Un Neg bias_term) hidden_term.

Definition _output (self : t) (x : Expr) : Expr :=
  let softmax_x := Un Log (Un Sum0 (Un Exp (_softminus
      (Bin Add (Bin Dot x (Shared (W self))) (Shared (b self)))))) in
  let output := Un Neg (Un Sum1 (Un Softplus (Bin Add (Shared (U self)) softmax_x))) in
  Un Argmax (Un Softmax output).

Definition _act (self : t) (x y : Expr) : Expr :=
  Bin Add (_softminus (Bin Add (Shared (b self)) (Bin Dot x (Shared (W self)))))
          (Bin Dot y (Shared (U self))).

Definition _mean_g (self : t) (x y : Expr) : Expr * Expr :=
  let act := _act self x y in
  (Bin Div (Un Exp act) (Bin Add (ConstF 1) (Un Sum0 (Un Exp act))),
   Bin Div (ConstF 1) (Bin Add (ConstF 1) (Un Sum0 (Un Exp act)))).

Definition _mean_h (self : t) (g x : Expr) : Expr :=
  Bin Maximum g (Un Sigmoid (Bin Add (Bin Dot x (Shared (W self))) (Shared (b self)))).

Definition _mean_x (self : t) (h : Expr) : Expr :=
  Bin Add (Bin Dot h (Un Transpose (Shared (W self)))) (Shared (c self)).

Definition _mean_y (self : t) (g : Expr) : Expr :=
  Un Softmax (Bin Add (Un Sum0 (Bin Dot g (Un Transpose (Shared (U self))))) (Shared (d self))).

End Graph.

Section Methods.
Context {D : Type} `{B : Backend D}.

Definition _sample_g (self : t) (x y : Expr) : M D Expr :=
  let '(g_mean, g_zeros) := _mean_g self x y in
  let g_mean := Bin Concat (Un PadLeft g_zeros) g_mean in
  do s <~ random_stream Multinomial (Un Transpose g_mean) ;;
  ret (Un Tail (Un Transpose s)).

Definition _sample_h (self : t) (g x : Expr) : M D Expr :=
  random_stream Binomial (_mean_h self g x).

Definition _sample_x (self : t) (h : Expr) : M D Expr :=
  random_stream Binomial (_mean_x self h).

Definition _sample_y (self : t) (g : Expr) : M D Expr :=
  random_stream Multinomial (_mean_y self g).

(** The loop of [__train]; [ny_samples] is unbound until the body has run. *)
Fixpoint __train_chain (self : t) (k : nat) (nx_samples : Expr)
    (ny_samples : option Expr) (ng_samples : Expr) : M D (Expr * option Expr * Expr) :=
  match k with
  | O => ret (nx_samples, ny_samples, ng_samples)
  | S k' =>
      do nh_samples <~ _sample_h self ng_samples nx_samples ;;
      let nx_samples := _mean_x self nh_samples in
      do ny_samples <~ _sample_y self ng_samples ;;
      do ng_samples <~ _sample_g self nx_samples ny_samples ;;
      __train_chain self k' nx_samples (Some ny_samples) ng_samples
  end.

Definition __train (self : t) : M D (Expr * gmap nat Expr) :=
  let nx_samples := x self in
  do ng_samples <~ _sample_g self (x self) (y self) ;;
  do (nx_samples, ny_samples, ng_samples) <~
     __train_chain self (K self) nx_samples None ng_samples ;;
  match ny_samples with
  | None => raise NameError
  | Some ny_samples =>
      let cost := Bin Sub (Un Mean (_free_energy self (x self) (y self)))
                          (Un Mean (_free_energy self nx_samples ny_samples)) in
      let gparams := T_grad cost (params self) [nx_samples; ny_samples] in
      let updates :=
        foldl (fun u gp =>
                 <[gp.2 := Bin Sub (Shared gp.2)
                             (Bin Mul gp.1 (Un CastFloatX (Shared (learning_rate self))))]> u)
              ∅ (zip gparams (params self)) in
      let monitoring_cost := Un Mean (Bin CrossEntropy (y self) ny_samples) in
      ret (monitoring_cost, updates)
  end.

(** A parameter given to the constructor is a shared variable; one left out
    is created from [init]. *)
Definition param_or (given : option nat) (init : M D D) : M D nat :=
  match given with
  | Some v => ret v
  | None => do v <~ init ;; theano_shared v
  end.

(** What [__init__] leaves on the instance besides [t]: the compiled
    [train] and [output] functions and the list [trainables]. *)
Record instance := Instance {
  model : t;
  train : compiled;
  trainables : list nat;
  output : compiled }.

Definition __init__ (n_visibles n_hiddens n_classes : nat)
    (W U b c d : option nat) (learning_rate : Q) (K : nat) : M D instance :=
  let x := Input "x" in
  let y := Input "y" in
  do W <~ param_or W (numpy_random (np_normal n_visibles n_hiddens)) ;;
  do U <~ param_or U (numpy_random (np_normal n_classes n_hiddens)) ;;
  do b <~ param_or b (ret (np_zeros [n_hiddens])) ;;
  do c <~ param_or c (ret (np_zeros [n_visibles])) ;;
  do d <~ param_or d (ret (np_zeros [n_classes])) ;;
  do _ <~ RandomStreams ;;
  do lr <~ theano_shared (of_float learning_rate) ;;
  let self := Make n_visibles n_hiddens n_classes x y W U b c d lr K in
  do (cost, updates) <~ __train self ;;
  do train <~ theano_function [x; y] cost (Some updates) ;;
  let trainables := (map_to_list updates).*1 in
  do output <~ theano_function [x] (_output self x) None ;;
  ret (Instance self train trainables output).

Definition save (self : t) (tag : option string) : M D unit :=
  let tag := match tag with None => "" | Some t => "_" +:+ t end in
  do v <~ get_value (W self) ;; do _ <~ numpy_save ("rbm_W" +:+ tag +:+ ".npy") v ;;
  do v <~ get_value (U self) ;; do _ <~ numpy_save ("rbm_U" +:+ tag +:+ ".npy") v ;;
  do v <~ get_value (b self) ;; do _ <~ numpy_save ("rbm_b" +:+ tag +:+ ".npy") v ;;
  do v <~ get_value (c self) ;; do _ <~ numpy_save ("rbm_c" +:+ tag +:+ ".npy") v ;;
  do v <~ get_value (d self) ;; numpy_save ("rbm_d" +:+ tag +:+ ".npy") v.

End Methods.
End SetRBM.

(** ** Layers *)

Module NeuralNetworkLayer.

Record t := Make {
  n_in : nat;
  n_out : nat;
  input : Expr;
  W : nat;
  b : nat;
  linear_output : Expr;
  output : Expr }.

Section Methods.
Context {D : Type} `{B : Backend D}.

Definition __init__ (x : Expr) (n_in n_out : nat) (activation : Expr -> M D Expr)
    (W b : option nat) : M D t :=
  do W_values <~ numpy_random (np_glorot n_in n_out) ;;
  do W <~ match W with
          | None => theano_shared W_values
          | Some W => ret W
          end ;;
  do b <~ match b with
          | None => theano_shared (np_zeros [n_out])
          | Some b => ret b
          end ;;
  let linear_output := Bin Dot x (Shared W) in
  do output <~ activation (Bin Add linear_output (Shared b)) ;;
  ret (Make n_in n_out x W b linear_output output).

End Methods.
End NeuralNetworkLayer.

(** [numpy.sign] *)
Definition numpy_sign (q : Q) : Q := inject_Z (Z.sgn (Qnum q)).

Section Layers.
Context {D : Type} `{B : Backend D}.

Definition LogisticLayer x n_in n_out W b :=
  NeuralNetworkLayer.__init__ x n_in n_out (fun x => ret (Un Sigmoid x)) W b.

(** The sign mask is drawn from numpy.random when the activation is applied,
    that is once, while the layer is being built. *)
Definition RectifierLayer x n_in n_out (mask : bool) W b :=
  let activation :=
    if mask then
      fun x => do u <~ numpy_random (np_uniform (-1) 1 n_out) ;;
               ret (Bin Mul (ConstV (numpy_sign <$> u)) (Bin Maximum x (ConstI 0)))
    else
      fun x => ret (Bin Maximum x (ConstI 0)) in
  NeuralNetworkLayer.__init__ x n_in n_out activation W b.

Definition TanhLayer x n_in n_out W b :=
  NeuralNetworkLayer.__init__ x n_in n_out (fun x => ret (Un Tanh x)) W b.

Definition SoftmaxLayer x n_in n_out W b :=
  NeuralNetworkLayer.__init__ x n_in n_out (fun x => ret (Un Softmax x)) W b.

Definition SoftplusLayer x n_in n_out W b :=
  NeuralNetworkLayer.__init__ x n_in n_out (fun x => ret (Un Softplus x)) W b.

Definition LinearLayer x n_in n_out W b :=
  NeuralNetworkLayer.__init__ x n_in n_out (fun x => ret x) W b.

Definition SquaredLayer x n_in n_out W b :=
  NeuralNetworkLayer.__init__ x n_in n_out (fun x => ret (Un Sqr x)) W b.

End Layers.

(** ** Trainer *)

Module NeuralNetworkTrainer.
Section Methods.
Context {D : Type} `{B : Backend D}.

(** [if momentum:] holds for a momentum that is given and not zero. *)
Definition truthy (momentum : option Q) : option Q :=
  match momentum with
  | Some m => if Qeq_bool m 0 then None else Some m
  | None => None
  end.

Fixpoint make_updates (learning_rate : Q) (momentum : option Q)
    (pg : list (nat * Expr)) : M D (list (nat * Expr)) :=
  match pg with
  | [] => ret []
  | (param, gparam) :: rest =>
      do here <~
        match truthy momentum with
        | Some m =>
            do v <~ get_value param ;;
            do memory <~ theano_shared (np_zeros (np_shape v)) ;;
            ret [(param, Bin Sub (Shared param) (Shared memory));
                 (memory, Bin Add (Bin Mul (ConstF m) (Shared memory))
                                  (Bin Mul (ConstF learning_rate) gparam))]
        | None =>
            ret [(param, Bin Sub (Shared param) (Bin Mul (ConstF learning_rate) gparam))]
        end ;;
      do more <~ make_updates learning_rate momentum rest ;;
      ret (here ++ more)%list
  end.

(** Returns the compiled [_train]. *)
Definition __init__ (inputs : list Expr) (cost : Expr) (layers : list NeuralNetworkLayer.t)
    (learning_rate : Q) (momentum : option Q) : M D compiled :=
  let params := ((NeuralNetworkLayer.W <$> layers) ++ (NeuralNetworkLayer.b <$> layers))%list in
  do _ <~ theano_shared (of_float learning_rate) ;;
  let gparams := (fun param => Grad cost param []) <$> params in
  do updates <~ make_updates learning_rate momentum (zip params gparams) ;;
  theano_function_pairs inputs cost updates.

End Methods.
End NeuralNetworkTrainer.

(** ** MLP *)

Module MLP.

Record t := Make {
  layers : list NeuralNetworkLayer.t;
  clean_layers : list NeuralNetworkLayer.t;
  _output : compiled;
  transform : compiled;
  trainer : compiled }.

Section Methods.
Context {D : Type} `{B : Backend D}.

(** [type_map[layer_type](layer_input, layer_n_in, layer_size, ...)]; [xargs]
    is the value of the keyword [mask] when the caller passes it. *)
Definition type_map (layer_type : string) (x : Expr) (n_in n_out : nat)
    (W b : option nat) (xargs : option bool) : M D NeuralNetworkLayer.t :=
  if decide (layer_type = "L") then LogisticLayer x n_in n_out W b
  else if decide (layer_type = "R") then RectifierLayer x n_in n_out (default true xargs) W b
  else if decide (layer_type = "S") then SoftmaxLayer x n_in n_out W b
  else if decide (layer_type = "Sp") then SoftplusLayer x n_in n_out W b
  else if decide (layer_type = "T") then TanhLayer x n_in n_out W b
  else if decide (layer_type = "Li") then LinearLayer x n_in n_out W b
  else if decide (layer_type = "Sq") then SquaredLayer x n_in n_out W b
  else raise KeyError.

(** [xargs] of the two loops: [mask=False] for a rectifier whose description
    equals that of the last layer. *)
Definition mask_argument (layers : list (string * nat)) (layer : string * nat) : option bool :=
  if decide (layer.1 = "R" ∧ last layers = Some layer) then Some false else None.

(** Input of layer [i]: the network input for the first layer, else the
    output of the layer built last. *)
Definition previous (x : Expr) (n_in i : nat) (built : list NeuralNetworkLayer.t)
    : M D (Expr * nat) :=
  if decide (i = 0%nat) then ret (x, n_in)
  else match last built with
       | Some l => ret (NeuralNetworkLayer.output l, NeuralNetworkLayer.n_out l)
       | None => raise IndexError
       end.

(** First loop of [__init__]: the stack that is trained. *)
Fixpoint noisy_stack (x : Expr) (n_in : nat) (layers : list (string * nat))
    (hidden_dropout : Q) (i : nat) (todo : list (string * nat))
    (self_layers : list NeuralNetworkLayer.t) : M D (list NeuralNetworkLayer.t) :=
  match todo with
  | [] => ret self_layers
  | layer :: rest =>
      do (layer_input, layer_n_in) <~ previous x n_in i self_layers ;;
      do layer_input <~
        (if decide (i = length layers - 1)%nat then
           let layer_input := Un Max0 layer_input in
           do r <~ random_stream Binomial (ConstF hidden_dropout) ;;
           ret (Bin Div (Bin Mul layer_input r) (ConstF hidden_dropout))
         else ret layer_input) ;;
      do l <~ type_map layer.1 layer_input layer_n_in layer.2 None None
                (mask_argument layers layer) ;;
      noisy_stack x n_in layers hidden_dropout (S i) rest (self_layers ++ [l])%list
  end.

(** Second loop of [__init__]: the stack used for inference, built on the
    shared variables of [self.layers]. *)
Fixpoint clean_stack (x : Expr) (n_in : nat) (layers : list (string * nat))
    (self_layers : list NeuralNetworkLayer.t) (i : nat) (todo : list (string * nat))
    (self_clean_layers : list NeuralNetworkLayer.t) : M D (list NeuralNetworkLayer.t) :=
  match todo with
  | [] => ret self_clean_layers
  | layer :: rest =>
      do (layer_input, layer_n_in) <~ previous x n_in i self_clean_layers ;;
      let layer_input :=
        if decide (i = length layers - 1)%nat then Un Max0 layer_input else layer_input in
      do noisy <~ match self_layers !! i with
                  | Some l => ret l
                  | None => raise IndexError
                  end ;;
      do l <~ type_map layer.1 layer_input layer_n_in layer.2
                (Some (NeuralNetworkLayer.W noisy)) (Some (NeuralNetworkLayer.b noisy))
                (mask_argument layers layer) ;;
      clean_stack x n_in layers self_layers (S i) rest (self_clean_layers ++ [l])%list
  end.

(** [l[-1]] and [l[-2]] *)
Definition from_end {A} (l : list A) (k : nat) : M D A :=
  match reverse l !! k with
  | Some a => ret a
  | None => raise IndexError
  end.

(** [sum([(l.W**2).sum() for l in layers])] *)
Definition l2_sum (layers : list NeuralNetworkLayer.t) : Expr :=
  foldl (fun acc l => Bin Add acc (Un SumAll (Un Sqr (Shared (NeuralNetworkLayer.W l)))))
        (ConstI 0) layers.

Definition __init__ (n_in : nat) (layers : list (string * nat)) (hidden_dropout : Q)
    (l2 : option Q) (learning_rate : Q) (momentum : option Q) : M D t :=
  let x := Input "x" in
  let y := Input "y" in
  do _ <~ RandomStreams ;;
  do self_layers <~ noisy_stack x n_in layers hidden_dropout 0 layers [] ;;
  do self_clean_layers <~ clean_stack x n_in layers self_layers 0 layers [] ;;
  do top <~ from_end self_clean_layers 0 ;;
  do _output <~ theano_function [x] (Un Argmax1 (NeuralNetworkLayer.output top)) None ;;
  do below <~ from_end self_clean_layers 1 ;;
  do transform <~ theano_function [x] (Un Max0 (NeuralNetworkLayer.output below)) None ;;
  do noisy_top <~ from_end self_layers 0 ;;
  let loss := Un Neg (Un Mean (Bin PickLabels (Un Log (NeuralNetworkLayer.output noisy_top)) y)) in
  let loss := match l2 with
              | Some l2 => Bin Add loss (Bin Mul (ConstF l2) (l2_sum self_layers))
              | None => loss
              end in
  do trainer <~ NeuralNetworkTrainer.__init__ [x; y] loss self_layers learning_rate momentum ;;
  ret (Make self_layers self_clean_layers _output transform trainer).

Definition train (self : t) (args : list D) : M D D :=
  call_function (trainer self) args.

(** [enumerate] *)
Definition enumerate {A} (l : list A) : list (nat * A) := zip (seq 0 (length l)) l.

Definition W_file (i : nat) : string := "W_" +:+ pretty i +:+ ".npy".
Definition b_file (i : nat) : string := "b_" +:+ pretty i +:+ ".npy".

Definition save (self : t) : M D unit :=
  for_each (enumerate (layers self)) (fun il =>
    do v <~ get_value (NeuralNetworkLayer.W il.2) ;;
    do _ <~ numpy_save (W_file il.1) v ;;
    do v <~ get_value (NeuralNetworkLayer.b il.2) ;;
    numpy_save (b_file il.1) v).

Definition load (self : t) : M D unit :=
  for_each (enumerate (layers self)) (fun il =>
    do v <~ numpy_load (W_file il.1) ;;
    do _ <~ set_value (NeuralNetworkLayer.W il.2) v ;;
    do v <~ numpy_load (b_file il.1) ;;
    set_value (NeuralNetworkLayer.b il.2) v).

End Methods.
End MLP.

(** ** RNN *)

Module RNN.

Record t := Make {
  x : Expr;
  y : Expr;
  h0 : nat;
  W : nat;
  U : nat;
  V : nat;
  b : nat;
  c : nat;
  learning_rate : nat;
  train : compiled;
  output : compiled;
  transform : compiled }.

Definition params (W U V b c : nat) : list nat := [W; U; V; b; c].

(** The local function [step] *)
Definition step (x_t h_tm1 W U V b c : Expr) : Expr * Expr :=
  let h_t := Un Tanh (Bin Add (Bin Add (Bin Dot x_t W) (Bin Dot h_tm1 U)) b) in
  let y_t := Un Sigmoid (Bin Add (Bin Dot h_t V) c) in
  (h_t, y_t).

(** The update list built by the loop over [zip(self.params, gparams)]. *)
Definition clipped_updates (learning_rate : nat) (params : list nat) (gparams : list Expr)
    : list (nat * Expr) :=
  (fun pg : nat * Expr =>
     (pg.1, Bin Sub (Shared pg.1)
              (Bin Mul (Shared learning_rate)
                 (Bin Maximum (ConstI (-15)) (Bin Minimum pg.2 (ConstF 15))))))
  <$> zip params gparams.

Section Methods.
Context {D : Type} `{B : Backend D}.

Definition __init__ (n_in n_hiddens n_out : nat) (learning_rate : Q) : M D t :=
  let x := Input "x" in
  let y := Input "y" in
  do h0 <~ theano_shared (np_zeros [n_hiddens]) ;;
  do W0 <~ numpy_random (np_glorot n_in n_hiddens) ;;
  do W <~ theano_shared W0 ;;
  do U0 <~ numpy_random (np_glorot n_hiddens n_hiddens) ;;
  do U <~ theano_shared U0 ;;
  do V0 <~ numpy_random (np_glorot n_hiddens n_out) ;;
  do V <~ theano_shared V0 ;;
  do b <~ theano_shared (np_zeros [n_hiddens]) ;;
  do c <~ theano_shared (np_zeros [n_out]) ;;
  let '(h_t, y_t) := step (Input "x_t") (Input "h_tm1")
                       (Shared W) (Shared U) (Shared V) (Shared b) (Shared c) in
  let h := Scan 0 h_t y_t x (Shared h0) in
  let output := Scan 1 h_t y_t x (Shared h0) in
  let cost := Un Neg (Un Mean (Un Sum1
      (Bin Add (Bin Mul y (Un Log output))
               (Bin Mul (Bin Sub (ConstF 1) y) (Un Log (Bin Sub (ConstF 1) output)))))) in
  let gparams := (fun p => Grad cost p []) <$> params W U V b c in
  do lr <~ theano_shared (of_float learning_rate) ;;
  let updates := clipped_updates lr (params W U V b c) gparams in
  do train <~ theano_function_pairs [x; y] cost updates ;;
  do output_fn <~ theano_function [x] (Un Argmax (Un Mean0 output)) None ;;
  do transform <~ theano_function [x] (Un Mean0 h) None ;;
  ret (Make x y h0 W U V b c lr train output_fn transform).

Definition save (self : t) : M D unit :=
  do v <~ get_value (W self) ;; do _ <~ numpy_save "W.npy" v ;;
  do v <~ get_value (U self) ;; do _ <~ numpy_save "U.npy" v ;;
  do v <~ get_value (V self) ;; do _ <~ numpy_save "V.npy" v ;;
  do v <~ get_value (b self) ;; do _ <~ numpy_save "b.npy" v ;;
  do v <~ get_value (c self) ;; numpy_save "c.npy" v.

End Methods.
End RNN.

(** ** Backend 1: array shapes

    An array is represented by its shape, an integer scalar by its value
    (indices and sizes are computed with).  The rules are the engine's
    run-time shape checks. *)

Module Shapes.

Inductive shp :=
| SInt (z : Z)
| SArr (dims : list nat).

#[global] Instance shp_eq_dec : EqDecision shp.
Proof. solve_decision. Defined.

(** Broadcasting of an elementwise operation: the argument of lower rank is
    lined up with the last dimensions of the other, which must agree. *)
Definition broadcast (d1 d2 : list nat) : option (list nat) :=
  if decide (length d2 <= length d1)%nat then
    if decide (drop (length d1 - length d2) d1 = d2) then Some d1 else None
  else
    if decide (drop (length d2 - length d1) d2 = d1) then Some d2 else None.

Definition dims_of (d : shp) : list nat :=
  match d with SInt _ => [] | SArr l => l end.

Definition un_shape (o : unop) (d : shp) : option shp :=
  match o, d with
  | Neg, SInt z => Some (SInt (- z))
  | Sqr, SInt z => Some (SInt (z * z))
  | (Sigmoid | Exp | Log | Tanh | Softplus | Neg | Sqr | CastFloatX), _ =>
      Some (SArr (dims_of d))
  | Softmax, SArr [n; m] => Some (SArr [n; m])
  | Softmax, SArr [m] => Some (SArr [1%nat; m])
  | Transpose, SArr [n; m] => Some (SArr [m; n])
  | Transpose, SArr [n] => Some (SArr [n])
  | Transpose, SArr [] => Some (SArr [])
  | (Sum0 | Mean0), SArr (n :: rest) => Some (SArr rest)
  | Max0, SArr (S n :: rest) => Some (SArr rest)
  | Sum1, SArr (n :: m :: rest) => Some (SArr (n :: rest))
  | (SumAll | Mean), _ => Some (SArr [])
  | Argmax, SArr (S n :: rest) => Some (SArr [])
  | Argmax1, SArr (n :: S m :: rest) => Some (SArr (n :: rest))
  | Shape0, SArr (n :: rest) => Some (SInt (Z.of_nat n))
  | Shape1, SArr (n :: m :: rest) => Some (SInt (Z.of_nat m))
  | PadLeft, SArr [n] => Some (SArr [1%nat; n])
  | Tail, SArr (n :: rest) => Some (SArr (pred n :: rest))
  | _, _ => None
  end.

Definition int_op (o : binop) (a b : Z) : option shp :=
  match o with
  | Add => Some (SInt (a + b))
  | Sub => Some (SInt (a - b))
  | Mul | Dot => Some (SInt (a * b))
  | Maximum => Some (SInt (Z.max a b))
  | Minimum => Some (SInt (Z.min a b))
  | Mod => if decide (b = 0%Z) then None else Some (SInt (a mod b))
  | Div | CrossEntropy => Some (SArr [])
  | _ => None
  end.

Definition dot (d1 d2 : list nat) : option (list nat) :=
  match d1, d2 with
  | [n; k], [k'; m] => if decide (k = k') then Some [n; m] else None
  | [k], [k'; m] => if decide (k = k') then Some [m] else None
  | [n; k], [k'] => if decide (k = k') then Some [n] else None
  | [k], [k'] => if decide (k = k') then Some [] else None
  | [], d | d, [] => Some d
  | _, _ => None
  end.

(** [v[:, i]] for a matrix [v]: the index must name a column. *)
Definition column_ok (d : list nat) (i : shp) : bool :=
  match d, i with
  | [n; m], SInt z => bool_decide (- Z.of_nat m <= z < Z.of_nat m)%Z
  | _, _ => false
  end.

Definition bin_shape (o : binop) (a b : shp) : option shp :=
  match o with
  | Column =>
      match a with
      | SArr d => if column_ok d b then Some (SArr (take 1 d)) else None
      | SInt _ => None
      end
  | Concat =>
      match a, b with
      | SArr (n :: r1), SArr (k :: r2) =>
          if decide (r1 = r2) then Some (SArr ((n + k)%nat :: r1)) else None
      | _, _ => None
      end
  | PickLabels =>
      match a, b with
      | SArr [n; m], SArr [k] => if decide (k <= n)%nat then Some (SArr [k]) else None
      | _, _ => None
      end
  | _ =>
      match a, b with
      | SInt x, SInt y => int_op o x y
      | _, _ =>
          match o with
          | Mod => None
          | Dot => SArr <$> dot (dims_of a) (dims_of b)
          | _ => SArr <$> broadcast (dims_of a) (dims_of b)
          end
      end
  end.

Definition set_column_shape (v i x : shp) : option shp :=
  match v with
  | SArr [n; m] =>
      if column_ok [n; m] i && bool_decide (is_Some (broadcast [n] (dims_of x)))
         && bool_decide (length (dims_of x) <= 1)%nat
      then Some v else None
  | _ => None
  end.

Definition draw_shape (k : rkind) (s n : nat) (p : shp) : option shp :=
  match k, p with
  | Multinomial, SArr [n; m] => Some p
  | Multinomial, _ => None
  | _, _ => Some (SArr (dims_of p))
  end.

(** The gradient of a scalar cost has the shape of the parameter. *)
Definition grad_shape (c : Expr) (wrt : nat) (cc : list Expr)
    (env : gmap string shp) (σ : gmap nat shp) (ρ : gmap nat nat)
    (cost param : shp) : option shp :=
  match cost with
  | SArr [] => Some param
  | _ => None
  end.

Definition unstack_shape (d : shp) : option (list shp) :=
  match d with
  | SArr (n :: rest) => Some (replicate n (SArr rest))
  | _ => None
  end.

Definition stack_shape (l : list shp) : option shp :=
  match l with
  | [] => Some (SArr [0%nat])
  | d :: rest =>
      if forallb (fun d' => bool_decide (d' = d)) rest
      then Some (SArr (length l :: dims_of d)) else None
  end.

Definition take_shape (d : shp) (rows : list nat) : option shp :=
  match d with
  | SArr (n :: rest) =>
      if forallb (fun i => bool_decide (i < n)%nat) rows
      then Some (SArr (length rows :: rest)) else None
  | _ => None
  end.

(** numpy.random is reduced to the shapes it returns; the generator has no
    state worth keeping. *)
#[export] Instance backend : Backend shp := {|
  np_rng := unit;
  of_int := SInt;
  of_float := fun _ => SArr [];
  of_vector := fun v => SArr [length v];
  un_op := un_shape;
  bin_op := bin_shape;
  set_column := set_column_shape;
  draw := draw_shape;
  grad_value := grad_shape;
  unstack := unstack_shape;
  stack := stack_shape;
  np_zeros := SArr;
  np_shape := dims_of;
  np_take := take_shape;
  np_randint := fun g => g;
  np_normal := fun n m g => (SArr [n; m], g);
  np_glorot := fun n m g => (SArr [n; m], g);
  np_uniform := fun low high n g => (replicate n low, g);
  np_shuffle := fun l g => (l, g) |}.

End Shapes.

(** ** Backend 2: arrays of real numbers

    Scalars, vectors and matrices over R (a matrix carries its number of
    columns, so that an array without rows still has a shape), with integer
    scalars and integer vectors for indices and labels.  Random draws,
    gradients and numpy.random are oracles. *)

Module Arrays.

Inductive tensor :=
| TInt (z : Z)
| TInts (l : list Z)
| TScal (x : R)
| TVec (v : list R)
| TMat (cols : nat) (rows : list (list R)).

Record oracle := Oracle {
  rng : Type;
  o_draw : rkind -> nat -> nat -> tensor -> option tensor;
  o_grad : Expr -> nat -> list Expr -> gmap string tensor -> gmap nat tensor ->
           gmap nat nat -> tensor -> tensor -> option tensor;
  o_randint : rng -> rng;
  o_normal : nat -> nat -> rng -> tensor * rng;
  o_glorot : nat -> nat -> rng -> tensor * rng;
  o_uniform : Q -> Q -> nat -> rng -> list Q * rng;
  o_shuffle : list nat -> rng -> list nat * rng }.

Section Ops.
Open Scope R_scope.

(** Integers used where floats are expected are converted. *)
Definition float (t : tensor) : tensor :=
  match t with
  | TInt z => TScal (IZR z)
  | TInts l => TVec (IZR <$> l)
  | _ => t
  end.

Definition tmap (f : R -> R) (t : tensor) : tensor :=
  match float t with
  | TScal x => TScal (f x)
  | TVec v => TVec (fmap (M:=list) f v)
  | TMat c m => TMat c (fmap (M:=list) (fmap (M:=list) f) m)
  | t' => t'
  end.

(** Elementwise operation with broadcasting of scalars and of a vector along
    the rows of a matrix. *)
Definition tzip (f : R -> R -> R) (a b : tensor) : option tensor :=
  match float a, float b with
  | TScal x, TScal y => Some (TScal (f x y))
  | TScal x, TVec v => Some (TVec (f x <$> v))
  | TVec v, TScal y => Some (TVec ((fun x => f x y) <$> v))
  | TScal x, TMat c m => Some (TMat c (fmap (M:=list) (fmap (M:=list) (f x)) m))
  | TMat c m, TScal y => Some (TMat c (fmap (M:=list) (fmap (M:=list) (fun x => f x y)) m))
  | TVec u, TVec v =>
      if decide (length u = length v) then Some (TVec (zip_with f u v)) else None
  | TMat c m, TVec v =>
      if decide (length v = c) then Some (TMat c ((fun r => zip_with f r v) <$> m)) else None
  | TVec v, TMat c m =>
      if decide (length v = c) then Some (TMat c ((fun r => zip_with f v r) <$> m)) else None
  | TMat c m, TMat c' m' =>
      if decide (c = c' ∧ length m = length m')
      then Some (TMat c (zip_with (zip_with f) m m')) else None
  | _, _ => None
  end.

Definition Rsum (l : list R) : R := foldr Rplus 0 l.

Definition col (j : nat) (m : list (list R)) : list R := (fun r => nth j r 0) <$> m.

Definition dotv (u v : list R) : R := Rsum (zip_with Rmult u v).

Definition dot (a b : tensor) : option tensor :=
  match float a, float b with
  | TMat k A, TMat m B =>
      if decide (length B = k)
      then Some (TMat m ((fun r => (fun j => dotv r (col j B)) <$> seq 0 m) <$> A))
      else None
  | TVec u, TMat m B =>
      if decide (length B = length u)
      then Some (TVec ((fun j => dotv u (col j B)) <$> seq 0 m)) else None
  | TMat k A, TVec v =>
      if decide (length v = k) then Some (TVec ((fun r => dotv r v) <$> A)) else None
  | TVec u, TVec v =>
      if decide (length u = length v) then Some (TScal (dotv u v)) else None
  | _, _ => tzip Rmult a b
  end.

Definition sigmoid (x : R) : R := 1 / (1 + exp (- x)).
Definition softplus (x : R) : R := ln (1 + exp x).

Definition softmax_row (v : list R) : list R :=
  (fun x => exp x / Rsum (exp <$> v)) <$> v.

(** Position of the first greatest entry. *)
Fixpoint argmax_from (best : R) (at_ i : Z) (l : list R) : Z :=
  match l with
  | [] => at_
  | x :: rest =>
      if Rlt_dec best x then argmax_from x i (i + 1)%Z rest
      else argmax_from best at_ (i + 1)%Z rest
  end.

Definition argmax (l : list R) : option Z :=
  match l with
  | [] => None
  | x :: rest => Some (argmax_from x 0%Z 1%Z rest)
  end.

Definition un_real (o : unop) (t : tensor) : option tensor :=
  match o with
  | Sigmoid => Some (tmap sigmoid t)
  | Exp => Some (tmap exp t)
  | Log => Some (tmap ln t)
  | Tanh => Some (tmap tanh t)
  | Softplus => Some (tmap softplus t)
  | Neg => match t with
           | TInt z => Some (TInt (- z))
           | _ => Some (tmap Ropp t)
           end
  | Sqr => match t with
           | TInt z => Some (TInt (z * z))
           | _ => Some (tmap (fun x => x * x) t)
           end
  | CastFloatX => Some (float t)
  | Softmax =>
      match float t with
      | TMat c m => Some (TMat c (softmax_row <$> m))
      | TVec v => Some (TMat (length v) [softmax_row v])
      | _ => None
      end
  | Transpose =>
      match t with
      | TMat c m => Some (TMat (length m) ((fun j => col j m) <$> seq 0 c))
      | _ => Some t
      end
  | Sum0 =>
      match float t with
      | TMat c m => Some (TVec ((fun j => Rsum (col j m)) <$> seq 0 c))
      | TVec v => Some (TScal (Rsum v))
      | _ => None
      end
  | Mean0 =>
      match float t with
      | TMat c m => Some (TVec ((fun j => Rsum (col j m) / INR (length m)) <$> seq 0 c))
      | TVec v => Some (TScal (Rsum v / INR (length v)))
      | _ => None
      end
  | Sum1 =>
      match float t with
      | TMat c m => Some (TVec (Rsum <$> m))
      | _ => None
      end
  | SumAll =>
      match float t with
      | TMat c m => Some (TScal (Rsum (concat m)))
      | TVec v => Some (TScal (Rsum v))
      | t' => Some t'
      end
  | Mean =>
      match float t with
      | TMat c m => Some (TScal (Rsum (concat m) / INR (length (concat m))))
      | TVec v => Some (TScal (Rsum v / INR (length v)))
      | t' => Some t'
      end
  | Max0 =>
      match float t with
      | TMat c (r :: m) => Some (TVec ((fun j => foldr Rmax (nth j r 0) (col j m)) <$> seq 0 c))
      | TVec (x :: v) => Some (TScal (foldr Rmax x v))
      | _ => None
      end
  | Argmax =>
      match float t with
      | TMat c m => TInt <$> argmax (concat m)
      | TVec v => TInt <$> argmax v
      | _ => Some (TInt 0)
      end
  | Argmax1 =>
      match float t with
      | TMat c m => TInts <$> mapM argmax m
      | _ => None
      end
  | Shape0 =>
      match t with
      | TMat c m => Some (TInt (Z.of_nat (length m)))
      | TVec v => Some (TInt (Z.of_nat (length v)))
      | TInts l => Some (TInt (Z.of_nat (length l)))
      | _ => None
      end
  | Shape1 =>
      match t with
      | TMat c m => Some (TInt (Z.of_nat c))
      | _ => None
      end
  | PadLeft =>
      match float t with
      | TVec v => Some (TMat (length v) [v])
      | _ => None
      end
  | Tail =>
      match t with
      | TMat c m => Some (TMat c (drop 1 m))
      | TVec v => Some (TVec (drop 1 v))
      | TInts l => Some (TInts (drop 1 l))
      | _ => None
      end
  end.

Definition int_real (o : binop) (a b : Z) : option tensor :=
  match o with
  | Add => Some (TInt (a + b))
  | Sub => Some (TInt (a - b))
  | Mul | Dot => Some (TInt (a * b))
  | Maximum => Some (TInt (Z.max a b))
  | Minimum => Some (TInt (Z.min a b))
  | Mod => if decide (b = 0%Z) then None else Some (TInt (a mod b))
  | Div => Some (TScal (IZR a / IZR b))
  | _ => None
  end.

(** Column number of a (possibly negative) index into [c] columns. *)
Definition column_index (c : nat) (i : Z) : option nat :=
  if decide (0 <= i < Z.of_nat c)%Z then Some (Z.to_nat i)
  else if decide (- Z.of_nat c <= i < 0)%Z then Some (Z.to_nat (i + Z.of_nat c))
  else None.

(** [binary_crossentropy(output, target)] *)
Definition crossentropy (o t : R) : R := - (t * ln o + (1 - t) * ln (1 - o)).

Definition bin_real (o : binop) (a b : tensor) : option tensor :=
  match o with
  | Column =>
      match a, b with
      | TMat c m, TInt i => j ← column_index c i; Some (TVec (col j m))
      | _, _ => None
      end
  | Concat =>
      match float a, float b with
      | TMat c m, TMat c' m' => if decide (c = c') then Some (TMat c (m ++ m')) else None
      | TVec u, TVec v => Some (TVec (u ++ v))
      | _, _ => None
      end
  | PickLabels =>
      match a, b with
      | TMat c m, TInts y =>
          if decide (length y <= length m)%nat
          then TVec <$> mapM (fun ry : list R * Z => j ← column_index c ry.2; ry.1 !! j) (zip m y)
          else None
      | _, _ => None
      end
  | Dot =>
      match a, b with
      | TInt x, TInt y => int_real o x y
      | _, _ => dot a b
      end
  | Mod =>
      match a, b with
      | TInt x, TInt y => int_real o x y
      | _, _ => None
      end
  | CrossEntropy => tzip crossentropy a b
  | Add | Sub | Mul | Div | Maximum | Minimum =>
      match a, b with
      | TInt x, TInt y => int_real o x y
      | _, _ =>
          tzip match o with
               | Add => Rplus
               | Sub => Rminus
               | Mul => Rmult
               | Div => Rdiv
               | Maximum => Rmax
               | _ => Rmin
               end a b
      end
  end.

Definition set_column_real (v i x : tensor) : option tensor :=
  match v, i with
  | TMat c m, TInt i =>
      j ← column_index c i;
      match float x with
      | TScal s => Some (TMat c ((fun r => <[j := s]> r) <$> m))
      | TVec xs =>
          if decide (length xs = length m)
          then Some (TMat c (zip_with (fun r s => <[j := s]> r) m xs)) else None
      | _ => None
      end
  | _, _ => None
  end.

Definition unstack_real (t : tensor) : option (list tensor) :=
  match float t with
  | TMat c m => Some (TVec <$> m)
  | TVec v => Some (TScal <$> v)
  | _ => None
  end.

Definition stack_real (l : list tensor) : option tensor :=
  match l with
  | [] => Some (TVec [])
  | TVec v :: _ =>
      rows ← mapM (fun t => match t with
                            | TVec u => if decide (length u = length v) then Some u else None
                            | _ => None
                            end) l;
      Some (TMat (length v) rows)
  | _ =>
      TVec <$> mapM (fun t => match t with TScal x => Some x | _ => None end) l
  end.

Definition zeros (dims : list nat) : tensor :=
  match dims with
  | [n] => TVec (replicate n 0)
  | [n; m] => TMat m (replicate n (replicate m 0))
  | _ => TScal 0
  end.

Definition shape (t : tensor) : list nat :=
  match t with
  | TInt _ | TScal _ => []
  | TInts l => [length l]
  | TVec v => [length v]
  | TMat c m => [length m; c]
  end.

Definition take_rows (t : tensor) (rows : list nat) : option tensor :=
  match t with
  | TMat c m => TMat c <$> mapM (fun i => m !! i) rows
  | TVec v => TVec <$> mapM (fun i => v !! i) rows
  | TInts l => TInts <$> mapM (fun i => l !! i) rows
  | _ => None
  end.

End Ops.

#[export] Instance backend (O : oracle) : Backend tensor := {|
  np_rng := rng O;
  of_int := TInt;
  of_float := fun q => TScal (Q2R q);
  of_vector := fun v => TVec (Q2R <$> v);
  un_op := un_real;
  bin_op := bin_real;
  set_column := set_column_real;
  draw := o_draw O;
  grad_value := o_grad O;
  unstack := unstack_real;
  stack := stack_real;
  np_zeros := zeros;
  np_shape := shape;
  np_take := take_rows;
  np_randint := o_randint O;
  np_normal := o_normal O;
  np_glorot := o_glorot O;
  np_uniform := o_uniform O;
  np_shuffle := o_shuffle O |}.

End Arrays.

(** * Vocabulary of the statements *)

(** ** Negative chains *)

(** One step of a chain, from the first unused stream and the hiddens to the
    visibles, the new hiddens and the next unused stream. *)
Definition chain_step : Type := nat -> Expr -> Expr * Expr * nat.

(** A Gibbs step: the visibles are drawn given the hiddens, then the hiddens
    are drawn given those visibles. *)
Definition gibbs_step (kind_v : rkind) (mean_v mean_h : Expr -> Expr) : chain_step :=
  fun s h =>
    let v := Random kind_v s (mean_v h) in
    (v, Random Binomial (S s) (mean_h v), S (S s)).

(** A step that sets the visibles to their mean and draws only the hiddens. *)
Definition mean_field_step (mean_v mean_h : Expr -> Expr) : chain_step :=
  fun s h =>
    let v := mean_v h in
    (v, Random Binomial s (mean_h v), S s).

Definition advance_chain (st : chain_step) (hs : Expr * nat) : Expr * nat :=
  ((st hs.2 hs.1).1.2, (st hs.2 hs.1).2).

(** Hiddens and next stream after [k] steps started from [h0]. *)
Definition after_steps (st : chain_step) (k : nat) (s0 : nat) (h0 : Expr) : Expr * nat :=
  Nat.iter k (advance_chain st) (h0, s0).

(** Visibles produced by step number [k], for [k >= 1]. *)
Definition visibles_of_step (st : chain_step) (k : nat) (s0 : nat) (h0 : Expr) : Expr :=
  let hs := after_steps st (k - 1) s0 h0 in (st hs.2 hs.1).1.1.

(** The update [p - epsilon * T.grad(cost, p, consider_constant=cc)]. *)
Definition gradient_step (epsilon : Q) (cost : Expr) (cc : list Expr) (p : nat) : Expr :=
  Bin Sub (Shared p) (Bin Mul (ConstF epsilon) (Grad cost p cc)).

(** The cost [mean(free_energy(v_pos)) - mean(free_energy(v_neg))]. *)
Definition free_energy_gap (F : Expr -> Expr) (v_pos v_neg : Expr) : Expr :=
  Bin Sub (Un Mean (F v_pos)) (Un Mean (F v_neg)).

(** The shared variables of an instance are distinct and already made. *)
Definition rbm_wf {D} `{B : Backend D} (self : rbm) (w : world D) : Prop :=
  NoDup [_W self; _b self; _c self; h_samples self] /\
  Forall (fun i => (i < next_id w)%nat) [_W self; _b self; _c self; h_samples self].

(** ** Closed forms of the RBM graphs *)

Module BinaryGraph.

Definition p_h (self : rbm) (v : Expr) : Expr :=
  Un Sigmoid (Bin Add (Bin Dot v (Shared (_W self))) (Shared (_c self))).

Definition p_v (self : rbm) (h : Expr) : Expr :=
  Un Sigmoid (Bin Add (Bin Dot h (Un Transpose (Shared (_W self)))) (Shared (_b self))).

Definition F (self : rbm) (v : Expr) : Expr :=
  Bin Sub (Un Neg (Bin Dot v (Shared (_b self))))
    (Un Sum1 (Un Log (Bin Add (ConstF 1)
       (Un Exp (Bin Add (Bin Dot v (Shared (_W self))) (Shared (_c self))))))).

Definition step (self : rbm) : chain_step := gibbs_step Binomial (p_v self) (p_h self).

(** The pseudo-likelihood with the column named by [bit_i] flipped. *)
Definition pseudo_likelihood (self : rbm) (v_pos : Expr) (bit_i : nat) : Expr :=
  Un Mean (Bin Mul (Un Shape1 v_pos) (Un Log (Un Sigmoid (Bin Sub
    (F self (SetColumn v_pos (Shared bit_i) (Bin Sub (ConstI 1) (Bin Column v_pos (Shared bit_i)))))
    (F self v_pos))))).

Definition next_bit (v_pos : Expr) (bit_i : nat) : Expr :=
  Bin Mod (Bin Add (Shared bit_i) (ConstI 1)) (Un Shape1 v_pos).

Definition updates (self : rbm) (v_pos v_neg h_neg : Expr) (bit_i : nat) : gmap nat Expr :=
  let cost := free_energy_gap (F self) v_pos v_neg in
  <[bit_i := next_bit v_pos bit_i]>
    (<[h_samples self := h_neg]>
       (<[_c self := gradient_step (epsilon self) cost [v_neg] (_c self)]>
          (<[_b self := gradient_step (epsilon self) cost [v_neg] (_b self)]>
             (<[_W self := gradient_step (epsilon self) cost [v_neg] (_W self)]> ∅)))).

End BinaryGraph.

Module GaussianGraph.

Definition p_h (self : rbm) (v : Expr) : Expr :=
  Un Sigmoid (Bin Add (Bin Dot v (Shared (_W self))) (Shared (_c self))).

Definition m_v (self : rbm) (h : Expr) : Expr :=
  Bin Add (Bin Dot h (Un Transpose (Shared (_W self)))) (Shared (_b self)).

Definition F (self : rbm) (v : Expr) : Expr :=
  Bin Sub (Un Neg (Un Sum1 (Un Sqr (Bin Sub v (Shared (_b self))))))
    (Un Sum1 (Un Log (Bin Add (ConstF 1)
       (Un Exp (Bin Add (Bin Dot v (Shared (_W self))) (Shared (_c self))))))).

(** The step [_fit] takes. *)
Definition step (self : rbm) : chain_step := mean_field_step (m_v self) (p_h self).

(** The Gibbs step of the model: visibles drawn as [sample_v] draws them,
    hiddens as [sample_h] does. *)
Definition sampled_step (self : rbm) : chain_step := gibbs_step Normal (m_v self) (p_h self).

Definition reconstruction_error (self : rbm) (v_pos : Expr) : Expr :=
  Un Mean (Un Sum1 (Un Sqr (Bin Sub v_pos (m_v self (p_h self v_pos))))).

Definition updates (self : rbm) (v_pos v_neg h_neg : Expr) : gmap nat Expr :=
  let cost := free_energy_gap (F self) v_pos v_neg in
  <[h_samples self := h_neg]>
    (<[_c self := gradient_step (epsilon self) cost [v_neg] (_c self)]>
       (<[_b self := gradient_step (epsilon self) cost [v_neg] (_b self)]>
          (<[_W self := gradient_step (epsilon self) cost [v_neg] (_W self)]> ∅))).

End GaussianGraph.

(** ** Calls and the decorator's cache *)

Section CallVocabulary.
Context {D : Type} `{B : Backend D}.

(** The environment a call binds its arguments in. *)
Definition call_env (f : compiled) (args : list D) : gmap string D :=
  list_to_map (zip (fn_inputs f) args).

(** The parts of the state no call of a compiled function touches. *)
Definition same_interpreter (w w' : world D) : Prop :=
  next_id w' = next_id w /\ np w' = np w /\ attrs w' = attrs w /\
  compilations w' = compilations w /\ files w' = files w.

(** The function the decorator compiles from the result of a method. *)
Definition compiled_from (names : list string) (r : res) : compiled :=
  match r with
  | RTuple o u => Compiled names o u
  | RExpr o => Compiled names o ∅
  end.

(** A concrete invocation that goes through the function [f]. *)
Definition through (f : compiled) (args : list (value D)) : M D (wres D) :=
  do d <~ match concrete args with
          | Some ds => call_function f ds
          | None => raise TypeError
          end ;;
  ret (WConc d).

(** The state right after the decorator has compiled and stored [f]. *)
Definition stored (self : nat) (name : string) (f : compiled) (w : world D) : world D :=
  with_attrs (<[(self, "__" ++ name) := AFunction f]> (attrs w))
    (with_compilations (S (compilations w)) w).

(** A run of concrete invocations of one wrapped method, whatever each of
    them returns or raises. *)
Fixpoint invocations (m : list (value D) -> M D (wres D)) (calls : list (list (value D)))
    (w : world D) : world D :=
  match calls with
  | [] => w
  | args :: rest => invocations m rest (m args w).2
  end.

Definition all_concrete (calls : list (list (value D))) : Prop :=
  Forall (fun args => exists a rest, args = Conc a :: rest) calls.

End CallVocabulary.

(** ** The wrapped methods of the two RBM classes *)

Section Wrapped.
Context {D : Type} `{B : Backend D}.

(** A use of the decorator: [@symbolic(inputs)] on [def name(self, ...)]. *)
Record wrapped := Wrapped {
  wm_name : string;
  wm_inputs : list Expr;
  wm_method : rbm -> list (value D) -> M D res }.



Definition BinaryRBM_fit : wrapped := Wrapped "_fit" [Input "v_pos"] BinaryRBM._fit_.


Definition GaussianRBM_fit : wrapped := Wrapped "_fit" [Input "v_pos"] GaussianRBM._fit_.




End Wrapped.

(** ** The negative phase of a training step *)

Section NegativePhase.
Context {D : Type} `{B : Backend D}.

(** [_fit], called on [v_pos] in state [w], takes as negative sample the
    visibles of step number K of the chain [st] started from [h_samples]:
    that expression is what the gradient is taken at and held constant, and
    the hiddens of the same step become the new [h_samples]. *)
Definition negative_phase_is (fit_ : rbm -> list (value D) -> M D res)
    (F : rbm -> Expr -> Expr) (st : rbm -> chain_step)
    (self : rbm) (v_pos : Expr) (w : world D) : Prop :=
  let v_neg := visibles_of_step (st self) (K self) (next_id w) (Shared (h_samples self)) in
  let h_neg := (after_steps (st self) (K self) (next_id w) (Shared (h_samples self))).1 in
  exists loss updates w',
    fit_ self [Sym v_pos] w = (Ok (RTuple loss updates), w') /\
    updates !! h_samples self = Some h_neg /\
    forall p, p ∈ [_W self; _b self; _c self] ->
      updates !! p
      = Some (gradient_step (epsilon self) (free_energy_gap (F self) v_pos v_neg) [v_neg] p).

End NegativePhase.

(** ** Concrete instances used as examples *)

Module Example.
Import Shapes.

(** The interpreter before anything has been created. *)
Definition w0 : world shp := World 0 ∅ ∅ tt ∅ 0 ∅.

(** An RBM as [__init__(n_hiddens=3, K=2, epsilon=0.1, n_samples=4,
    epochs=2)] makes it in [w0], and the state after the constructor. *)
Definition rbm0 : rbm := Rbm 0 3 1 2 3 2 (1 # 10) 4 2 4.
Definition w_rbm0 : world shp :=
  World 5
    (<[4%nat := SArr [1; 0]%nat]> (<[3%nat := SArr [0%nat]]>
       (<[2%nat := SArr [0%nat]]> (<[1%nat := SArr [1; 0]%nat]> ∅))))
    ∅ tt
    (foldr (fun m a => <[(0%nat, m) := AMember]> a) ∅ rbm_attributes)
    0 ∅.

(** The same with K = 1. *)
Definition rbm1 : rbm := Rbm 0 3 1 2 3 1 (1 # 10) 4 2 4.

End Example.

(** ** The parameter updates of a training step *)

(** Every parameter is updated by [step]. *)
Definition gradient_updates (updates : gmap nat Expr) (params : list nat)
    (step : nat -> Expr) : Prop :=
  forall p, p ∈ params -> updates !! p = Some (step p).

(** Besides the parameters the step replaces a state variable, the
    fantasy particles, by [h_neg]. *)
Definition replaces_chain_state (updates : gmap nat Expr) (params : list nat)
    (h : nat) (h_neg : Expr) : Prop :=
  (h ∉ params) /\ updates !! h = Some h_neg.

(** The gradient step of [SetRBM.__train]. *)
Definition set_gradient_step (learning_rate : nat) (cost : Expr) (cc : list Expr) (p : nat)
    : Expr :=
  Bin Sub (Shared p) (Bin Mul (Grad cost p cc) (Un CastFloatX (Shared learning_rate))).

Definition set_cost (self : SetRBM.t) (nx ny : Expr) : Expr :=
  Bin Sub (Un Mean (SetRBM._free_energy self (SetRBM.x self) (SetRBM.y self)))
          (Un Mean (SetRBM._free_energy self nx ny)).

Module ExampleSet.
Import Shapes.

(** [SetRBM(5, 4, 3)] with K = 1, as its constructor lays it out in the
    empty interpreter. *)
Definition set0 : SetRBM.t :=
  SetRBM.Make 5 4 3 (Input "x") (Input "y") 0 1 2 3 4 5 1.
Definition w_set0 : world shp :=
  World 6
    (<[5%nat := SArr []]> (<[4%nat := SArr [3%nat]]> (<[3%nat := SArr [5%nat]]>
       (<[2%nat := SArr [4%nat]]> (<[1%nat := SArr [3; 4]%nat]>
          (<[0%nat := SArr [5; 4]%nat]> ∅))))))
    ∅ tt ∅ 0 ∅.

End ExampleSet.

(** ** Perturbed input dimensions *)

(** The index expressions of the columns that a graph overwrites with
    [set_subtensor]. *)
Fixpoint perturbed_columns (e : Expr) : list Expr :=
  match e with
  | Input _ | Shared _ | ConstI _ | ConstF _ | ConstV _ => []
  | Un _ a => perturbed_columns a
  | Bin _ a b => perturbed_columns a ++ perturbed_columns b
  | SetColumn v i x => i :: perturbed_columns v ++ perturbed_columns i ++ perturbed_columns x
  | Random _ _ p => perturbed_columns p
  | Grad c _ _ => perturbed_columns c
  | Scan _ h_t y_t xs h0 =>
      perturbed_columns h_t ++ perturbed_columns y_t ++ perturbed_columns xs
      ++ perturbed_columns h0
  end.

(** A diagnostic perturbs an input dimension chosen at random: it overwrites
    a column whose index comes out of a random stream. *)
Definition perturbs_random_dimension (loss : Expr) : Prop :=
  exists i, i ∈ perturbed_columns loss /\ streams_of i <> [].

(** ** Shapes of the variables of an RBM *)

Module ShapeVocabulary.
Import Shapes.

(** The four shared variables of an instance have the shapes that go with
    [n_in] visibles, [n_hid] hiddens and [n] fantasy particles. *)
Definition shapes_ok (self : rbm) (n_in n_hid n : nat) (w : world shp) : Prop :=
  shared w !! _W self = Some (SArr [n_in; n_hid]) /\
  shared w !! _b self = Some (SArr [n_in]) /\
  shared w !! _c self = Some (SArr [n_hid]) /\
  shared w !! h_samples self = Some (SArr [n; n_hid]).

Definition variables (self : rbm) : list nat :=
  [_W self; _b self; _c self; h_samples self].

(** A compiled function that, whenever it runs to the end, leaves the four
    variables with the shapes they had. *)
Definition shape_preserving (self : rbm) (f : compiled) : Prop :=
  forall n_in n_hid n args u v u',
    shapes_ok self n_in n_hid n u ->
    call_function f args u = (Ok v, u') ->
    shapes_ok self n_in n_hid n u'.


(** The cache slot of [_fit] is free or holds a shape-preserving function. *)
Definition fit_slot_ok (self : rbm) (w : world shp) : Prop :=
  match attrs w !! (obj self, "__" ++ "_fit") with
  | Some (AFunction f) => shape_preserving self f
  | _ => True
  end.

(** The invariant kept from the first [fit] on. *)
Definition trained (self : rbm) (n_in n_hid n : nat) (w : world shp) : Prop :=
  Forall (fun i => (i < next_id w)%nat) (variables self) /\
  shapes_ok self n_in n_hid n w /\
  fit_slot_ok self w.


End ShapeVocabulary.

(** ** Graphs without randomness *)

(** No random stream is drawn from and no gradient is taken. *)
Fixpoint deterministic (e : Expr) : bool :=
  match e with
  | Input _ | Shared _ | ConstI _ | ConstF _ | ConstV _ => true
  | Un _ a => deterministic a
  | Bin _ a b => deterministic a && deterministic b
  | SetColumn v i x => deterministic v && deterministic i && deterministic x
  | Random _ _ _ => false
  | Grad _ _ _ => false
  | Scan _ h_t y_t xs h0 =>
      deterministic h_t && deterministic y_t && deterministic xs && deterministic h0
  end.

(** The shared variables a graph reads. *)
Fixpoint shared_vars (e : Expr) : list nat :=
  match e with
  | Input _ | ConstI _ | ConstF _ | ConstV _ => []
  | Shared i => [i]
  | Un _ a => shared_vars a
  | Bin _ a b => shared_vars a ++ shared_vars b
  | SetColumn v i x => shared_vars v ++ shared_vars i ++ shared_vars x
  | Random _ _ p => shared_vars p
  | Grad c wrt _ => wrt :: shared_vars c
  | Scan _ h_t y_t xs h0 =>
      shared_vars h_t ++ shared_vars y_t ++ shared_vars xs ++ shared_vars h0
  end.

(** ** The two stacks of an MLP *)

Module MLPVocabulary.

(** The activation a layer type applies; a rectifier may carry a sign mask. *)
Definition activation_of (layer_type : string) (mask : option (list Q)) (z : Expr) : Expr :=
  if decide (layer_type = "L") then Un Sigmoid z
  else if decide (layer_type = "R") then
    match mask with
    | Some m => Bin Mul (ConstV m) (Bin Maximum z (ConstI 0))
    | None => Bin Maximum z (ConstI 0)
    end
  else if decide (layer_type = "S") then Un Softmax z
  else if decide (layer_type = "Sp") then Un Softplus z
  else if decide (layer_type = "T") then Un Tanh z
  else if decide (layer_type = "Li") then z
  else Un Sqr z.

(** A layer of the given type over its own input and parameters. *)
Definition layer_of (layer_type : string) (l : NeuralNetworkLayer.t) : Prop :=
  NeuralNetworkLayer.linear_output l
  = Bin Dot (NeuralNetworkLayer.input l) (Shared (NeuralNetworkLayer.W l)) /\
  exists mask,
    NeuralNetworkLayer.output l
    = activation_of layer_type mask
        (Bin Add (NeuralNetworkLayer.linear_output l) (Shared (NeuralNetworkLayer.b l))).

(** The output of the layer below layer [i], or the network input. *)
Definition below (x : Expr) (stack : list NeuralNetworkLayer.t) (i : nat) : Expr :=
  match i with
  | O => x
  | S j => from_option NeuralNetworkLayer.output x (stack !! j)
  end.

(** Input of layer [i] of the clean stack: max-pooling over the set
    dimension in front of the last layer, nothing else. *)
Definition clean_input (x : Expr) (n_layers : nat) (stack : list NeuralNetworkLayer.t)
    (i : nat) : Expr :=
  if decide (i = n_layers - 1)%nat then Un Max0 (below x stack i) else below x stack i.

(** Input of layer [i] of the noisy stack: in front of the last layer the
    pooled input is multiplied by a Bernoulli draw and divided by the
    dropout rate. *)
Definition noisy_input (x : Expr) (n_layers : nat) (hidden_dropout : Q)
    (stack : list NeuralNetworkLayer.t) (i : nat) (l : NeuralNetworkLayer.t) : Prop :=
  if decide (i = n_layers - 1)%nat then
    exists s, NeuralNetworkLayer.input l
              = Bin Div (Bin Mul (Un Max0 (below x stack i))
                           (Random Binomial s (ConstF hidden_dropout)))
                        (ConstF hidden_dropout)
  else NeuralNetworkLayer.input l = below x stack i.

(** The parameters of a stack. *)
Definition params (stack : list NeuralNetworkLayer.t) : list nat :=
  (NeuralNetworkLayer.W <$> stack) ++ (NeuralNetworkLayer.b <$> stack).

(** What holds of layer [j] of the clean stack. *)
Definition clean_layer_ok (x : Expr) (layers : list (string * nat))
    (noisy clean : list NeuralNetworkLayer.t) (j : nat) (l : NeuralNetworkLayer.t) : Prop :=
  (exists nl, noisy !! j = Some nl /\
              NeuralNetworkLayer.W l = NeuralNetworkLayer.W nl /\
              NeuralNetworkLayer.b l = NeuralNetworkLayer.b nl) /\
  (exists spec, layers !! j = Some spec /\
                NeuralNetworkLayer.n_out l = spec.2 /\ layer_of spec.1 l) /\
  NeuralNetworkLayer.input l = clean_input x (length layers) clean j.

Definition clean_stack_ok (x : Expr) (layers : list (string * nat))
    (noisy clean : list NeuralNetworkLayer.t) : Prop :=
  forall j l, clean !! j = Some l -> clean_layer_ok x layers noisy clean j l.

(** What holds of layer [j] of the noisy stack. *)
Definition noisy_layer_ok (x : Expr) (layers : list (string * nat)) (hidden_dropout : Q)
    (noisy : list NeuralNetworkLayer.t) (j : nat) (l : NeuralNetworkLayer.t) : Prop :=
  (exists spec, layers !! j = Some spec /\
                NeuralNetworkLayer.n_out l = spec.2 /\ layer_of spec.1 l) /\
  noisy_input x (length layers) hidden_dropout noisy j l.

Definition noisy_stack_ok (x : Expr) (layers : list (string * nat)) (hidden_dropout : Q)
    (noisy : list NeuralNetworkLayer.t) : Prop :=
  forall j l, noisy !! j = Some l -> noisy_layer_ok x layers hidden_dropout noisy j l.

End MLPVocabulary.

Module ExampleMLP.
Import Shapes Example.

(** [MLP(5, [('R', 4), ('T', 3), ('S', 2)])] built in the empty interpreter. *)
Definition built : result MLP.t * world shp :=
  MLP.__init__ 5 [("R", 4%nat); ("T", 3%nat); ("S", 2%nat)] (1 # 2) None (1 # 100) None w0.

End ExampleMLP.

(** ** RNN *)

Module RNNVocabulary.

(** The sequence of outputs of the network on [x]. *)
Definition outputs (m : RNN.t) : Expr :=
  let '(h_t, y_t) := RNN.step (Input "x_t") (Input "h_tm1") (Shared (RNN.W m))
                       (Shared (RNN.U m)) (Shared (RNN.V m)) (Shared (RNN.b m))
                       (Shared (RNN.c m)) in
  Scan 1 h_t y_t (RNN.x m) (Shared (RNN.h0 m)).

(** The cross-entropy of the outputs, summed over units, averaged over time. *)
Definition cost (m : RNN.t) : Expr :=
  Un Neg (Un Mean (Un Sum1
    (Bin Add (Bin Mul (RNN.y m) (Un Log (outputs m)))
             (Bin Mul (Bin Sub (ConstF 1) (RNN.y m))
                      (Un Log (Bin Sub (ConstF 1) (outputs m))))))).




Import Arrays.
Open Scope R_scope.




End RNNVocabulary.

Module ExampleRNN.
Import Arrays.
Open Scope R_scope.

(** An engine whose gradients are 100 at every entry of the parameter and
    whose numpy.random returns zeros. *)
Definition engine : oracle :=
  Oracle unit
    (fun _ _ _ _ => None)
    (fun _ _ _ _ _ _ _ p => Some (tmap (fun _ => 100) p))
    (fun g => g)
    (fun n m g => (zeros [n; m], g))
    (fun n m g => (zeros [n; m], g))
    (fun low _ n g => (replicate n low, g))
    (fun l g => (l, g)).

Definition w0 : world (B := backend engine) tensor :=
  World (B := backend engine) 0 ∅ ∅ tt ∅ 0 ∅.

(** [RNN(1, 1, 1, 0.1)] *)
Definition built : result RNN.t * world (B := backend engine) tensor :=
  RNN.__init__ 1 1 1 (1 # 10) w0.

(** A sequence of length one and its target. *)
Definition xs : tensor := TMat 1 [[1]].
Definition ys : tensor := TMat 1 [[1]].

End ExampleRNN.

(** ** Renaming the shared variables of a graph *)

(** The graph [e] with every shared variable [q] replaced by [s q]. *)
Fixpoint rename (s : nat -> nat) (e : Expr) : Expr :=
  match e with
  | Input x => Input x
  | Shared q => Shared (s q)
  | ConstI z => ConstI z
  | ConstF q => ConstF q
  | ConstV v => ConstV v
  | Un o a => Un o (rename s a)
  | Bin o a b => Bin o (rename s a) (rename s b)
  | SetColumn v i x => SetColumn (rename s v) (rename s i) (rename s x)
  | Random k stream p => Random k stream (rename s p)
  | Grad cost wrt consider_constant =>
      Grad (rename s cost) (s wrt) (map (rename s) consider_constant)
  | Scan out h_t y_t xs h0 =>
      Scan out (rename s h_t) (rename s y_t) (rename s xs) (rename s h0)
  end.

Module ExampleSave.
Import Shapes Example.

Definition structure : list (string * nat) := [("R", 4%nat); ("T", 3%nat); ("S", 2%nat)].

(** Two models of the same structure, built one after the other. *)
Notation first := (MLP.__init__ 5 structure (1 # 2) None (1 # 100) None w0).
Notation second := (MLP.__init__ 5 structure (1 # 2) None (1 # 100) None first.2).

(** The parameter of the first model that a parameter of the second stands
    for. *)
Definition earlier (q : nat) : nat := (q - 8)%nat.

End ExampleSave.

(** ** A network with one masked rectifier unit *)

Module MaskVocabulary.

(** The inference graph of [MLP(1, [('R', 1), ('S', 2)])]. *)
Definition inference (mask : list Q) (W0 b0 W1 b1 : nat) : Expr :=
  Un Argmax1 (Un Softmax (Bin Add (Bin Dot
    (Un Max0 (Bin Mul (ConstV mask)
       (Bin Maximum (Bin Add (Bin Dot (Input "x") (Shared W0)) (Shared b0)) (ConstI 0))))
    (Shared W1)) (Shared b1))).

End MaskVocabulary.

Module ExampleMasks.
Import Arrays.
Open Scope R_scope.

(** numpy.random: weight matrices with rows [1, -1, ...]; the uniform draws
    are 3/4 the first two times and -3/4 afterwards. *)
Definition tape : oracle :=
  Oracle nat
    (fun _ _ _ _ => None)
    (fun _ _ _ _ _ _ _ _ => None)
    (fun g => g)
    (fun n m g => (zeros [n; m], g))
    (fun n m g => (TMat m (replicate n (take m [1; -1])), g))
    (fun _ _ n g => (replicate n (if decide (g < 2)%nat then (3 # 4)%Q else (- (3 # 4))%Q), S g))
    (fun l g => (l, g)).

Definition start : world (B := backend tape) tensor :=
  World (B := backend tape) 0 ∅ ∅ 0%nat ∅ 0 ∅.

Definition structure : list (string * nat) := [("R", 1%nat); ("S", 2%nat)].

Notation first :=
  (MLP.__init__ (B := backend tape) 1 structure (1 # 2) None (1 # 100) None start).
Notation second :=
  (MLP.__init__ (B := backend tape) 1 structure (1 # 2) None (1 # 100) None first.2).

Definition x : tensor := TMat 1 [[1]].

End ExampleMasks.

(** ** The minibatches of [fit] *)

(** The row numbers of minibatch [j]: j, j + n, j + 2n, ... below [N]. *)
Definition stride (N n j : nat) : list nat :=
  omap (fun i => if decide (j + i * n < N)%nat then Some (j + i * n)%nat else None)
       (seq 0 N).

(** ** Layer types and file names *)

(** The layer types [type_map] has an entry for. *)
Definition known_type (layer_type : string) : Prop :=
  layer_type ∈ ["L"; "R"; "S"; "Sp"; "T"; "Li"; "Sq"].

(** The files [SetRBM.save(tag)] writes, for W, U, b, c, d in this order. *)
Definition SetRBM_files (tag : option string) : list string :=
  (fun p => "rbm_" +:+ p +:+ match tag with None => "" | Some t => "_" +:+ t end +:+ ".npy")
  <$> ["W"; "U"; "b"; "c"; "d"].

(** * Properties *)

(** ** The monad *)

Section MonadFacts.
Context {D : Type} `{B : Backend D}.

Lemma bind_Ok {A C} (m : M D A) (k : A -> M D C) w a w' :
  m w = (Ok a, w') -> bind m k w = k a w'.
Proof. intros H. unfold bind. by rewrite H. Qed.

Lemma bind_Raise {A C} (m : M D A) (k : A -> M D C) w e w' :
  m w = (Raise e, w') -> bind m k w = (Raise e, w').
Proof. intros H. unfold bind. by rewrite H. Qed.

Lemma bind_inv {A C} (m : M D A) (k : A -> M D C) w c w' :
  bind m k w = (Ok c, w') -> exists a w1, m w = (Ok a, w1) /\ k a w1 = (Ok c, w').
Proof.
  unfold bind. destruct (m w) as [[a|e] w1]; [eauto | discriminate].
Qed.

(** A wrapped method called with a Theano variable runs the method. *)
Lemma symbolic_Sym {T} (oid : T -> nat) inputs name method (self : T) e rest :
  symbolic oid inputs name method self (Sym e :: rest)
  = do r <~ method self (Sym e :: rest) ;; ret (WSym r).
Proof. reflexivity. Qed.

Lemma symbolically_unary {T} (oid : T -> nat) inputs name
    (body : T -> Expr -> M D res) (self : T) v e w w' :
  body self v w = (Ok (RExpr e), w') ->
  symbolically (symbolic oid inputs name (fun s => unary (body s)) self) [v] w = (Ok e, w').
Proof.
  intros H. unfold symbolically. cbn [fmap list_fmap].
  rewrite symbolic_Sym. unfold bind, unary. by rewrite H.
Qed.

End MonadFacts.

(** ** Symbolic calls of the RBM methods *)

Module BinaryCalls.
Import BinaryGraph.

Section Calls.
Context {D : Type} `{B : Backend D}.

Lemma mean_h_Sym self v (w : world D) :
  symbolically (BinaryRBM.mean_h self) [v] w = (Ok (p_h self v), w).
Proof. by apply symbolically_unary. Qed.

Lemma mean_v_Sym self h (w : world D) :
  symbolically (BinaryRBM.mean_v self) [h] w = (Ok (p_v self h), w).
Proof. by apply symbolically_unary. Qed.

Lemma free_energy_Sym self v (w : world D) :
  symbolically (BinaryRBM.free_energy self) [v] w = (Ok (F self v), w).
Proof. by apply symbolically_unary. Qed.

Lemma sample_h_Sym self v (w : world D) :
  symbolically (BinaryRBM.sample_h self) [v] w
  = (Ok (Random Binomial (next_id w) (p_h self v)), with_next_id (S (next_id w)) w).
Proof.
  apply (symbolically_unary obj _ _ (fun self v =>
    do p <~ symbolically (BinaryRBM.mean_h self) [v] ;;
    do h <~ random_stream Binomial p ;; ret (RExpr h))).
  unfold bind. by rewrite mean_h_Sym.
Qed.

Lemma sample_v_Sym self h (w : world D) :
  symbolically (BinaryRBM.sample_v self) [h] w
  = (Ok (Random Binomial (next_id w) (p_v self h)), with_next_id (S (next_id w)) w).
Proof.
  apply (symbolically_unary obj _ _ (fun self h =>
    do p <~ symbolically (BinaryRBM.mean_v self) [h] ;;
    do v <~ random_stream Binomial p ;; ret (RExpr v))).
  unfold bind. by rewrite mean_v_Sym.
Qed.

End Calls.
End BinaryCalls.

(** ** Negative chains *)

Lemma after_steps_S st k s0 h0 :
  after_steps st (S k) s0 h0
  = after_steps st k (advance_chain st (h0, s0)).2 (advance_chain st (h0, s0)).1.
Proof.
  unfold after_steps. rewrite Nat.iter_succ_r. by destruct (advance_chain st (h0, s0)).
Qed.

Lemma visibles_of_step_SS st k s0 h0 :
  visibles_of_step st (S (S k)) s0 h0
  = visibles_of_step st (S k) (advance_chain st (h0, s0)).2 (advance_chain st (h0, s0)).1.
Proof.
  unfold visibles_of_step. cbn [Nat.sub]. rewrite Nat.sub_0_r. by rewrite after_steps_S.
Qed.

Lemma gibbs_streams kv mv mh k s0 h0 :
  (after_steps (gibbs_step kv mv mh) k s0 h0).2 = (s0 + 2 * k)%nat.
Proof.
  revert s0 h0. induction k as [|k IH]; intros s0 h0.
  - cbn. lia.
  - rewrite after_steps_S, IH. cbn. lia.
Qed.

Lemma mean_field_streams mv mh k s0 h0 :
  (after_steps (mean_field_step mv mh) k s0 h0).2 = (s0 + k)%nat.
Proof.
  revert s0 h0. induction k as [|k IH]; intros s0 h0.
  - cbn. lia.
  - rewrite after_steps_S, IH. cbn. lia.
Qed.

Section SgdUpdates.

Lemma sgd_updates_3 eps W b c gW gb gc :
  sgd_updates eps [W; b; c] [gW; gb; gc] ∅
  = <[c := Bin Sub (Shared c) (Bin Mul (ConstF eps) gc)]>
      (<[b := Bin Sub (Shared b) (Bin Mul (ConstF eps) gb)]>
         (<[W := Bin Sub (Shared W) (Bin Mul (ConstF eps) gW)]> ∅)).
Proof. reflexivity. Qed.

End SgdUpdates.


Module BinaryFit.
Import BinaryGraph BinaryCalls.

Section Facts.
Context {D : Type} `{B : Backend D}.

Lemma _fit_chain_spec self k acc h (w : world D) :
  BinaryRBM._fit_chain self k acc h w
  = (Ok (match k with
         | O => acc
         | S _ => Some (visibles_of_step (step self) k (next_id w) h)
         end,
         (after_steps (step self) k (next_id w) h).1),
     with_next_id (next_id w + 2 * k) w).
Proof.
  revert acc h w. induction k as [|k IH]; intros acc h w.
  - cbn. rewrite Nat.add_0_r. by destruct w.
  - cbn [BinaryRBM._fit_chain].
    erewrite bind_Ok by apply sample_v_Sym.
    erewrite bind_Ok by apply sample_h_Sym.
    rewrite IH, after_steps_S. cbn [next_id with_next_id].
    replace (with_next_id (S (S (next_id w)) + 2 * k)
               (with_next_id (S (S (next_id w))) (with_next_id (S (next_id w)) w)))
      with (with_next_id (next_id w + 2 * S k) w)
      by (unfold with_next_id; cbn; f_equal; lia).
    destruct k as [|k]; [done|]. by rewrite visibles_of_step_SS.
Qed.

(** What [_fit] builds when the loop runs at least once. *)
Lemma _fit_spec self v_pos (w : world D) :
  (1 <= K self)%nat ->
  let s := next_id w in
  let v_neg := visibles_of_step (step self) (K self) s (Shared (h_samples self)) in
  let h_neg := (after_steps (step self) (K self) s (Shared (h_samples self))).1 in
  let bit_i := (s + 2 * K self)%nat in
  BinaryRBM._fit_ self [Sym v_pos] w
  = (Ok (RTuple (pseudo_likelihood self v_pos bit_i) (updates self v_pos v_neg h_neg bit_i)),
     with_shared (<[bit_i := of_int 0]> (shared w)) (with_next_id (S bit_i) w)).
Proof.
  intros HK. cbn zeta. unfold BinaryRBM._fit_, unary.
  erewrite bind_Ok by apply _fit_chain_spec.
  destruct (K self) as [|k] eqn:EK; [lia|]. cbn match.
  erewrite bind_Ok by apply free_energy_Sym.
  erewrite bind_Ok by apply free_energy_Sym.
  unfold BinaryRBM._pseudo_likelihood.
  unfold bind at 1. unfold bind at 1. cbn [theano_shared].
  cbn -[after_steps visibles_of_step Nat.mul].
  reflexivity.
Qed.

End Facts.
End BinaryFit.

Module GaussianCalls.
Import GaussianGraph.

Section Calls.
Context {D : Type} `{B : Backend D}.

Lemma gaussian_mean_h_Sym self v (w : world D) :
  symbolically (GaussianRBM.mean_h self) [v] w = (Ok (p_h self v), w).
Proof. by apply symbolically_unary. Qed.

Lemma gaussian_mean_v_Sym self h (w : world D) :
  symbolically (GaussianRBM.mean_v self) [h] w = (Ok (m_v self h), w).
Proof. by apply symbolically_unary. Qed.

Lemma gaussian_free_energy_Sym self v (w : world D) :
  symbolically (GaussianRBM.free_energy self) [v] w = (Ok (F self v), w).
Proof. by apply symbolically_unary. Qed.

Lemma gaussian_sample_h_Sym self v (w : world D) :
  symbolically (GaussianRBM.sample_h self) [v] w
  = (Ok (Random Binomial (next_id w) (p_h self v)), with_next_id (S (next_id w)) w).
Proof.
  apply (symbolically_unary obj _ _ (fun self v =>
    do p <~ symbolically (GaussianRBM.mean_h self) [v] ;;
    do h <~ random_stream Binomial p ;; ret (RExpr h))).
  unfold bind. by rewrite gaussian_mean_h_Sym.
Qed.

Lemma gaussian_sample_v_Sym self h (w : world D) :
  symbolically (GaussianRBM.sample_v self) [h] w
  = (Ok (Random Normal (next_id w) (m_v self h)), with_next_id (S (next_id w)) w).
Proof.
  apply (symbolically_unary obj _ _ (fun self h =>
    do avg <~ symbolically (GaussianRBM.mean_v self) [h] ;;
    do v <~ random_stream Normal avg ;; ret (RExpr v))).
  unfold bind. by rewrite gaussian_mean_v_Sym.
Qed.

End Calls.
End GaussianCalls.

Module GaussianFit.
Import GaussianGraph GaussianCalls.

Section Facts.
Context {D : Type} `{B : Backend D}.

Lemma gaussian_fit_chain_spec self k acc h (w : world D) :
  GaussianRBM._fit_chain self k acc h w
  = (Ok (match k with
         | O => acc
         | S _ => Some (visibles_of_step (step self) k (next_id w) h)
         end,
         (after_steps (step self) k (next_id w) h).1),
     with_next_id (next_id w + k) w).
Proof.
  revert acc h w. induction k as [|k IH]; intros acc h w.
  - cbn. rewrite Nat.add_0_r. by destruct w.
  - cbn [GaussianRBM._fit_chain].
    erewrite bind_Ok by apply gaussian_mean_v_Sym.
    erewrite bind_Ok by apply gaussian_sample_h_Sym.
    rewrite IH, after_steps_S. cbn [next_id with_next_id].
    replace (with_next_id (S (next_id w) + k) (with_next_id (S (next_id w)) w))
      with (with_next_id (next_id w + S k) w)
      by (unfold with_next_id; cbn; f_equal; lia).
    destruct k as [|k]; [done|]. by rewrite visibles_of_step_SS.
Qed.

Lemma gaussian_fit_spec self v_pos (w : world D) :
  (1 <= K self)%nat ->
  let s := next_id w in
  let v_neg := visibles_of_step (step self) (K self) s (Shared (h_samples self)) in
  let h_neg := (after_steps (step self) (K self) s (Shared (h_samples self))).1 in
  GaussianRBM._fit_ self [Sym v_pos] w
  = (Ok (RTuple (reconstruction_error self v_pos) (updates self v_pos v_neg h_neg)),
     with_next_id (s + K self) w).
Proof.
  intros HK. cbn zeta. unfold GaussianRBM._fit_, unary.
  erewrite bind_Ok by apply gaussian_fit_chain_spec.
  destruct (K self) as [|k] eqn:EK; [lia|]. cbn match.
  erewrite bind_Ok by apply gaussian_free_energy_Sym.
  erewrite bind_Ok by apply gaussian_free_energy_Sym.
  reflexivity.
Qed.

End Facts.
End GaussianFit.

(** ** Calls of compiled functions *)

Section CallFacts.
Context {D : Type} `{B : Backend D}.

Lemma same_interpreter_refl w : same_interpreter w w.
Proof. by repeat split. Qed.

Lemma same_interpreter_trans w1 w2 w3 :
  same_interpreter w1 w2 -> same_interpreter w2 w3 -> same_interpreter w1 w3.
Proof. unfold same_interpreter. intros (?&?&?&?&?) (?&?&?&?&?). repeat split; congruence. Qed.

Lemma call_function_Ok f args w v w' :
  call_function f args w = (Ok v, w') ->
  eval (call_env f args) (shared w) (rng_state w) (fn_output f) = Some v /\
  (forall i e, fn_updates f !! i = Some e ->
     exists d, eval (call_env f args) (shared w) (rng_state w) e = Some d /\
               shared w' !! i = Some d) /\
  (forall i, fn_updates f !! i = None -> shared w' !! i = shared w !! i) /\
  same_interpreter w w'.
Proof.
  unfold call_function. case_bool_decide as Hlen; [|discriminate].
  fold (call_env f args).
  destruct (eval _ _ _ (fn_output f)) as [v0|] eqn:Ev; [|discriminate].
  case_bool_decide as Hall; [|discriminate].
  intros [= <- <-]. split; [done|]. split; [|split].
  - intros i e Hi. destruct (Hall i e Hi) as [d Hd]. exists d. split; [done|].
    cbn. apply lookup_union_Some_raw. left. rewrite lookup_omap, Hi. done.
  - intros i Hi. cbn. rewrite lookup_union_r; [done|]. by rewrite lookup_omap, Hi.
  - by repeat split.
Qed.

Lemma call_function_Raise f args w e w' :
  call_function f args w = (Raise e, w') -> w' = w.
Proof.
  unfold call_function. repeat case_match; congruence.
Qed.

Lemma call_function_same f args w :
  same_interpreter w (call_function f args w).2.
Proof.
  destruct (call_function f args w) as [[v|e] w'] eqn:E.
  - by apply call_function_Ok in E as (_&_&_&?).
  - apply call_function_Raise in E as ->. apply same_interpreter_refl.
Qed.

(** A function without updates leaves every shared variable as it is. *)
Lemma call_function_no_updates f args w :
  fn_updates f = ∅ -> shared (call_function f args w).2 = shared w.
Proof.
  intros Hu. destruct (call_function f args w) as [[v|e] w'] eqn:E.
  - apply call_function_Ok in E as (_&_&Hk&_). cbn. apply map_eq. intros i.
    apply Hk. by rewrite Hu.
  - by apply call_function_Raise in E as ->.
Qed.

(** Variables that are not updated keep their value, whatever the outcome. *)
Lemma call_function_frame f args w i :
  fn_updates f !! i = None -> shared (call_function f args w).2 !! i = shared w !! i.
Proof.
  intros Hu. destruct (call_function f args w) as [[v|e] w'] eqn:E.
  - apply call_function_Ok in E as (_&_&Hk&_). by apply Hk.
  - by apply call_function_Raise in E as ->.
Qed.

End CallFacts.

(** ** The decorator's cache *)

Section Cache.
Context {D : Type} `{B : Backend D}.

Lemma through_same f args w : same_interpreter w (through f args w).2.
Proof.
  unfold through, bind. destruct (concrete args) as [ds|].
  - pose proof (call_function_same f ds w) as H.
    by destruct (call_function f ds w) as [[d|e] w'].
  - apply same_interpreter_refl.
Qed.

Lemma symbolic_first {T} (oid : T -> nat) inputs name method (self : T) a rest w r w1 names :
  attrs w !! (oid self, "__" ++ name) = None ->
  method self (Sym <$> inputs) w = (Ok r, w1) ->
  input_names inputs = Some names ->
  symbolic oid inputs name method self (Conc a :: rest) w
  = through (compiled_from names r) (Conc a :: rest)
      (stored (oid self) name (compiled_from names r) w1).
Proof.
  intros Hfree Hm Hin. unfold symbolic. cbn [is_Variable].
  unfold bind at 1. unfold hasattr. rewrite Hfree.
  rewrite bool_decide_eq_false_2 by (intros [? ?]; discriminate).
  erewrite bind_Ok by exact Hm.
  assert (Hf : theano_function inputs
                 (match r with RTuple o _ | RExpr o => o end)
                 (match r with RTuple _ u => Some u | RExpr _ => None end) w1
               = (Ok (compiled_from names r), with_compilations (S (compilations w1)) w1)).
  { unfold theano_function. rewrite Hin. by destruct r. }
  destruct r as [o|o u]; cbn [compiled_from] in *.
  - erewrite bind_Ok by exact Hf. unfold bind at 1, setattr.
    unfold call_attr, through, stored, bind, getattr.
    cbn [attrs with_attrs with_compilations]. by rewrite lookup_insert_eq.
  - erewrite bind_Ok by exact Hf. unfold bind at 1, setattr.
    unfold call_attr, through, stored, bind, getattr.
    cbn [attrs with_attrs with_compilations]. by rewrite lookup_insert_eq.
Qed.

Lemma symbolic_cached {T} (oid : T -> nat) inputs name method (self : T) a rest w f :
  attrs w !! (oid self, "__" ++ name) = Some (AFunction f) ->
  symbolic oid inputs name method self (Conc a :: rest) w = through f (Conc a :: rest) w.
Proof.
  intros Hc. unfold symbolic. cbn [is_Variable].
  unfold bind at 1. unfold hasattr. rewrite Hc.
  rewrite bool_decide_eq_true_2 by eauto.
  unfold call_attr, through, bind, getattr. by rewrite Hc.
Qed.

End Cache.

Section CacheTheorem.
Context {D : Type} `{B : Backend D}.

Lemma invocations_cached {T} (oid : T -> nat) inputs name method (self : T) f calls w :
  all_concrete calls ->
  attrs w !! (oid self, "__" ++ name) = Some (AFunction f) ->
  let w' := invocations (symbolic oid inputs name method self) calls w in
  attrs w' !! (oid self, "__" ++ name) = Some (AFunction f) /\
  compilations w' = compilations w.
Proof.
  intros Hc. revert w. induction Hc as [|args calls (a & rest & ->) _ IH]; intros w Hf.
  - done.
  - cbn [invocations]. rewrite (symbolic_cached _ _ _ _ _ _ _ _ f Hf).
    destruct (through_same f (Conc a :: rest) w) as (_ & _ & Ha & Hn & _).
    destruct (IH (through f (Conc a :: rest) w).2) as [IH1 IH2]; [by rewrite Ha|].
    cbn zeta. by rewrite IH1, IH2, Hn.
Qed.

(** The decorator compiles at the first concrete invocation and never again. *)
Lemma symbolic_cache {T} (oid : T -> nat) inputs name method (self : T)
    names r w w1 :
  input_names inputs = Some names ->
  attrs w !! (oid self, "__" ++ name) = None ->
  method self (Sym <$> inputs) w = (Ok r, w1) ->
  attrs w1 = attrs w ->
  compilations w1 = compilations w ->
  let f := compiled_from names r in
  let m := symbolic oid inputs name method self in
  (forall a rest,
     m (Conc a :: rest) w
     = through f (Conc a :: rest) (stored (oid self) name f w1) /\
     attrs (m (Conc a :: rest) w).2 !! (oid self, "__" ++ name) = Some (AFunction f) /\
     compilations (m (Conc a :: rest) w).2 = S (compilations w)) /\
  (forall u a rest,
     attrs u !! (oid self, "__" ++ name) = Some (AFunction f) ->
     m (Conc a :: rest) u = through f (Conc a :: rest) u /\
     attrs (m (Conc a :: rest) u).2 = attrs u /\
     compilations (m (Conc a :: rest) u).2 = compilations u) /\
  (forall a rest calls,
     all_concrete calls ->
     let w' := invocations m calls (m (Conc a :: rest) w).2 in
     attrs w' !! (oid self, "__" ++ name) = Some (AFunction f) /\
     compilations w' = S (compilations w)).
Proof.
  intros Hin Hfree Hm Ha Hc f m.
  assert (H1 : forall a rest,
     m (Conc a :: rest) w
     = through f (Conc a :: rest) (stored (oid self) name f w1) /\
     attrs (m (Conc a :: rest) w).2 !! (oid self, "__" ++ name) = Some (AFunction f) /\
     compilations (m (Conc a :: rest) w).2 = S (compilations w)).
  { intros a rest. unfold m. rewrite (symbolic_first _ _ _ _ _ _ _ _ _ _ _ Hfree Hm Hin).
    fold f. split; [done|].
    destruct (through_same f (Conc a :: rest) (stored (oid self) name f w1))
      as (_ & _ & Ha' & Hc' & _).
    rewrite Ha', Hc'. cbn. rewrite lookup_insert_eq. by rewrite Hc. }
  split; [exact H1|]. split.
  - intros u a rest Hu. unfold m. rewrite (symbolic_cached _ _ _ _ _ _ _ _ f Hu).
    split; [done|]. by destruct (through_same f (Conc a :: rest) u) as (_ & _ & ? & ? & _).
  - intros a rest calls Hcalls. destruct (H1 a rest) as (_ & Hs & Hn).
    destruct (invocations_cached oid inputs name method self f calls _ Hcalls Hs) as [Hx Hy].
    cbn zeta. split; [exact Hx|]. rewrite <- Hn. exact Hy.
Qed.


(** C3. A method wrapped by [symbolic] whose cache slot ['__' + name] is
    still free and whose graph builds (without compiling or setting
    attributes itself): the first invocation with concrete arguments
    compiles the graph the method returns for the decorator's inputs, keeps
    the function in the slot and runs it on the arguments; every later
    concrete invocation runs that same stored function and compiles
    nothing, so that after any number of them exactly one compilation has
    taken place and the slot still holds the function. *)
Theorem symbolic_compiles_once {T} (oid : T -> nat) inputs name method (self : T)
    names r w w1 :
  input_names inputs = Some names ->
  attrs w !! (oid self, "__" ++ name) = None ->
  method self (Sym <$> inputs) w = (Ok r, w1) ->
  attrs w1 = attrs w ->
  compilations w1 = compilations w ->
  let f := compiled_from names r in
  let m := symbolic oid inputs name method self in
  (forall a rest,
     m (Conc a :: rest) w
     = through f (Conc a :: rest) (stored (oid self) name f w1) /\
     attrs (m (Conc a :: rest) w).2 !! (oid self, "__" ++ name) = Some (AFunction f) /\
     compilations (m (Conc a :: rest) w).2 = S (compilations w)) /\
  (forall u a rest,
     attrs u !! (oid self, "__" ++ name) = Some (AFunction f) ->
     m (Conc a :: rest) u = through f (Conc a :: rest) u /\
     attrs (m (Conc a :: rest) u).2 = attrs u /\
     compilations (m (Conc a :: rest) u).2 = compilations u) /\
  (forall a rest calls,
     all_concrete calls ->
     let w' := invocations m calls (m (Conc a :: rest) w).2 in
     attrs w' !! (oid self, "__" ++ name) = Some (AFunction f) /\
     compilations w' = S (compilations w)).
Proof. apply symbolic_cache. Qed.

End CacheTheorem.

(** ** The wrapped methods build graphs and nothing else *)

Section WrappedFacts.
Context {D : Type} `{B : Backend D}.







Lemma symbolic_first_Raise {T} (oid : T -> nat) inputs name method (self : T) a rest
    (w : world D) e w1 :
  attrs w !! (oid self, "__" ++ name) = None ->
  method self (Sym <$> inputs) w = (Raise e, w1) ->
  symbolic oid inputs name method self (Conc a :: rest) w = (Raise e, w1).
Proof.
  intros Ha Hm. unfold symbolic. cbn [is_Variable]. unfold bind at 1. unfold hasattr.
  rewrite Ha. rewrite bool_decide_eq_false_2 by (intros [? ?]; discriminate).
  by erewrite bind_Raise by exact Hm.
Qed.






End WrappedFacts.

(** ** C1: the negative chain *)

Section InsertChains.

Lemma rbm_wf_lookups {D} `{B : Backend D} (self : rbm) (w : world D) :
  rbm_wf self w ->
  _W self <> _b self /\ _W self <> _c self /\ _W self <> h_samples self /\
  _b self <> _c self /\ _b self <> h_samples self /\ _c self <> h_samples self /\
  forall k, _W self <> (next_id w + k)%nat /\ _b self <> (next_id w + k)%nat /\
            _c self <> (next_id w + k)%nat /\ h_samples self <> (next_id w + k)%nat.
Proof.
  intros [Hnd Hlt].
  rewrite !NoDup_cons, !elem_of_cons, !elem_of_nil in Hnd.
  rewrite !Forall_cons in Hlt.
  repeat split; try (intros E; rewrite E in *; intuition lia); intuition congruence.
Qed.

End InsertChains.

Section C1.
Context {D : Type} `{B : Backend D}.

Lemma BinaryRBM_negative_phase self v_pos (w : world D) :
  (1 <= K self)%nat -> rbm_wf self w ->
  negative_phase_is BinaryRBM._fit_ BinaryGraph.F BinaryGraph.step self v_pos w.
Proof.
  intros HK Hwf. unfold negative_phase_is. eexists _, _, _.
  split; [by apply BinaryFit._fit_spec|].
  destruct (rbm_wf_lookups self w Hwf) as (?&?&?&?&?&?&Hk).
  destruct (Hk (2 * K self)%nat) as (?&?&?&?).
  unfold BinaryGraph.updates. split.
  - rewrite lookup_insert_ne by done. by rewrite lookup_insert_eq.
  - intros p Hp. rewrite !elem_of_cons, elem_of_nil in Hp.
    destruct Hp as [->|[->|[->|[]]]].
    + by rewrite !lookup_insert_ne, lookup_insert_eq by done.
    + by rewrite !lookup_insert_ne, lookup_insert_eq by done.
    + by rewrite !lookup_insert_ne, lookup_insert_eq by done.
Qed.

Lemma GaussianRBM_negative_phase self v_pos (w : world D) :
  (1 <= K self)%nat -> rbm_wf self w ->
  negative_phase_is GaussianRBM._fit_ GaussianGraph.F GaussianGraph.step self v_pos w.
Proof.
  intros HK Hwf. unfold negative_phase_is. eexists _, _, _.
  split; [by apply GaussianFit.gaussian_fit_spec|].
  destruct (rbm_wf_lookups self w Hwf) as (?&?&?&?&?&?&Hk).
  unfold GaussianGraph.updates. split.
  - by rewrite lookup_insert_eq.
  - intros p Hp. rewrite !elem_of_cons, elem_of_nil in Hp.
    destruct Hp as [->|[->|[->|[]]]].
    + by rewrite !lookup_insert_ne, lookup_insert_eq by done.
    + by rewrite !lookup_insert_ne, lookup_insert_eq by done.
    + by rewrite !lookup_insert_ne, lookup_insert_eq by done.
Qed.

(** C1, amended.  With K >= 1, [BinaryRBM._fit] takes as negative sample the
    visibles of the K-th Gibbs step of the persistent chain started from
    h_samples, each step drawing the visibles given the hiddens and then the
    hiddens given those visibles.  [GaussianRBM._fit] runs K steps from
    h_samples too, but each of its steps sets the visibles to their
    conditional mean and draws only the hiddens. *)
Theorem negative_sample_after_K_steps self v_pos (w : world D) :
  (1 <= K self)%nat -> rbm_wf self w ->
  negative_phase_is BinaryRBM._fit_ BinaryGraph.F
    (fun self => gibbs_step Binomial (BinaryGraph.p_v self) (BinaryGraph.p_h self))
    self v_pos w /\
  negative_phase_is GaussianRBM._fit_ GaussianGraph.F
    (fun self => mean_field_step (GaussianGraph.m_v self) (GaussianGraph.p_h self))
    self v_pos w.
Proof.
  intros HK Hwf. split.
  - by apply BinaryRBM_negative_phase.
  - by apply GaussianRBM_negative_phase.
Qed.

End C1.

Import Shapes Example.

Lemma rbm_wf_rbm1 : rbm_wf rbm1 w_rbm0.
Proof.
  split; cbn.
  - apply NoDup_ListNoDup. repeat constructor; cbn; lia.
  - repeat constructor; lia.
Qed.

Lemma negative_sample_after_K_steps_witness :
  negative_phase_is BinaryRBM._fit_ BinaryGraph.F
    (fun self => gibbs_step Binomial (BinaryGraph.p_v self) (BinaryGraph.p_h self))
    rbm1 (Input "v_pos") w_rbm0 /\
  negative_phase_is GaussianRBM._fit_ GaussianGraph.F
    (fun self => mean_field_step (GaussianGraph.m_v self) (GaussianGraph.p_h self))
    rbm1 (Input "v_pos") w_rbm0.
Proof.
  apply (negative_sample_after_K_steps rbm1 (Input "v_pos") w_rbm0).
  - cbn. lia.
  - exact rbm_wf_rbm1.
Defined.

(** The claim as worded fails for the Gaussian class: with K = 1 the
    negative sample of [GaussianRBM._fit] is not a draw of the visibles. *)
Lemma gaussian_visibles_not_drawn :
  ~ negative_phase_is GaussianRBM._fit_ GaussianGraph.F GaussianGraph.sampled_step
      rbm1 (Input "v_pos") w_rbm0.
Proof.
  intros (loss & updates & w' & Hfit & Hh & _).
  rewrite GaussianFit.gaussian_fit_spec in Hfit by (cbn; lia).
  injection Hfit as _ <- _.
  vm_compute in Hh. discriminate Hh.
Qed.

(** ** C2: the gradient step *)

Section C2.
Context {D : Type} `{B : Backend D}.

(** The hiddens a chain ends with are the ones its last step drew from the
    negative sample. *)
Lemma gibbs_last_hiddens kv mv mh k s0 h0 :
  exists s, (after_steps (gibbs_step kv mv mh) (S k) s0 h0).1
            = Random Binomial s (mh (visibles_of_step (gibbs_step kv mv mh) (S k) s0 h0)).
Proof.
  unfold visibles_of_step, after_steps. cbn [Nat.sub Nat.iter]. rewrite Nat.sub_0_r.
  eexists. reflexivity.
Qed.

Lemma mean_field_last_hiddens mv mh k s0 h0 :
  exists s, (after_steps (mean_field_step mv mh) (S k) s0 h0).1
            = Random Binomial s (mh (visibles_of_step (mean_field_step mv mh) (S k) s0 h0)).
Proof.
  unfold visibles_of_step, after_steps. cbn [Nat.sub Nat.iter]. rewrite Nat.sub_0_r.
  eexists. reflexivity.
Qed.

Lemma __train_chain_Ok self k nx ny ng (w : world D) :
  exists nx' ny' ng' w',
    SetRBM.__train_chain self k nx ny ng w = (Ok (nx', ny', ng'), w') /\
    (is_Some ny \/ (1 <= k)%nat -> is_Some ny').
Proof.
  revert nx ny ng w. induction k as [|k IH]; intros nx ny ng w.
  - eexists _, _, _, _. split; [reflexivity|]. intros [?|?]; [done|lia].
  - cbn [SetRBM.__train_chain]. unfold SetRBM._sample_h, SetRBM._sample_y, SetRBM._sample_g.
    unfold random_stream, fresh, bind, ret, SetRBM._mean_g.
    cbn [fst snd next_id with_next_id].
    match goal with |- context [SetRBM.__train_chain self k ?a ?b ?c ?w1] =>
      destruct (IH a b c w1) as (nx' & ny' & ng' & w' & -> & Hs) end.
    eexists _, _, _, _. split; [reflexivity|]. intros _. apply Hs. left. eauto.
Qed.

Lemma _sample_g_Ok self x y (w : world D) :
  exists g, SetRBM._sample_g self x y w = (Ok g, with_next_id (S (next_id w)) w).
Proof. unfold SetRBM._sample_g, SetRBM._mean_g. eexists. reflexivity. Qed.

(** What [__train] builds when its loop runs at least once. *)
Lemma __train_spec self (w : world D) :
  (1 <= SetRBM.K self)%nat -> NoDup (SetRBM.params self) ->
  exists nx ny monitoring_cost updates w',
    SetRBM.__train self w = (Ok (monitoring_cost, updates), w') /\
    gradient_updates updates (SetRBM.params self)
      (set_gradient_step (SetRBM.learning_rate self) (set_cost self nx ny) [nx; ny]) /\
    dom updates = list_to_set (SetRBM.params self).
Proof.
  intros HK Hnd. unfold SetRBM.__train.
  destruct (_sample_g_Ok self (SetRBM.x self) (SetRBM.y self) w) as [g Hg].
  erewrite bind_Ok by exact Hg.
  destruct (__train_chain_Ok self (SetRBM.K self) (SetRBM.x self) None g
              (with_next_id (S (next_id w)) w)) as (nx & ny & ng & w' & Hc & Hs).
  erewrite bind_Ok by exact Hc.
  destruct Hs as [ny' ->]; [by right|].
  exists nx, ny'. eexists _, _, _. split; [reflexivity|].
  unfold SetRBM.params in *. cbn [T_grad fmap list_fmap zip zip_with foldl fst snd].
  rewrite !NoDup_cons, !elem_of_cons, !elem_of_nil in Hnd.
  split.
  - intros p Hp. rewrite !elem_of_cons, elem_of_nil in Hp.
    destruct Hp as [->|[->|[->|[->|[->|[]]]]]];
      rewrite ?lookup_insert_ne by (intros E; revert Hnd; rewrite E; tauto);
      by rewrite lookup_insert_eq.
  - rewrite !dom_insert_L, dom_empty_L. cbn. set_solver.
Qed.

(** When a call succeeds, a variable updated by a gradient step holds its
    old value minus epsilon times the value of the gradient, both taken in
    the state before the call. *)
Lemma gradient_step_value f args (w : world D) v w' eps cost cc p :
  call_function f args w = (Ok v, w') ->
  fn_updates f !! p = Some (gradient_step eps cost cc p) ->
  exists old g d new,
    shared w !! p = Some old /\
    eval (call_env f args) (shared w) (rng_state w) (Grad cost p cc) = Some g /\
    bin_op Mul (of_float eps) g = Some d /\
    bin_op Sub old d = Some new /\
    shared w' !! p = Some new.
Proof.
  intros Hcall Hp. apply call_function_Ok in Hcall as (_ & Hu & _ & _).
  destruct (Hu p _ Hp) as (new & Hev & Hnew).
  unfold gradient_step in Hev. cbn [eval] in Hev.
  destruct (shared w !! p) as [old|] eqn:Hold; [|done]. cbn in Hev.
  destruct (eval (call_env f args) (shared w) (rng_state w) cost) as [c|] eqn:Hc; [|done].
  cbn in Hev.
  destruct (grad_value cost p cc (call_env f args) (shared w) (rng_state w) c old)
    as [g|] eqn:Hg; [|done].
  cbn in Hev.
  destruct (bin_op Mul (of_float eps) g) as [d|] eqn:Hd; [|done]. cbn in Hev.
  exists old, g, d, new. repeat split; try done.
  cbn [eval]. rewrite Hc, Hold. cbn. exact Hg.
Qed.

Lemma BinaryRBM_sml self v_pos (w : world D) :
  (1 <= K self)%nat -> rbm_wf self w ->
  exists loss updates w' v_neg h_neg s,
    BinaryRBM._fit_ self [Sym v_pos] w = (Ok (RTuple loss updates), w') /\
    gradient_updates updates [_W self; _b self; _c self]
      (gradient_step (epsilon self) (free_energy_gap (BinaryGraph.F self) v_pos v_neg) [v_neg]) /\
    replaces_chain_state updates [_W self; _b self; _c self] (h_samples self) h_neg /\
    h_neg = Random Binomial s (BinaryGraph.p_h self v_neg).
Proof.
  intros HK Hwf.
  destruct (BinaryRBM_negative_phase self v_pos w HK Hwf) as (loss & updates & w' & Hf & Hh & Hp).
  destruct (K self) as [|k] eqn:EK; [lia|].
  destruct (gibbs_last_hiddens Binomial (BinaryGraph.p_v self) (BinaryGraph.p_h self) k
              (next_id w) (Shared (h_samples self))) as [s Hs].
  eexists loss, updates, w', _, _, s. split; [exact Hf|]. split; [exact Hp|].
  split; [|exact Hs]. split; [|exact Hh].
  destruct (rbm_wf_lookups self w Hwf) as (?&?&?&?&?&?&_).
  rewrite !elem_of_cons, elem_of_nil. intuition congruence.
Qed.

Lemma GaussianRBM_sml self v_pos (w : world D) :
  (1 <= K self)%nat -> rbm_wf self w ->
  exists loss updates w' v_neg h_neg s,
    GaussianRBM._fit_ self [Sym v_pos] w = (Ok (RTuple loss updates), w') /\
    gradient_updates updates [_W self; _b self; _c self]
      (gradient_step (epsilon self) (free_energy_gap (GaussianGraph.F self) v_pos v_neg) [v_neg]) /\
    replaces_chain_state updates [_W self; _b self; _c self] (h_samples self) h_neg /\
    h_neg = Random Binomial s (GaussianGraph.p_h self v_neg).
Proof.
  intros HK Hwf.
  destruct (GaussianRBM_negative_phase self v_pos w HK Hwf) as (loss & updates & w' & Hf & Hh & Hp).
  destruct (K self) as [|k] eqn:EK; [lia|].
  destruct (mean_field_last_hiddens (GaussianGraph.m_v self) (GaussianGraph.p_h self) k
              (next_id w) (Shared (h_samples self))) as [s Hs].
  eexists loss, updates, w', _, _, s. split; [exact Hf|]. split; [exact Hp|].
  split; [|exact Hs]. split; [|exact Hh].
  destruct (rbm_wf_lookups self w Hwf) as (?&?&?&?&?&?&_).
  rewrite !elem_of_cons, elem_of_nil. intuition congruence.
Qed.

Lemma no_chain_state updates params :
  dom updates = list_to_set params ->
  ~ exists h h_neg, replaces_chain_state updates params h h_neg.
Proof.
  intros Hd (h & h_neg & Hn & Hl). apply Hn.
  apply (elem_of_dom_2 (D:=gset nat)) in Hl. rewrite Hd in Hl. by apply elem_of_list_to_set in Hl.
Qed.

(** C2, amended.  A training step of BinaryRBM or GaussianRBM (K >= 1)
    updates each of W, b, c to p - epsilon * grad_p, the gradient being
    that of mean(free_energy(v_pos)) - mean(free_energy(v_neg)) with the
    negative sample v_neg held constant, and replaces h_samples by the
    hiddens drawn last, from v_neg.  A training step of SetRBM updates each
    of W, U, b, c, d to p - grad_p * learning_rate, the gradient being that
    of the free-energy gap with both negative samples held constant, and
    updates nothing else: it keeps no fantasy-particle state.  When the
    compiled step runs, the new value of a parameter is its old value minus
    epsilon times the gradient, both taken before the call. *)
Theorem parameter_updates (self : rbm) (sself : SetRBM.t) v_pos (w : world D) :
  (1 <= K self)%nat -> rbm_wf self w ->
  (1 <= SetRBM.K sself)%nat -> NoDup (SetRBM.params sself) ->
  (forall fit F p_h,
     (fit, F, p_h) = (BinaryRBM._fit_, BinaryGraph.F, BinaryGraph.p_h) \/
     (fit, F, p_h) = (GaussianRBM._fit_, GaussianGraph.F, GaussianGraph.p_h) ->
     exists loss updates w' v_neg h_neg s,
       fit self [Sym v_pos] w = (Ok (RTuple loss updates), w') /\
       gradient_updates updates [_W self; _b self; _c self]
         (gradient_step (epsilon self) (free_energy_gap (F self) v_pos v_neg) [v_neg]) /\
       replaces_chain_state updates [_W self; _b self; _c self] (h_samples self) h_neg /\
       h_neg = Random Binomial s (p_h self v_neg)) /\
  (exists nx ny monitoring_cost updates w',
     SetRBM.__train sself w = (Ok (monitoring_cost, updates), w') /\
     gradient_updates updates (SetRBM.params sself)
       (set_gradient_step (SetRBM.learning_rate sself) (set_cost sself nx ny) [nx; ny]) /\
     ~ exists h h_neg, replaces_chain_state updates (SetRBM.params sself) h h_neg) /\
  (forall f args u v u' cost cc p,
     call_function f args u = (Ok v, u') ->
     fn_updates f !! p = Some (gradient_step (epsilon self) cost cc p) ->
     exists old g d new,
       shared u !! p = Some old /\
       eval (call_env f args) (shared u) (rng_state u) (Grad cost p cc) = Some g /\
       bin_op Mul (of_float (epsilon self)) g = Some d /\
       bin_op Sub old d = Some new /\
       shared u' !! p = Some new).
Proof.
  intros HK Hwf HsK Hnd. split; [|split].
  - intros fit F p_h [[= -> -> ->] | [= -> -> ->]].
    + by apply BinaryRBM_sml.
    + by apply GaussianRBM_sml.
  - destruct (__train_spec sself w HsK Hnd) as (nx & ny & mc & updates & w' & Ht & Hg & Hd).
    exists nx, ny, mc, updates, w'. split; [exact Ht|]. split; [exact Hg|].
    by apply no_chain_state.
  - intros f args u v u' cost cc p. apply gradient_step_value.
Qed.

End C2.

Import Shapes Example ExampleSet.

Lemma parameter_updates_witness :
  exists nx ny monitoring_cost updates w',
    SetRBM.__train set0 w_set0 = (Ok (monitoring_cost, updates), w') /\
    gradient_updates updates (SetRBM.params set0)
      (set_gradient_step (SetRBM.learning_rate set0) (set_cost set0 nx ny) [nx; ny]) /\
    ~ exists h h_neg, replaces_chain_state updates (SetRBM.params set0) h h_neg.
Proof.
  refine (proj1 (proj2 (parameter_updates rbm1 set0 (Input "v_pos") w_set0 _ _ _ _))).
  - cbn. lia.
  - split; cbn.
    + apply NoDup_ListNoDup. repeat constructor; cbn; lia.
    + repeat constructor; lia.
  - cbn. lia.
  - apply NoDup_ListNoDup. repeat constructor; cbn; lia.
Defined.

(** The claim as worded fails for SetRBM: its training step replaces no
    fantasy-particle state. *)
Lemma SetRBM_replaces_no_chain_state :
  ~ exists monitoring_cost updates w' h h_neg,
      SetRBM.__train set0 w_set0 = (Ok (monitoring_cost, updates), w') /\
      replaces_chain_state updates (SetRBM.params set0) h h_neg.
Proof.
  intros (mc & updates & w' & h & h_neg & Ht & Hr).
  assert (Hnd : NoDup (SetRBM.params set0))
    by (apply NoDup_ListNoDup; repeat constructor; cbn; lia).
  destruct (__train_spec set0 w_set0 ltac:(cbn; lia) Hnd)
    as (nx & ny & mc' & updates' & w'' & Ht' & _ & Hd).
  rewrite Ht in Ht'. injection Ht' as <- <- <-.
  apply (no_chain_state updates (SetRBM.params set0) Hd). eauto.
Qed.


(** ** C4: the diagnostics *)

Section C4.
Context {D : Type} `{B : Backend D}.

(** When the compiled binary step runs, the counter moves to the next
    column, modulo the number of columns of the batch. *)
Lemma next_bit_value f args (w : world D) v w' x bit_i :
  call_function f args w = (Ok v, w') ->
  fn_updates f !! bit_i = Some (BinaryGraph.next_bit (Input x) bit_i) ->
  exists old batch up n new,
    shared w !! bit_i = Some old /\
    call_env f args !! x = Some batch /\
    bin_op Add old (of_int 1) = Some up /\
    un_op Shape1 batch = Some n /\
    bin_op Mod up n = Some new /\
    shared w' !! bit_i = Some new.
Proof.
  intros Hcall Hp. apply call_function_Ok in Hcall as (_ & Hu & _ & _).
  destruct (Hu bit_i _ Hp) as (new & Hev & Hnew).
  unfold BinaryGraph.next_bit in Hev. cbn [eval] in Hev.
  destruct (shared w !! bit_i) as [old|] eqn:Hold; [|done]. cbn in Hev.
  destruct (bin_op Add old (of_int 1)) as [up|] eqn:Hup; [|done]. cbn in Hev.
  destruct (call_env f args !! x) as [batch|] eqn:Hb; [|done]. cbn in Hev.
  destruct (un_op Shape1 batch) as [n|] eqn:Hn; [|done]. cbn in Hev.
  by exists old, batch, up, n, new.
Qed.

(** C4, amended.  The diagnostic of [BinaryRBM._fit] is the
    pseudo-likelihood with one input column flipped; the column is named by
    a counter that the graph creates with value 0 and that every call moves
    to (counter + 1) mod the number of columns: the columns are taken in
    turn, no random stream is involved.  The diagnostic of
    [GaussianRBM._fit] is the mean squared distance between the batch and
    its reconstruction mean_v(mean_h(v_pos)); it overwrites no column and
    draws from no random stream. *)
Theorem diagnostics self (w : world D) :
  (1 <= K self)%nat ->
  let v_pos := Input "v_pos" in
  let bit_i := (next_id w + 2 * K self)%nat in
  (exists updates w',
     BinaryRBM._fit_ self [Sym v_pos] w
     = (Ok (RTuple (BinaryGraph.pseudo_likelihood self v_pos bit_i) updates), w') /\
     perturbed_columns (BinaryGraph.pseudo_likelihood self v_pos bit_i)
     = [Shared bit_i; Shared bit_i] /\
     streams_of (BinaryGraph.pseudo_likelihood self v_pos bit_i) = [] /\
     shared w' !! bit_i = Some (of_int 0) /\
     updates !! bit_i = Some (BinaryGraph.next_bit v_pos bit_i)) /\
  (exists updates w',
     GaussianRBM._fit_ self [Sym v_pos] w
     = (Ok (RTuple (GaussianGraph.reconstruction_error self v_pos) updates), w') /\
     perturbed_columns (GaussianGraph.reconstruction_error self v_pos) = [] /\
     streams_of (GaussianGraph.reconstruction_error self v_pos) = []) /\
  (forall f args u v u',
     call_function f args u = (Ok v, u') ->
     fn_updates f !! bit_i = Some (BinaryGraph.next_bit v_pos bit_i) ->
     exists old batch up n new,
       shared u !! bit_i = Some old /\
       call_env f args !! "v_pos" = Some batch /\
       bin_op Add old (of_int 1) = Some up /\
       un_op Shape1 batch = Some n /\
       bin_op Mod up n = Some new /\
       shared u' !! bit_i = Some new).
Proof.
  intros HK v_pos bit_i. split; [|split].
  - eexists _, _. split; [by apply BinaryFit._fit_spec|].
    repeat split.
    + cbn. by rewrite lookup_insert_eq.
    + unfold BinaryGraph.updates. by rewrite lookup_insert_eq.
  - eexists _, _. split; [by apply GaussianFit.gaussian_fit_spec|]. done.
  - intros f args u v u'. apply next_bit_value.
Qed.

End C4.

Import Shapes Example.

Lemma diagnostics_witness :
  exists updates w',
     GaussianRBM._fit_ rbm1 [Sym (Input "v_pos")] w_rbm0
     = (Ok (RTuple (GaussianGraph.reconstruction_error rbm1 (Input "v_pos")) updates), w') /\
     perturbed_columns (GaussianGraph.reconstruction_error rbm1 (Input "v_pos")) = [] /\
     streams_of (GaussianGraph.reconstruction_error rbm1 (Input "v_pos")) = [].
Proof.
  refine (proj1 (proj2 (diagnostics rbm1 w_rbm0 _))). cbn. lia.
Defined.

(** The claim as worded fails: neither diagnostic perturbs a dimension
    chosen at random. *)
Lemma diagnostics_not_random :
  ~ (forall fit, fit = BinaryRBM._fit_ \/ fit = GaussianRBM._fit_ ->
       exists loss updates w',
         fit rbm1 [Sym (Input "v_pos")] w_rbm0 = (Ok (RTuple loss updates), w') /\
         perturbs_random_dimension loss).
Proof.
  intros H. destruct (H BinaryRBM._fit_ (or_introl eq_refl))
    as (loss & updates & w' & Hfit & i & Hi & Hs).
  rewrite BinaryFit._fit_spec in Hfit by (cbn; lia).
  injection Hfit as <- _ _.
  cbn in Hi. rewrite !elem_of_cons, elem_of_nil in Hi.
  destruct Hi as [-> | [-> | []]]; by apply Hs.
Qed.

(** In the shape backend: three successive calls of the compiled binary step
    on batches of three columns leave the counter at 1, 2 and 0. *)
Lemma bit_i_cycles :
  let '(_, w1) := BinaryRBM._fit rbm1 [Conc (SArr [4; 3]%nat)]
                    (with_shared (<[4%nat := SArr [4; 3]%nat]> (<[3%nat := SArr [3%nat]]>
                       (<[2%nat := SArr [3%nat]]> (<[1%nat := SArr [3; 3]%nat]> ∅)))) w_rbm0) in
  let '(_, w2) := BinaryRBM._fit rbm1 [Conc (SArr [4; 3]%nat)] w1 in
  let '(_, w3) := BinaryRBM._fit rbm1 [Conc (SArr [4; 3]%nat)] w2 in
  (shared w1 !! 7%nat, shared w2 !! 7%nat, shared w3 !! 7%nat)
  = (Some (SInt 1), Some (SInt 2), Some (SInt 0)).
Proof. vm_compute. reflexivity. Qed.

(** ** C5: the shape of the fantasy particles *)

Module ShapeFacts.
Import Shapes ShapeVocabulary.



Lemma broadcast_nil_r d : broadcast d [] = Some d.
Proof.
  unfold broadcast. rewrite decide_True by (cbn; lia). cbn.
  rewrite Nat.sub_0_r, drop_all. by rewrite decide_True.
Qed.



Section Graphs.
Context (self : rbm) (n_in n_hid n : nat).
Context (env : gmap string shp) (σ : gmap nat shp) (ρ : gmap nat nat).
Context (HW : σ !! _W self = Some (SArr [n_in; n_hid])).
Context (Hb : σ !! _b self = Some (SArr [n_in])).
Context (Hc : σ !! _c self = Some (SArr [n_hid])).








End Graphs.





Lemma trained_same_interpreter self n_in n_hid n w w' :
  same_interpreter w w' -> shared w' = shared w ->
  trained self n_in n_hid n w -> trained self n_in n_hid n w'.
Proof.
  intros (Hn & _ & Ha & _) Hs (H1 & H2 & H3).
  unfold trained, shapes_ok, fit_slot_ok in *. rewrite Hn, Hs, Ha. done.
Qed.











Lemma trained_np self n_in n_hid n g w :
  trained self n_in n_hid n w -> trained self n_in n_hid n (with_np g w).
Proof. done. Qed.







End ShapeFacts.

Import Shapes Example ShapeVocabulary ShapeFacts.



(** Without hidden units W never gets a column, so that every [fit]
    initialises again: after the setting n_samples has gone from 4 to 2 the
    second [fit] leaves h_samples with 2 rows instead of 4. *)
Lemma no_hidden_units_initialised_again :
  let '(r, w1) := BinaryRBM.__init__ 0 None None None 1 (1 # 10) 4 2 w0 in
  match r with
  | Ok self =>
      let w2 := (BinaryRBM.fit self (SArr [10; 5]%nat) (fun x => x) w1).2 in
      let self' := Rbm (obj self) 0 (_W self) (_c self) (_b self) 1 (1 # 10) 2 2
                     (h_samples self) in
      let w3 := (BinaryRBM.fit self' (SArr [10; 5]%nat) (fun x => x) w2).2 in
      shared w2 !! h_samples self = Some (SArr [4; 0]%nat) /\
      shared w3 !! h_samples self = Some (SArr [2; 0]%nat)
  | Raise _ => False
  end.
Proof. vm_compute. split; reflexivity. Qed.

(** ** Graphs without randomness evaluate the same in every generator state *)

Section Deterministic.
Context {D : Type} `{B : Backend D}.

Lemma scan_rows_ext (f g : D -> D -> option (D * D)) rows h :
  (forall x h, f x h = g x h) -> scan_rows f rows h = scan_rows g rows h.
Proof.
  intros Hfg. revert h. induction rows as [|x rows IH]; intros h; [done|].
  cbn. rewrite Hfg. destruct (g x h) as [hy|]; [|done]. cbn. by rewrite IH.
Qed.

Lemma eval_deterministic e :
  deterministic e = true ->
  forall env σ ρ1 ρ2, eval env σ ρ1 e = eval env σ ρ2 e.
Proof.
  induction e as [x|i|z|q|v|o a IHa|o a IHa b IHb|v IHv i IHi x IHx|k s p IHp|c IHc wrt cc
                  |out h_t IHh y_t IHy xs IHxs h0 IH0];
    cbn [deterministic]; intros Hd env σ ρ1 ρ2; try done.
  - cbn [eval]. by rewrite (IHa Hd env σ ρ1 ρ2).
  - apply andb_prop in Hd as [Ha Hb]. cbn [eval].
    by rewrite (IHa Ha env σ ρ1 ρ2), (IHb Hb env σ ρ1 ρ2).
  - apply andb_prop in Hd as [Hd Hx]. apply andb_prop in Hd as [Hv Hi]. cbn [eval].
    by rewrite (IHv Hv env σ ρ1 ρ2), (IHi Hi env σ ρ1 ρ2), (IHx Hx env σ ρ1 ρ2).
  - apply andb_prop in Hd as [Hd H0]. apply andb_prop in Hd as [Hd Hxs].
    apply andb_prop in Hd as [Hh Hy]. cbn [eval].
    rewrite (IHxs Hxs env σ ρ1 ρ2), (IH0 H0 env σ ρ1 ρ2).
    destruct (eval env σ ρ2 xs) as [xs'|]; [|done]. cbn.
    destruct (unstack xs') as [rows|]; [|done]. cbn.
    destruct (eval env σ ρ2 h0) as [h0'|]; [|done]. cbn.
    erewrite scan_rows_ext; [reflexivity|].
    intros x h. cbn. by rewrite (IHh Hh _ σ ρ1 ρ2), (IHy Hy _ σ ρ1 ρ2).
Qed.

(** A function whose output is deterministic and that has no updates returns
    the same value in any two states with the same shared values, and
    changes none of them. *)
Lemma call_deterministic f args (w u : world D) :
  deterministic (fn_output f) = true -> fn_updates f = ∅ ->
  shared u = shared w ->
  (call_function f args u).1 = (call_function f args w).1 /\
  shared (call_function f args w).2 = shared w.
Proof.
  intros Hd Hu Hs. split; [|by apply call_function_no_updates].
  unfold call_function. rewrite Hs, Hu.
  case_bool_decide; [|done].
  rewrite (eval_deterministic _ Hd _ (shared w) (rng_state u) (rng_state w)).
  destruct (eval _ _ _ (fn_output f)); [|done].
  rewrite !bool_decide_eq_true_2 by apply map_Forall_empty. done.
Qed.

End Deterministic.

(** ** The layers of an MLP *)

Module MLPFacts.
Import MLPVocabulary.

Section Layers.
Context {D : Type} `{B : Backend D}.

Lemma layer__init__Ok x n_in n_out (act : Expr -> M D Expr) W b (w : world D) l w' :
  NeuralNetworkLayer.__init__ x n_in n_out act W b w = (Ok l, w') ->
  NeuralNetworkLayer.n_in l = n_in /\ NeuralNetworkLayer.n_out l = n_out /\
  NeuralNetworkLayer.input l = x /\
  NeuralNetworkLayer.linear_output l = Bin Dot x (Shared (NeuralNetworkLayer.W l)) /\
  (forall W0, W = Some W0 -> NeuralNetworkLayer.W l = W0) /\
  (forall b0, b = Some b0 -> NeuralNetworkLayer.b l = b0) /\
  exists w1,
    act (Bin Add (Bin Dot x (Shared (NeuralNetworkLayer.W l))) (Shared (NeuralNetworkLayer.b l))) w1
    = (Ok (NeuralNetworkLayer.output l), w').
Proof.
  unfold NeuralNetworkLayer.__init__. intros H.
  apply bind_inv in H as (W_values & w1 & _ & H).
  apply bind_inv in H as (W' & w2 & HW & H).
  apply bind_inv in H as (b' & w3 & Hb & H).
  apply bind_inv in H as (out & w4 & Hact & H).
  injection H as <- <-. cbn. repeat split; try done.
  - intros W0 ->. unfold ret in HW. congruence.
  - intros b0 ->. unfold ret in Hb. congruence.
  - eauto.
Qed.

Lemma type_map_Ok ty x n_in n_out W b xargs (w : world D) l w' :
  MLP.type_map ty x n_in n_out W b xargs w = (Ok l, w') ->
  NeuralNetworkLayer.n_in l = n_in /\ NeuralNetworkLayer.n_out l = n_out /\
  NeuralNetworkLayer.input l = x /\
  (forall W0, W = Some W0 -> NeuralNetworkLayer.W l = W0) /\
  (forall b0, b = Some b0 -> NeuralNetworkLayer.b l = b0) /\
  layer_of ty l.
Proof.
  unfold MLP.type_map, layer_of, activation_of.
  unfold LogisticLayer, RectifierLayer, SoftmaxLayer, SoftplusLayer, TanhLayer,
    LinearLayer, SquaredLayer.
  intros H.
  repeat case_decide; try discriminate H;
    apply layer__init__Ok in H as (Hni & Hno & Hx & Hlin & HW & Hb & w1 & Hact);
    (split; [exact Hni|]); (split; [exact Hno|]); (split; [exact Hx|]);
    (split; [exact HW|]); (split; [exact Hb|]); (split; [by rewrite Hlin, Hx|]);
    rewrite Hlin.
  - exists (@None (list Q)). unfold ret in Hact. by injection Hact as <- _.
  - destruct (default true xargs).
    + apply bind_inv in Hact as (u & w2 & _ & Hact). unfold ret in Hact.
      injection Hact as <- _. by exists (Some (numpy_sign <$> u)).
    + unfold ret in Hact. injection Hact as <- _. by exists (@None (list Q)).
  - exists (@None (list Q)). unfold ret in Hact. by injection Hact as <- _.
  - exists (@None (list Q)). unfold ret in Hact. by injection Hact as <- _.
  - exists (@None (list Q)). unfold ret in Hact. by injection Hact as <- _.
  - exists (@None (list Q)). unfold ret in Hact. by injection Hact as <- _.
  - exists (@None (list Q)). unfold ret in Hact. by injection Hact as <- _.
Qed.

Lemma activation_deterministic ty mask z :
  deterministic z = true -> deterministic (activation_of ty mask z) = true.
Proof.
  intros Hz. unfold activation_of. repeat case_decide; try done.
  destruct mask; cbn; by rewrite ?Hz.
Qed.

Lemma activation_shared_vars ty mask z :
  shared_vars (activation_of ty mask z) = shared_vars z.
Proof.
  unfold activation_of. repeat case_decide; try done.
  destruct mask; cbn; by rewrite ?app_nil_r.
Qed.

Lemma below_app x (stack : list NeuralNetworkLayer.t) extra j :
  (j <= length stack)%nat -> below x (stack ++ extra) j = below x stack j.
Proof.
  intros Hj. destruct j as [|j]; [done|]. cbn. by rewrite lookup_app_l by lia.
Qed.

Lemma previous_Ok x n_in i (built : list NeuralNetworkLayer.t) (w : world D) e n w' :
  i = length built ->
  MLP.previous x n_in i built w = (Ok (e, n), w') ->
  e = below x built i /\ w' = w.
Proof.
  intros -> H. unfold MLP.previous in H. case_decide as Hi.
  - unfold ret in H. injection H as <- _ <-. by rewrite Hi.
  - rewrite last_lookup in H.
    destruct (length built) as [|k] eqn:Hk; [done|]. cbn [Nat.pred] in H. cbn [below].
    destruct (built !! k) as [l|]; [|discriminate H].
    unfold ret in H. by injection H as <- _ <-.
Qed.

Lemma clean_stack_spec x n_in layers noisy todo :
  forall done_ i acc (w : world D) res w',
    layers = (done_ ++ todo)%list -> i = length done_ -> i = length acc ->
    clean_stack_ok x layers noisy acc ->
    MLP.clean_stack x n_in layers noisy i todo acc w = (Ok res, w') ->
    length res = (length acc + length todo)%nat /\ clean_stack_ok x layers noisy res.
Proof.
  induction todo as [|layer rest IH]; intros done_ i acc w res w' Hl Hi Hacc Hok H.
  - cbn in H. unfold ret in H. injection H as <- _. split; [cbn; lia|done].
  - cbn [MLP.clean_stack] in H.
    apply bind_inv in H as ([layer_input layer_n_in] & w1 & Hprev & H).
    apply (previous_Ok _ _ _ _ _ _ _ _ Hacc) in Hprev as [-> ->].
    apply bind_inv in H as (nl & w2 & Hn & H).
    destruct (noisy !! i) as [nl'|] eqn:Hnl; [|discriminate Hn].
    unfold ret in Hn. injection Hn as <- <-.
    apply bind_inv in H as (l & w3 & Htm & H).
    apply type_map_Ok in Htm as (_ & Hno & Hin & HW & Hb & Hlo).
    apply (IH (done_ ++ [layer])%list) in H.
    + destruct H as [Hlen Hres]. split; [|done].
      rewrite Hlen, length_app. cbn. lia.
    + by rewrite <- app_assoc.
    + rewrite length_app. cbn. lia.
    + rewrite length_app. cbn. lia.
    + intros j l' Hj.
      destruct (decide (j < length acc)%nat) as [Hlt|Hge].
      * rewrite lookup_app_l in Hj by done.
        destruct (Hok j l' Hj) as (H1 & H2 & H3). split; [done|]. split; [done|].
        rewrite H3. unfold clean_input. by rewrite below_app by lia.
      * rewrite lookup_app_r in Hj by lia.
        destruct (j - length acc)%nat as [|k] eqn:Hk; [|by destruct k].
        cbn in Hj. injection Hj as <-.
        assert (j = i) as -> by lia.
        split; [|split].
        -- exists nl'. split; [done|]. split; [by apply HW | by apply Hb].
        -- exists layer. split; [|done].
           rewrite Hl, Hi. rewrite lookup_app_r by lia. by rewrite Nat.sub_diag.
        -- rewrite Hin. unfold clean_input. rewrite below_app by lia. done.
Qed.

Lemma noisy_stack_spec x n_in layers p todo :
  forall done_ i acc (w : world D) res w',
    layers = (done_ ++ todo)%list -> i = length done_ -> i = length acc ->
    noisy_stack_ok x layers p acc ->
    MLP.noisy_stack x n_in layers p i todo acc w = (Ok res, w') ->
    length res = (length acc + length todo)%nat /\ noisy_stack_ok x layers p res.
Proof.
  induction todo as [|layer rest IH]; intros done_ i acc w res w' Hl Hi Hacc Hok H.
  - cbn in H. unfold ret in H. injection H as <- _. split; [cbn; lia|done].
  - cbn [MLP.noisy_stack] in H.
    apply bind_inv in H as ([layer_input layer_n_in] & w1 & Hprev & H).
    apply (previous_Ok _ _ _ _ _ _ _ _ Hacc) in Hprev as [-> ->].
    apply bind_inv in H as (layer_input' & w2 & Hdrop & H).
    apply bind_inv in H as (l & w3 & Htm & H).
    apply type_map_Ok in Htm as (_ & Hno & Hin & _ & _ & Hlo).
    apply (IH (done_ ++ [layer])%list) in H.
    + destruct H as [Hlen Hres]. split; [|done].
      rewrite Hlen, length_app. cbn. lia.
    + by rewrite <- app_assoc.
    + rewrite length_app. cbn. lia.
    + rewrite length_app. cbn. lia.
    + intros j l' Hj.
      destruct (decide (j < length acc)%nat) as [Hlt|Hge].
      * rewrite lookup_app_l in Hj by done.
        destruct (Hok j l' Hj) as (H1 & H2). split; [done|].
        unfold noisy_input in *. by rewrite below_app by lia.
      * rewrite lookup_app_r in Hj by lia.
        destruct (j - length acc)%nat as [|k] eqn:Hk; [|by destruct k].
        cbn in Hj. injection Hj as <-.
        assert (j = i) as -> by lia.
        split.
        -- exists layer. split; [|done].
           rewrite Hl, Hi. rewrite lookup_app_r by lia. by rewrite Nat.sub_diag.
        -- unfold noisy_input. rewrite below_app by lia. rewrite Hin.
           case_decide.
           ++ apply bind_inv in Hdrop as (r & w4 & Hr & Hdrop).
              unfold ret in Hdrop. injection Hdrop as <- _.
              unfold random_stream, bind, fresh, ret in Hr. injection Hr as <- _. eauto.
           ++ unfold ret in Hdrop. by injection Hdrop as <- _.
Qed.

Lemma clean_outputs x layers noisy clean :
  clean_stack_ok x layers noisy clean -> deterministic x = true -> shared_vars x = [] ->
  forall j l, clean !! j = Some l ->
    deterministic (NeuralNetworkLayer.output l) = true /\
    shared_vars (NeuralNetworkLayer.output l) ⊆ params noisy.
Proof.
  intros Hok Hx Hsx j. induction j as [j IH] using lt_wf_ind. intros l Hl.
  destruct (Hok j l Hl) as ((nl & Hnl & HW & Hb) & (spec & _ & _ & Hlin & mask & Hout) & Hin).
  assert (Hbelow : deterministic (below x clean j) = true /\
                   shared_vars (below x clean j) ⊆ params noisy).
  { destruct j as [|k]; cbn [below].
    - rewrite Hsx. split; [done|apply list_subseteq_nil].
    - destruct (clean !! k) as [lk|] eqn:Hk; cbn; [apply (IH k); [lia|done]|].
      rewrite Hsx. split; [done|apply list_subseteq_nil]. }
  destruct Hbelow as [Hd Hs].
  assert (Hinput : deterministic (NeuralNetworkLayer.input l) = true /\
                   shared_vars (NeuralNetworkLayer.input l) ⊆ params noisy).
  { rewrite Hin. unfold clean_input. by case_decide. }
  destruct Hinput as [Hd' Hs'].
  rewrite Hout, Hlin. split.
  - apply activation_deterministic. cbn. by rewrite Hd'.
  - rewrite activation_shared_vars. cbn. rewrite HW, Hb.
    apply list_elem_of_lookup_2 in Hnl. unfold params.
    intros i. rewrite !elem_of_app, !elem_of_cons, elem_of_nil.
    intros [[Hi|[->|[]]]|[->|[]]].
    + apply Hs' in Hi. unfold params in Hi. by rewrite elem_of_app in Hi.
    + left. by apply list_elem_of_fmap_2.
    + right. by apply list_elem_of_fmap_2.
Qed.

Lemma make_updates_keys lr mom pg :
  forall (w : world D) ups w',
    NeuralNetworkTrainer.make_updates lr mom pg w = (Ok ups, w') ->
    forall p, p ∈ pg.*1 -> p ∈ ups.*1.
Proof.
  induction pg as [|[param gparam] rest IH]; intros w ups w' H p Hp.
  - by apply elem_of_nil in Hp.
  - cbn [NeuralNetworkTrainer.make_updates] in H.
    apply bind_inv in H as (here & w1 & Hhere & H).
    apply bind_inv in H as (more & w2 & Hmore & H).
    unfold ret in H. injection H as <- _.
    rewrite fmap_app, elem_of_app. cbn in Hp. apply elem_of_cons in Hp as [->|Hp].
    + left. destruct (NeuralNetworkTrainer.truthy mom).
      * apply bind_inv in Hhere as (v & w3 & _ & Hhere).
        apply bind_inv in Hhere as (memory & w4 & _ & Hhere).
        unfold ret in Hhere. injection Hhere as <- _. cbn. set_solver.
      * unfold ret in Hhere. injection Hhere as <- _. cbn. set_solver.
    + right. by eapply IH.
Qed.

Lemma trainer__init__Ok inputs cost layers lr mom (w : world D) f w' :
  NeuralNetworkTrainer.__init__ inputs cost layers lr mom w = (Ok f, w') ->
  fn_output f = cost /\
  forall p, p ∈ params layers -> is_Some (fn_updates f !! p).
Proof.
  unfold NeuralNetworkTrainer.__init__. intros H.
  apply bind_inv in H as (lr_var & w1 & _ & H).
  apply bind_inv in H as (ups & w2 & Hups & H).
  unfold theano_function_pairs in H. case_decide as Hnd; [|discriminate H].
  unfold theano_function in H. destruct (input_names inputs); [|discriminate H].
  injection H as <- _. cbn [fn_output fn_updates default]. split; [done|].
  intros p Hp. apply (elem_of_dom (D:=gset nat)). rewrite dom_list_to_map_L.
  apply elem_of_list_to_set. eapply make_updates_keys; [exact Hups|].
  rewrite fst_zip; [done|]. by rewrite length_fmap.
Qed.

Lemma from_end_Ok {A} (l : list A) k (w : world D) a w' :
  MLP.from_end l k w = (Ok a, w') ->
  l !! (length l - S k)%nat = Some a /\ (k < length l)%nat /\ w' = w.
Proof.
  unfold MLP.from_end. destruct (reverse l !! k) as [a'|] eqn:E; [|discriminate].
  unfold ret. intros [= <- <-]. apply reverse_lookup_Some in E as [? ?]. done.
Qed.

(** What a constructed MLP consists of. *)
Lemma MLP__init__Ok n_in layers p l2 lr mom (w : world D) m w' :
  MLP.__init__ n_in layers p l2 lr mom w = (Ok m, w') ->
  length (MLP.layers m) = length layers /\
  length (MLP.clean_layers m) = length layers /\
  noisy_stack_ok (Input "x") layers p (MLP.layers m) /\
  clean_stack_ok (Input "x") layers (MLP.layers m) (MLP.clean_layers m) /\
  (exists top, MLP.clean_layers m !! (length layers - 1)%nat = Some top /\
     MLP._output m = Compiled ["x"] (Un Argmax1 (NeuralNetworkLayer.output top)) ∅) /\
  (exists under, MLP.clean_layers m !! (length layers - 2)%nat = Some under /\
     MLP.transform m = Compiled ["x"] (Un Max0 (NeuralNetworkLayer.output under)) ∅) /\
  (2 <= length layers)%nat /\
  (forall q, q ∈ params (MLP.layers m) -> is_Some (fn_updates (MLP.trainer m) !! q)).
Proof.
  unfold MLP.__init__. intros H.
  apply bind_inv in H as ([] & w1 & _ & H).
  apply bind_inv in H as (noisy & w2 & Hnoisy & H).
  apply bind_inv in H as (clean & w3 & Hclean & H).
  apply bind_inv in H as (top & w4 & Htop & H).
  apply bind_inv in H as (out & w5 & Hout & H).
  apply bind_inv in H as (under & w6 & Hunder & H).
  apply bind_inv in H as (tr & w7 & Htr & H).
  apply bind_inv in H as (noisy_top & w8 & _ & H).
  apply bind_inv in H as (trainer & w9 & Htrainer & H).
  unfold ret in H. injection H as <- _. cbn.
  apply (noisy_stack_spec _ _ _ _ _ []) in Hnoisy as [Hln Hnok]; [|done|done|done|done].
  apply (clean_stack_spec _ _ _ _ _ []) in Hclean as [Hlc Hcok]; [|done|done|done|done].
  apply from_end_Ok in Htop as (Htop & _ & ->).
  apply from_end_Ok in Hunder as (Hunder & Hlen2 & ->).
  cbn [length Nat.add] in Hlc. rewrite Hlc in Htop, Hunder, Hlen2.
  unfold theano_function in Hout, Htr. cbn in Hout, Htr.
  injection Hout as <- _. injection Htr as <- _.
  apply trainer__init__Ok in Htrainer as [_ Hkeys].
  split; [exact Hln|]. split; [exact Hlc|]. split; [exact Hnok|]. split; [exact Hcok|].
  split; [by exists top|]. split; [by exists under|]. split; [lia|]. exact Hkeys.
Qed.

End Layers.
End MLPFacts.

Section C7C8.
Import MLPVocabulary MLPFacts.
Context {D : Type} `{B : Backend D}.

Lemma inference_functions n_in layers p l2 lr mom (w : world D) m w' f :
  MLP.__init__ n_in layers p l2 lr mom w = (Ok m, w') ->
  f = MLP._output m \/ f = MLP.transform m ->
  fn_inputs f = ["x"] /\ fn_updates f = ∅ /\
  deterministic (fn_output f) = true /\
  shared_vars (fn_output f) ⊆ params (MLP.layers m).
Proof.
  intros Hinit Hf.
  apply MLP__init__Ok in Hinit
    as (_ & _ & _ & Hcok & (top & Htop & Hout) & (under & Hunder & Htr) & _ & _).
  destruct Hf as [-> | ->].
  - rewrite Hout. cbn. split; [done|]. split; [done|].
    by apply (clean_outputs _ _ _ _ Hcok eq_refl eq_refl _ _ Htop).
  - rewrite Htr. cbn. split; [done|]. split; [done|].
    by apply (clean_outputs _ _ _ _ Hcok eq_refl eq_refl _ _ Hunder).
Qed.

(** C7. The functions [_output] and [transform] of a constructed MLP are
    compiled from graphs in which no random stream occurs (the sign mask of
    a rectifier is a constant of the graph) and they update nothing: two
    calls in a row on the same arguments return the same result, the shared
    variables are left as they are, and the result is the same in any state
    in which the shared variables have the same values. *)
Theorem clean_inference_deterministic n_in layers p l2 lr mom (w : world D) m w' f :
  MLP.__init__ n_in layers p l2 lr mom w = (Ok m, w') ->
  f = MLP._output m \/ f = MLP.transform m ->
  deterministic (fn_output f) = true /\
  fn_updates f = ∅ /\
  forall args u,
    (call_function f args (call_function f args u).2).1 = (call_function f args u).1 /\
    shared (call_function f args u).2 = shared u /\
    forall u', shared u' = shared u ->
      (call_function f args u').1 = (call_function f args u).1.
Proof.
  intros Hinit Hf.
  destruct (inference_functions _ _ _ _ _ _ _ _ _ _ Hinit Hf) as (_ & Hu & Hd & _).
  split; [exact Hd|]. split; [exact Hu|]. intros args u.
  destruct (call_deterministic f args u u Hd Hu eq_refl) as [_ Hs].
  split; [|split; [exact Hs|]].
  - by apply call_deterministic.
  - intros u' Hu'. by apply call_deterministic.
Qed.


End C7C8.

Import Shapes ExampleMLP.

Lemma clean_inference_deterministic_witness :
  match built with
  | (Ok m, _) => deterministic (fn_output (MLP._output m)) = true
  | (Raise _, _) => False
  end.
Proof.
  unfold built. destruct (MLP.__init__ _ _ _ _ _ _ _) as [[m|e] w'] eqn:E.
  - exact (proj1 (clean_inference_deterministic _ _ _ _ _ _ _ _ _ _ E (or_introl eq_refl))).
  - vm_compute in E. discriminate E.
Defined.


(** ** MLP: saving and loading the parameters *)

Module SaveFacts.
Import MLPVocabulary.

Section Names.

Lemma list_ascii_app (a b : string) :
  String.list_ascii_of_string (a +:+ b)
  = (String.list_ascii_of_string a ++ String.list_ascii_of_string b)%list.
Proof.
  induction a as [|c a IH]; [done|].
  change (c :: String.list_ascii_of_string (a +:+ b)
          = c :: (String.list_ascii_of_string a ++ String.list_ascii_of_string b)).
  by rewrite IH.
Qed.

Lemma append_inj_l (a b c : string) : a +:+ c = b +:+ c -> a = b.
Proof.
  intros H. apply (f_equal String.list_ascii_of_string) in H.
  rewrite !list_ascii_app in H. apply app_inv_tail in H.
  rewrite <- (String.string_of_list_ascii_of_string a),
    <- (String.string_of_list_ascii_of_string b).
  by rewrite H.
Qed.

Lemma W_file_inj i j : MLP.W_file i = MLP.W_file j -> i = j.
Proof.
  unfold MLP.W_file. intros H. apply (inj (String.app "W_")) in H.
  apply append_inj_l in H. by apply (inj pretty) in H.
Qed.

Lemma b_file_inj i j : MLP.b_file i = MLP.b_file j -> i = j.
Proof.
  unfold MLP.b_file. intros H. apply (inj (String.app "b_")) in H.
  apply append_inj_l in H. by apply (inj pretty) in H.
Qed.

Lemma W_file_b_file i j : MLP.W_file i <> MLP.b_file j.
Proof. unfold MLP.W_file, MLP.b_file. intros H. by injection H. Qed.

End Names.

Section Rename.
Context {D : Type} `{B : Backend D}.

Lemma rename_id e : deterministic e = true -> rename (fun q => q) e = e.
Proof.
  induction e as [x|i|z|q|v|o a IHa|o a IHa b IHb|v IHv i IHi x IHx|k s p IHp|c IHc wrt cc
                  |out h_t IHh y_t IHy xs IHxs h0 IH0];
    cbn [deterministic rename]; intros Hd; try done.
  - by rewrite IHa.
  - apply andb_prop in Hd as [Ha Hb]. by rewrite IHa, IHb.
  - apply andb_prop in Hd as [Hd Hx]. apply andb_prop in Hd as [Hv Hi].
    by rewrite IHv, IHi, IHx.
  - apply andb_prop in Hd as [Hd H0]. apply andb_prop in Hd as [Hd Hxs].
    apply andb_prop in Hd as [Hh Hy]. by rewrite IHh, IHy, IHxs, IH0.
Qed.

(** A graph without randomness evaluates as its renaming does where the
    renamed variables hold the same values. *)
Lemma eval_rename s e :
  deterministic e = true ->
  forall env (σ σ' : gmap nat D) ρ ρ',
    (forall q, q ∈ shared_vars e -> σ' !! q = σ !! s q) ->
    eval env σ ρ (rename s e) = eval env σ' ρ' e.
Proof.
  induction e as [x|i|z|q|v|o a IHa|o a IHa b IHb|v IHv i IHi x IHx|k st p IHp|c IHc wrt cc
                  |out h_t IHh y_t IHy xs IHxs h0 IH0];
    cbn [deterministic rename shared_vars]; intros Hd env σ σ' ρ ρ' Hσ; try done.
  - cbn [eval]. symmetry. apply Hσ. apply list_elem_of_here.
  - cbn [eval]. by rewrite (IHa Hd env σ σ' ρ ρ' Hσ).
  - apply andb_prop in Hd as [Ha Hb]. cbn [eval].
    rewrite (IHa Ha env σ σ' ρ ρ'), (IHb Hb env σ σ' ρ ρ'); [done|..];
      intros q Hq; apply Hσ; rewrite elem_of_app; auto.
  - apply andb_prop in Hd as [Hd Hx]. apply andb_prop in Hd as [Hv Hi]. cbn [eval].
    rewrite (IHv Hv env σ σ' ρ ρ'), (IHi Hi env σ σ' ρ ρ'), (IHx Hx env σ σ' ρ ρ');
      [done|..]; intros q Hq; apply Hσ; rewrite !elem_of_app; auto.
  - apply andb_prop in Hd as [Hd H0]. apply andb_prop in Hd as [Hd Hxs].
    apply andb_prop in Hd as [Hh Hy]. cbn [eval].
    rewrite (IHxs Hxs env σ σ' ρ ρ'), (IH0 H0 env σ σ' ρ ρ');
      [|intros q Hq; apply Hσ; rewrite !elem_of_app; auto..].
    destruct (eval env σ' ρ' xs) as [xs'|]; [|done]. cbn.
    destruct (unstack xs') as [rows|]; [|done]. cbn.
    destruct (eval env σ' ρ' h0) as [h0'|]; [|done]. cbn.
    erewrite scan_rows_ext; [reflexivity|].
    intros x h. cbn.
    rewrite (IHh Hh _ σ σ' ρ ρ'), (IHy Hy _ σ σ' ρ ρ'); [done|..];
      intros q Hq; apply Hσ; rewrite !elem_of_app; auto.
Qed.

End Rename.

Section SaveLoad.
Context {D : Type} `{B : Backend D}.

Lemma elem_of_params_cons q (l : NeuralNetworkLayer.t) rest :
  q ∈ params (l :: rest) <->
  q = NeuralNetworkLayer.W l \/ q = NeuralNetworkLayer.b l \/ q ∈ params rest.
Proof.
  unfold params. cbn [fmap list_fmap]. rewrite !elem_of_app, !elem_of_cons.
  tauto.
Qed.

(** The loop of [save], from layer number [k] on. *)
Lemma save_steps (ls : list NeuralNetworkLayer.t) k (u u1 : world D) :
  for_each (zip (seq k (length ls)) ls) (fun il =>
    do v <~ get_value (NeuralNetworkLayer.W il.2) ;;
    do _ <~ numpy_save (MLP.W_file il.1) v ;;
    do v <~ get_value (NeuralNetworkLayer.b il.2) ;;
    numpy_save (MLP.b_file il.1) v) u = (Ok tt, u1) ->
  shared u1 = shared u /\
  (forall i l, ls !! i = Some l ->
     is_Some (shared u !! NeuralNetworkLayer.W l) /\
     is_Some (shared u !! NeuralNetworkLayer.b l) /\
     files u1 !! MLP.W_file (k + i) = shared u !! NeuralNetworkLayer.W l /\
     files u1 !! MLP.b_file (k + i) = shared u !! NeuralNetworkLayer.b l) /\
  (forall name,
     (forall i, (i < length ls)%nat ->
        name <> MLP.W_file (k + i) /\ name <> MLP.b_file (k + i)) ->
     files u1 !! name = files u !! name).
Proof.
  revert k u. induction ls as [|l ls IH]; intros k u.
  - cbn. intros [= <-]. split; [done|]. split; [|done]. intros i l Hl. by destruct i.
  - cbn [length seq zip zip_with for_each]. unfold bind at 1. cbn [fst snd].
    unfold bind, get_value, numpy_save.
    destruct (shared u !! NeuralNetworkLayer.W l) as [vW|] eqn:HW; [|discriminate].
    cbn.
    destruct (shared u !! NeuralNetworkLayer.b l) as [vb|] eqn:Hb; [|discriminate].
    cbn. intros Hrest. apply IH in Hrest as (Hs & Hfiles & Hframe). cbn in Hs, Hfiles, Hframe.
    split; [exact Hs|]. split.
    + intros [|i] l' Hl'.
      * injection Hl' as <-. rewrite HW, Hb. split; [done|]. split; [done|].
        rewrite !Hframe.
        -- rewrite Nat.add_0_r. split; [|by simplify_map_eq].
           rewrite lookup_insert_ne by (intros H; by apply eq_sym, W_file_b_file in H).
           by simplify_map_eq.
        -- intros i Hi. split; [apply not_eq_sym, W_file_b_file|].
           intros H%b_file_inj. lia.
        -- intros i Hi. split; [|apply W_file_b_file].
           intros H%W_file_inj. lia.
      * destruct (Hfiles i l' Hl') as (H1 & H2 & H3 & H4).
        replace (k + S i)%nat with (S k + i)%nat by lia. done.
    + intros name Hname. rewrite Hframe.
      * destruct (Hname 0%nat ltac:(cbn; lia)) as [HnW Hnb]. rewrite Nat.add_0_r in HnW, Hnb.
        by rewrite !lookup_insert_ne by done.
      * intros i Hi. replace (S (k + i))%nat with (k + S i)%nat by lia.
        apply Hname. cbn. lia.
Qed.

(** The loop of [load], from layer number [k] on: every parameter gets the
    value [target] names for it when the files hold those values. *)
Lemma load_steps (ls : list NeuralNetworkLayer.t) k (target : nat -> option D) (u2 : world D) :
  (forall i l, ls !! i = Some l ->
     is_Some (target (NeuralNetworkLayer.W l)) /\
     is_Some (target (NeuralNetworkLayer.b l)) /\
     files u2 !! MLP.W_file (k + i) = target (NeuralNetworkLayer.W l) /\
     files u2 !! MLP.b_file (k + i) = target (NeuralNetworkLayer.b l)) ->
  exists u3,
    for_each (zip (seq k (length ls)) ls) (fun il =>
      do v <~ numpy_load (MLP.W_file il.1) ;;
      do _ <~ set_value (NeuralNetworkLayer.W il.2) v ;;
      do v <~ numpy_load (MLP.b_file il.1) ;;
      set_value (NeuralNetworkLayer.b il.2) v) u2 = (Ok tt, u3) /\
    files u3 = files u2 /\
    (forall q, q ∈ params ls -> shared u3 !! q = target q) /\
    (forall q, q ∉ params ls -> shared u3 !! q = shared u2 !! q).
Proof.
  revert k u2. induction ls as [|l ls IH]; intros k u2 Hfiles.
  - exists u2. split; [done|]. split; [done|]. split; [|done].
    intros q Hq. unfold params in Hq. cbn in Hq. by apply elem_of_nil in Hq.
  - cbn [length seq zip zip_with for_each]. unfold bind at 1. cbn [fst snd].
    unfold bind, numpy_load, set_value.
    destruct (Hfiles 0%nat l eq_refl) as ([vW HvW] & [vb Hvb] & HW & Hb).
    rewrite Nat.add_0_r in HW, Hb. rewrite HW, HvW. cbn. rewrite Hb, Hvb. cbn.
    match goal with |- exists u3, for_each _ _ ?u = _ /\ _ => set (u2' := u) end.
    destruct (IH (S k) u2') as (u3 & Hrun & Hf & Hin & Hout).
    { intros i l' Hl'. destruct (Hfiles (S i) l' Hl') as (H1 & H2 & H3 & H4).
      replace (k + S i)%nat with (S k + i)%nat in H3, H4 by lia. done. }
    exists u3. split; [exact Hrun|]. split; [by rewrite Hf|]. split.
    + intros q Hq. destruct (decide (q ∈ params ls)) as [Hrest|Hrest]; [by apply Hin|].
      rewrite (Hout q Hrest). apply elem_of_params_cons in Hq as [-> | [-> | Hq]]; [..|done].
      * unfold u2'. cbn.
        destruct (decide (NeuralNetworkLayer.b l = NeuralNetworkLayer.W l)) as [E|E].
        -- rewrite E in *. by simplify_map_eq.
        -- by simplify_map_eq.
      * unfold u2'. cbn. by simplify_map_eq.
    + intros q Hq. pose proof (elem_of_params_cons q l ls) as Hc.
      rewrite Hout by tauto. unfold u2'. cbn.
      rewrite !lookup_insert_ne; [done|intros E; apply Hq, Hc; auto..].
Qed.

End SaveLoad.
End SaveFacts.

Section C6.
Import MLPVocabulary MLPFacts SaveFacts.
Context {D : Type} `{B : Backend D}.

(** A run is the pair of its result and its final state. *)
Lemma run_eta {A} (p : result A * world D) a : p.1 = a -> p = (a, p.2).
Proof. destruct p. cbn. by intros ->. Qed.

(** A function with one input and no updates returns what its graph
    evaluates to. *)
Lemma call_function_value (f : compiled) (args : list D) (u : world D) :
  fn_updates f = ∅ ->
  (call_function f args u).1
  = if bool_decide (length args = length (fn_inputs f)) then
      match eval (call_env f args) (shared u) (rng_state u) (fn_output f) with
      | Some v => Ok v
      | None => Raise ValueError
      end
    else Raise TypeError.
Proof.
  intros Hu. unfold call_function. fold (call_env f args). rewrite Hu.
  case_bool_decide; [|done].
  destruct (eval _ _ _ (fn_output f)); [|done].
  by rewrite bool_decide_eq_true_2 by apply map_Forall_empty.
Qed.

(** C6, amended.  [save] writes the value of [W] and of [b] of layer [i] to the
    files W_<i>.npy and b_<i>.npy and changes no shared variable.  [load], run
    by a model [m'] of the same layer structure where these files are as
    [save] left them, succeeds and gives every parameter of [m'] the value
    the corresponding parameter of the saved model had; the other shared
    variables keep their values.  After it [_output] and [transform] of [m']
    return on every input what those of the saved model returned when it was
    saved, provided the graph of the saved model is the graph of [m'] with
    the parameters renamed accordingly: this holds for the saved model
    itself, and between two models whose rectifier layers have the same
    sign masks (the masks are drawn when a model is built and are not
    saved). *)
Theorem save_load_round_trip n_in layers p l2 lr mom p' l2' lr' mom'
    (w w' : world D) m w0 m' w0' (s : nat -> nat) (u u1 : world D) :
  MLP.__init__ n_in layers p l2 lr mom w = (Ok m, w0) ->
  MLP.__init__ n_in layers p' l2' lr' mom' w' = (Ok m', w0') ->
  (forall i l', MLP.layers m' !! i = Some l' ->
     exists l, MLP.layers m !! i = Some l /\
               NeuralNetworkLayer.W l = s (NeuralNetworkLayer.W l') /\
               NeuralNetworkLayer.b l = s (NeuralNetworkLayer.b l')) ->
  MLP.save m u = (Ok tt, u1) ->
  shared u1 = shared u /\
  (forall i l, MLP.layers m !! i = Some l ->
     files u1 !! MLP.W_file i = shared u !! NeuralNetworkLayer.W l /\
     files u1 !! MLP.b_file i = shared u !! NeuralNetworkLayer.b l) /\
  forall u2 : world D,
    (forall i, (i < length layers)%nat ->
       files u2 !! MLP.W_file i = files u1 !! MLP.W_file i /\
       files u2 !! MLP.b_file i = files u1 !! MLP.b_file i) ->
    exists u3,
      MLP.load m' u2 = (Ok tt, u3) /\
      (forall q, q ∈ params (MLP.layers m') -> shared u3 !! q = shared u !! s q) /\
      (forall q, q ∉ params (MLP.layers m') -> shared u3 !! q = shared u2 !! q) /\
      forall pick : MLP.t -> compiled,
        pick = MLP._output \/ pick = MLP.transform ->
        fn_output (pick m) = rename s (fn_output (pick m')) ->
        forall args,
          (call_function (pick m') args u3).1 = (call_function (pick m) args u).1.
Proof.
  intros Hm Hm' Hs Hsave.
  pose proof (MLP__init__Ok _ _ _ _ _ _ _ _ _ Hm) as (Hlen & _).
  pose proof (MLP__init__Ok _ _ _ _ _ _ _ _ _ Hm') as (Hlen' & _).
  unfold MLP.save, MLP.enumerate in Hsave.
  apply save_steps in Hsave as (Hshared & Hfiles & _).
  split; [exact Hshared|]. split.
  { intros i l Hl. destruct (Hfiles i l Hl) as (_ & _ & HW & Hb). done. }
  intros u2 Hu2.
  destruct (load_steps (MLP.layers m') 0 (fun q => shared u !! s q) u2)
    as (u3 & Hload & _ & Hin & Hout).
  { intros i l' Hl'. destruct (Hs i l' Hl') as (l & Hl & HW & Hb).
    destruct (Hfiles i l Hl) as (HsW & Hsb & HfW & Hfb).
    assert (Hi : (i < length layers)%nat).
    { rewrite <- Hlen. by eapply lookup_lt_Some. }
    destruct (Hu2 i Hi) as [HuW Hub]. cbn [Nat.add] in *.
    rewrite <- HW, <- Hb. rewrite HuW, Hub. done. }
  exists u3. split; [exact Hload|]. split; [exact Hin|]. split; [exact Hout|].
  intros pick Hpick Hgraph args.
  assert (Hf : pick m = MLP._output m \/ pick m = MLP.transform m)
    by (destruct Hpick as [-> | ->]; auto).
  assert (Hf' : pick m' = MLP._output m' \/ pick m' = MLP.transform m')
    by (destruct Hpick as [-> | ->]; auto).
  destruct (inference_functions _ _ _ _ _ _ _ _ _ _ Hm Hf) as (Hi & Hu & _ & _).
  destruct (inference_functions _ _ _ _ _ _ _ _ _ _ Hm' Hf') as (Hi' & Hu' & Hd' & Hv').
  rewrite !call_function_value by done.
  unfold call_env. rewrite Hi, Hi', Hgraph.
  rewrite (eval_rename s _ Hd' _ (shared u) (shared u3) (rng_state u) (rng_state u3)); [done|].
  intros q Hq. apply Hin. by apply Hv'.
Qed.

End C6.



Section SaveExample.
Import Shapes Example ExampleSave.

Lemma save_load_round_trip_witness :
  exists m m' u1 u3,
    first.1 = Ok m /\ second.1 = Ok m' /\
    MLP.save m second.2 = (Ok tt, u1) /\
    MLP.load m' u1 = (Ok tt, u3) /\
    forall args,
      (call_function (MLP._output m') args u3).1
      = (call_function (MLP._output m) args second.2).1.
Proof.
  destruct first.1 as [m|e] eqn:E1; [|vm_compute in E1; discriminate E1].
  destruct second.1 as [m'|e] eqn:E2; [|vm_compute in E2; discriminate E2].
  pose proof (run_eta first _ E1) as Hm.
  pose proof (run_eta second _ E2) as Hm'.
  pose proof E1 as L1. vm_compute in L1. injection L1 as L1.
  pose proof E2 as L2. vm_compute in L2. injection L2 as L2.
  assert (Hsave : (MLP.save m second.2).1 = Ok tt)
    by (rewrite <- L1; vm_compute; reflexivity).
  apply run_eta in Hsave.
  assert (Hs : forall i l', MLP.layers m' !! i = Some l' ->
     exists l, MLP.layers m !! i = Some l /\
               NeuralNetworkLayer.W l = earlier (NeuralNetworkLayer.W l') /\
               NeuralNetworkLayer.b l = earlier (NeuralNetworkLayer.b l')).
  { rewrite <- L1, <- L2.
    intros [|[|[|i]]] l' Hl'; cbn in Hl'; [injection Hl' as <-..|discriminate Hl'];
      (eexists; split; [reflexivity|split; reflexivity]). }
  destruct (save_load_round_trip _ _ _ _ _ _ _ _ _ _ _ _ _ _ _ _ earlier _ _ Hm Hm' Hs Hsave)
    as (_ & _ & Hload).
  destruct (Hload _ (fun i _ => conj eq_refl eq_refl)) as (u3 & Hl & _ & _ & Hcalls).
  exists m, m', (MLP.save m second.2).2, u3.
  split; [reflexivity|]. split; [reflexivity|].
  split; [exact Hsave|]. split; [exact Hl|].
  apply (Hcalls MLP._output (or_introl eq_refl)).
  rewrite <- L1, <- L2. reflexivity.
Defined.

End SaveExample.

Section Masks.
Import Arrays MaskVocabulary.
Open Scope R_scope.

Section NetValue.
Context (O : oracle).
(** The inference graph of a network with one masked rectifier unit and two
    softmax outputs, on the weights 1 and (1, -1): the answer is the sign of
    the mask. *)
Lemma net_value (q : Q) (env : gmap string tensor) (σ : gmap nat tensor) ρ W0 b0 W1 b1 :
  env !! "x" = Some (TMat 1 [[1]]) ->
  σ !! W0 = Some (TMat 1 [[1]]) -> σ !! b0 = Some (TVec [0]) ->
  σ !! W1 = Some (TMat 2 [[1; -1]]) -> σ !! b1 = Some (TVec [0; 0]) ->
  eval (B := backend O) env σ ρ (inference [q] W0 b0 W1 b1)
  = Some (TInts [if Rlt_dec (Q2R q) 0 then 1%Z else 0%Z]).
Proof.
  intros Hx HW0 Hb0 HW1 Hb1. unfold inference. cbn [eval].
  rewrite Hx, HW0, Hb0, HW1, Hb1.
  repeat (first [rewrite decide_True by done
                |progress cbn -[Rmax Rlt_dec exp Rplus Rmult Rdiv Q2R IZR]]).
  replace (Rmax (1 * 1 + 0 + 0) 0) with 1
    by (unfold Rmax; destruct (Rle_dec _ _); lra).
  set (a := exp (Q2R q * 1 * 1 + 0 + 0)). set (b := exp (Q2R q * 1 * -1 + 0 + 0)).
  assert (Ha : 0 < a) by apply exp_pos. assert (Hb : 0 < b) by apply exp_pos.
  assert (Hs : 0 < / (a + (b + 0))) by (apply Rinv_0_lt_compat; lra).
  destruct (Rlt_dec (Q2R q) 0) as [Hq|Hq], (Rlt_dec _ _) as [Hab|Hab]; try reflexivity;
    exfalso.
  - apply Hab. unfold Rdiv. apply Rmult_lt_compat_r; [exact Hs|].
    apply exp_increasing. lra.
  - unfold Rdiv in Hab. apply Rmult_lt_reg_r in Hab; [|exact Hs].
    apply exp_lt_inv in Hab. lra.
Qed.
End NetValue.

Import ExampleMasks.


(** Saved by one model and loaded by another of the same structure, the
    parameters give another answer on the input [[1]]: the first model has
    the sign mask +1 and answers 0, the second has the mask -1 and answers 1. *)
Lemma sign_masks_not_saved :
  exists m m' u1 u3,
    first.1 = Ok m /\ second.1 = Ok m' /\
    MLP.save m second.2 = (Ok tt, u1) /\
    MLP.load m' u1 = (Ok tt, u3) /\
    (call_function (MLP._output m) [x] second.2).1 = Ok (TInts [0%Z]) /\
    (call_function (MLP._output m') [x] u3).1 = Ok (TInts [1%Z]) /\
    (call_function (MLP._output m') [x] u3).1
    <> (call_function (MLP._output m) [x] second.2).1.
Proof.
  destruct first.1 as [m|e] eqn:E1; [|vm_compute in E1; discriminate E1].
  destruct second.1 as [m'|e] eqn:E2; [|vm_compute in E2; discriminate E2].
  pose proof E1 as L1. vm_compute in L1. injection L1 as L1.
  pose proof E2 as L2. vm_compute in L2. injection L2 as L2.
  assert (Hsave : (MLP.save m second.2).1 = Ok tt)
    by (rewrite <- L1; vm_compute; reflexivity).
  assert (Hload : (MLP.load m' (MLP.save m second.2).2).1 = Ok tt)
    by (rewrite <- L1, <- L2; vm_compute; reflexivity).
  exists m, m', (MLP.save m second.2).2, (MLP.load m' (MLP.save m second.2).2).2.
  split; [reflexivity|]. split; [reflexivity|].
  split; [by destruct (MLP.save m second.2); cbn in Hsave; subst|].
  split; [by destruct (MLP.load m' _); cbn in Hload; subst|].
  assert (Hg : fn_inputs (MLP._output m) = ["x"] /\ fn_updates (MLP._output m) = ∅ /\
               fn_output (MLP._output m) = inference [1%Q] 0 1 3 4)
    by (rewrite <- L1; repeat split; vm_compute; reflexivity).
  assert (Hg' : fn_inputs (MLP._output m') = ["x"] /\ fn_updates (MLP._output m') = ∅ /\
                fn_output (MLP._output m') = inference [(-1)%Q] 6 7 9 10)
    by (rewrite <- L2; repeat split; vm_compute; reflexivity).
  destruct Hg as (Hi & Hu & Ho), Hg' as (Hi' & Hu' & Ho').
  rewrite !call_function_value by done. unfold call_env.
  rewrite Hi, Hi', Ho, Ho'. cbn [length]. rewrite !bool_decide_eq_true_2 by done.
  rewrite !net_value by (rewrite <- ?L1, <- ?L2; vm_compute; reflexivity).
  assert (Q1 : Q2R 1 = 1) by (unfold Q2R; cbn -[Rinv]; lra).
  assert (Q2 : Q2R (-1) = -1) by (unfold Q2R; cbn -[Rinv]; lra).
  assert (H0 : (if Rlt_dec (Q2R 1) 0 then 1%Z else 0%Z) = 0%Z)
    by (clear -Q1; rewrite Q1; destruct (Rlt_dec _ _) as [H|H]; [exfalso; lra|done]).
  assert (H1 : (if Rlt_dec (Q2R (-1)) 0 then 1%Z else 0%Z) = 1%Z)
    by (clear -Q2; rewrite Q2; destruct (Rlt_dec _ _) as [H|H]; [done|exfalso; apply H; lra]).
  rewrite H0, H1. split; [done|]. split; [done|]. discriminate.
Qed.

End Masks.

(** ** RNN: clipped gradient steps *)

Module RNNFacts.
Import RNNVocabulary.

Section Graph.
Context {D : Type} `{B : Backend D}.



End Graph.

Section Values.
Import Arrays.
Open Scope R_scope.








End Values.
End RNNFacts.

Section C9.
Import Arrays RNNVocabulary RNNFacts.
Open Scope R_scope.
Context (O : oracle).


End C9.

Section RNNExample.
Import Arrays RNNVocabulary ExampleRNN.
Open Scope R_scope.


End RNNExample.

(** ** The decorator and the queries on an example model *)

Import Shapes Example.

Lemma symbolic_compiles_once_witness :
  let m := symbolic obj [Input "v"] "mean_h" BinaryRBM.mean_h_ rbm0 in
  let v := Conc (SArr [2; 1]%nat) in
  compilations (invocations m [[v]; [v]] (m [v] w_rbm0).2) = 1%nat.
Proof.
  intros m v.
  assert (Hfree : attrs w_rbm0 !! (obj rbm0, "__" ++ "mean_h") = None)
    by (vm_compute; reflexivity).
  destruct (symbolic_compiles_once obj [Input "v"] "mean_h" BinaryRBM.mean_h_ rbm0
              ["v"] _ w_rbm0 w_rbm0 eq_refl Hfree eq_refl eq_refl eq_refl) as (_ & _ & H).
  refine (proj2 (H (SArr [2; 1]%nat) [] [[v]; [v]] _)).
  repeat constructor; by eexists _, _.
Defined.


(** * Further properties of the code *)

(** ** The decorator when a call fails *)

Section DecoratorEdges.
Context {D : Type} `{B : Backend D}.



End DecoratorEdges.

Section NoChainStep.
Context {D : Type} `{B : Backend D}.

Lemma fit_body_K0 (fit_ : rbm -> list (value D) -> M D res) self v (w : world D) :
  fit_ = BinaryRBM._fit_ \/ fit_ = GaussianRBM._fit_ ->
  K self = 0%nat ->
  fit_ self [Sym v] w = (Raise NameError, w).
Proof.
  intros [-> | ->] HK.
  - unfold BinaryRBM._fit_, unary. by rewrite HK.
  - unfold GaussianRBM._fit_, unary. by rewrite HK.
Qed.

(** X2. With K = 0 no training step can be built in either RBM class: the
    loop that assigns v_neg never runs, so [_fit] raises NameError, called
    symbolically or with data.  The failed call changes nothing (no shared
    variable, no attribute, no compilation), so the cache slot stays free
    and every later call fails in the same way. *)
Theorem no_training_step_without_chain_step (fit_ : rbm -> list (value D) -> M D res)
    (self : rbm) (w : world D) :
  fit_ = BinaryRBM._fit_ \/ fit_ = GaussianRBM._fit_ ->
  K self = 0%nat ->
  let fit := symbolic obj [Input "v_pos"] "_fit" fit_ self in
  (forall v, fit [Sym v] w = (Raise NameError, w)) /\
  (forall a rest,
     attrs w !! (obj self, "__" ++ "_fit") = None ->
     fit (Conc a :: rest) w = (Raise NameError, w)).
Proof.
  intros Hfit HK fit. split.
  - intros v. unfold fit. rewrite symbolic_Sym. unfold bind.
    by rewrite (fit_body_K0 fit_ self v w Hfit HK).
  - intros a rest Hfree. unfold fit.
    apply symbolic_first_Raise; [exact Hfree|].
    by apply fit_body_K0.
Qed.

End NoChainStep.

Section DecoratorExamples.
Import Shapes Example.


Lemma no_training_step_without_chain_step_witness :
  let self := Rbm 0 3 1 2 3 0 (1 # 10) 4 2 4 in
  BinaryRBM._fit self [Conc (SArr [2; 1]%nat)] w_rbm0 = (Raise NameError, w_rbm0).
Proof.
  intros self.
  refine (proj2 (no_training_step_without_chain_step BinaryRBM._fit_ self w_rbm0
                   (or_introl eq_refl) eq_refl) (SArr [2; 1]%nat) [] _).
  vm_compute. reflexivity.
Defined.

End DecoratorExamples.

(** ** The minibatches of an epoch *)

Section Minibatches.
Context {A : Type}.
Implicit Types l : list A.

Lemma NoDup_omap {X Y} (f : X -> option Y) (xs : list X) :
  (forall x y z, f x = Some z -> f y = Some z -> x = y) ->
  NoDup xs -> NoDup (omap f xs).
Proof.
  intros Hinj. induction 1 as [|x xs Hx Hnd IH]; cbn; [constructor|].
  destruct (f x) as [z|] eqn:Hz; [|exact IH].
  constructor; [|exact IH].
  intros (y & Hy & Hfy)%list_elem_of_omap.
  by rewrite (Hinj x y z Hz Hfy) in Hx.
Qed.

Lemma omap_omap {X Y Z} (g : X -> option Y) (f : Y -> option Z) (xs : list X) :
  omap f (omap g xs) = omap (fun x => g x ≫= f) xs.
Proof.
  induction xs as [|x xs IH]; [done|]. cbn. destruct (g x) as [y|]; cbn; [|exact IH].
  destruct (f y); by rewrite IH.
Qed.

Lemma omap_bind {X Y Z} (g : X -> list Y) (f : Y -> option Z) (xs : list X) :
  omap f (xs ≫= g) = concat ((fun x => omap f (g x)) <$> xs).
Proof.
  induction xs as [|x xs IH]; [done|]. cbn. by rewrite omap_app, IH.
Qed.

Lemma omap_lookup_seq l : omap (fun i => l !! i) (seq 0 (length l)) = l.
Proof.
  induction l as [|x l IH]; [done|].
  cbn [length seq omap list_omap lookup list_lookup]. cbn. f_equal.
  rewrite <- fmap_S_seq. rewrite <- IH at 2.
  clear IH. induction (seq 0 (length l)) as [|i ks IH]; [done|].
  cbn. destruct (l !! i); by rewrite IH.
Qed.

Lemma slice_step_stride l j n :
  slice_step l j n = omap (fun k => l !! k) (stride (length l) n j).
Proof.
  unfold slice_step, stride. rewrite omap_omap. apply list_omap_ext.
  apply Forall2_same_length_lookup_2; [done|].
  intros i x y Hx Hy. rewrite Hx in Hy. injection Hy as <-.
  case_decide as Hlt; cbn; [done|].
  apply lookup_ge_None_2. lia.
Qed.

Lemma strides_cover N n :
  (1 <= n)%nat -> seq 0 n ≫= stride N n ≡ₚ seq 0 N.
Proof.
  intros Hn. apply NoDup_Permutation.
  - apply NoDup_bind; [| |apply NoDup_seq].
    + intros j1 j2 k Hj1 Hj2 H1 H2.
      apply elem_of_seq in Hj1, Hj2.
      apply list_elem_of_omap in H1 as (i1 & _ & H1), H2 as (i2 & _ & H2).
      case_decide; [|discriminate]. case_decide; [|discriminate].
      injection H1 as <-. injection H2 as H2.
      assert (E : ((j1 + i1 * n) mod n = (j2 + i2 * n) mod n)%nat) by (by rewrite H2).
      rewrite !Nat.Div0.mod_add in E. rewrite !Nat.mod_small in E by lia. done.
    + intros j Hj. apply NoDup_omap; [|apply NoDup_seq].
      intros i1 i2 k H1 H2.
      case_decide; [|discriminate]. case_decide; [|discriminate].
      injection H1 as <-. injection H2 as H2. nia.
  - apply NoDup_seq.
  - intros k. rewrite list_elem_of_bind, elem_of_seq. split.
    + intros (j & (i & _ & Hi)%list_elem_of_omap & _).
      case_decide; [|discriminate]. injection Hi as <-. lia.
    + intros [_ Hk]. exists (k mod n)%nat. split.
      * apply list_elem_of_omap. exists (k / n)%nat.
        pose proof (Nat.div_mod_eq k n) as E.
        pose proof (Nat.Div0.div_le_upper_bound k n k) as Hd. split.
        -- apply elem_of_seq. split; [lia|]. cbn.
           assert (k / n <= k)%nat by (apply Nat.Div0.div_le_upper_bound; nia). lia.
        -- rewrite decide_True by lia. f_equal. lia.
      * apply elem_of_seq. split; [lia|]. cbn. apply Nat.mod_upper_bound. lia.
Qed.

(** X3. The minibatches of an epoch, [inds[j::n]] for j = 0, ..., n - 1,
    are a partition of the rows: together they hold every row number of
    [inds] exactly once (as often as [inds] does), for any number n >= 1 of
    batches. *)
Theorem minibatches_partition l n :
  (1 <= n)%nat ->
  concat ((fun j => slice_step l j n) <$> seq 0 n) ≡ₚ l.
Proof.
  intros Hn.
  assert (E : concat ((fun j => slice_step l j n) <$> seq 0 n)
              = omap (fun k => l !! k) (seq 0 n ≫= stride (length l) n)).
  { rewrite omap_bind. f_equal. apply list_fmap_ext.
    intros i j _. apply slice_step_stride. }
  rewrite E, (strides_cover (length l) n Hn). by rewrite omap_lookup_seq.
Qed.


Lemma length_omap_filter {X Y} (g : X -> option Y) (P : X -> Prop)
    `{forall x, Decision (P x)} (xs : list X) :
  (forall x y, g x = Some y -> P x) ->
  (length (omap g xs) <= length (filter P xs))%nat.
Proof.
  intros Hg. induction xs as [|x xs IH]; [done|].
  rewrite filter_cons.
  change (omap g (x :: xs))
    with (match g x with Some y => y :: omap g xs | None => omap g xs end).
  destruct (g x) as [y|] eqn:Hy.
  - rewrite decide_True by eauto. cbn [length]. lia.
  - case_decide; cbn [length]; lia.
Qed.

Lemma length_slice_step l j n s :
  (1 <= n)%nat -> (length l <= n * s)%nat -> (length (slice_step l j n) <= s)%nat.
Proof.
  intros Hn Hs. unfold slice_step.
  etransitivity;
    [apply (length_omap_filter _ (fun i => j + i * n < length l)%nat)|].
  { intros i x Hx. by apply lookup_lt_Some in Hx. }
  transitivity (length (seq 0 s)); [|by rewrite length_seq].
  apply submseteq_length, NoDup_submseteq.
  - apply NoDup_filter, NoDup_seq.
  - intros i [Hi _]%list_elem_of_filter. apply elem_of_seq. split; [lia|]. cbn. nia.
Qed.

(** The bound for the number of batches that [ceil_div] returns. *)
Lemma length_slice_step_ceil l s j :
  (1 <= s)%nat ->
  (length (slice_step l j ((length l + s - 1) / s)) <= s)%nat.
Proof.
  intros Hs. destruct l as [|x l]; [cbn; lia|].
  pose proof (Nat.div_mod_eq (length (x :: l) + s - 1) s) as E.
  pose proof (Nat.mod_upper_bound (length (x :: l) + s - 1) s ltac:(lia)) as Hr.
  set (q := ((length (x :: l) + s - 1) / s)%nat) in *.
  set (r := ((length (x :: l) + s - 1) mod s)%nat) in *.
  cbn [length] in *.
  clearbody q r. apply length_slice_step; [|rewrite (Nat.mul_comm q s); cbn [length]; lia].
  destruct q; [|lia]. rewrite Nat.mul_0_r in E. lia.
Qed.

End Minibatches.

Lemma minibatches_partition_witness :
  concat ((fun j => slice_step [7; 8; 9; 10; 11]%nat j 2) <$> seq 0 2)
  ≡ₚ [7; 8; 9; 10; 11]%nat.
Proof. apply minibatches_partition. lia. Defined.

Section BatchSize.
Context {D : Type} `{B : Backend D} {A : Type}.

(** X4. With n_batches = ceil(len(inds) / n_samples), as [fit] computes
    it, no minibatch [inds[j::n_batches]] has more than n_samples rows. *)
Theorem minibatch_size_bounded (inds : list A) n_samples n_batches j (w w' : world D) :
  ceil_div (length inds) n_samples w = (Ok n_batches, w') ->
  (length (slice_step inds j n_batches) <= n_samples)%nat.
Proof.
  unfold ceil_div. destruct n_samples as [|s]; [discriminate|].
  intros [= <- _]. exact (length_slice_step_ceil inds (S s) j ltac:(lia)).
Qed.

End BatchSize.

Lemma minibatch_size_bounded_witness :
  (length (slice_step [7; 8; 9; 10; 11]%nat 0 3) <= 2)%nat.
Proof.
  apply (minibatch_size_bounded (D := Shapes.shp) [7; 8; 9; 10; 11]%nat 2 3 0
           Example.w0 Example.w0).
  reflexivity.
Defined.

(** ** What the MLP constructor refuses *)

Section MLPErrors.
Context {D : Type} `{B : Backend D}.

Lemma layer__init__total x n_in n_out (act : Expr -> M D Expr) W b (w : world D) :
  (forall z u, exists e u', act z u = (Ok e, u')) ->
  exists l w', NeuralNetworkLayer.__init__ x n_in n_out act W b w = (Ok l, w').
Proof.
  intros Hact. unfold NeuralNetworkLayer.__init__, bind, numpy_random.
  destruct (np_glorot n_in n_out (np w)) as [W0 g]. cbn.
  destruct W as [W|], b as [b|]; cbn;
    match goal with |- context [act ?z ?u] => destruct (Hact z u) as (e & u' & ->) end;
    by eexists _, _.
Qed.

Lemma type_map_known ty x n_in n_out W b xargs (w : world D) :
  known_type ty ->
  exists l w', MLP.type_map ty x n_in n_out W b xargs w = (Ok l, w').
Proof.
  unfold known_type. rewrite !elem_of_cons, elem_of_nil.
  intros Hk. unfold MLP.type_map.
  repeat case_decide;
    try (apply layer__init__total; intros z u; by eexists _, _).
  - unfold RectifierLayer. apply layer__init__total. intros z u.
    destruct (default true xargs); [|by eexists _, _].
    unfold bind, numpy_random. destruct (np_uniform _ _ _ _). by eexists _, _.
  - exfalso. naive_solver.
Qed.

Lemma type_map_unknown ty x n_in n_out W b xargs (w : world D) :
  ~ known_type ty ->
  MLP.type_map ty x n_in n_out W b xargs w = (Raise KeyError, w).
Proof.
  unfold known_type. rewrite !elem_of_cons, elem_of_nil.
  intros Hk. unfold MLP.type_map. repeat case_decide; try done; exfalso; naive_solver.
Qed.


Lemma previous_total x n_in i (built : list NeuralNetworkLayer.t) (w : world D) :
  length built = i -> exists r, MLP.previous x n_in i built w = (Ok r, w).
Proof.
  intros Hlen. unfold MLP.previous. case_decide; [by eexists|].
  destruct (last built) as [l|] eqn:Hl; [by eexists|].
  apply last_None in Hl. subst built. by cbn in Hlen.
Qed.

(** The first loop of the constructor stops at the first layer whose type
    is not in [type_map]. *)
Lemma noisy_stack_unknown x n_in layers p pre spec post built i (w : world D) :
  Forall (fun s : string * nat => known_type s.1) pre ->
  ~ known_type spec.1 ->
  length built = i ->
  exists w', MLP.noisy_stack x n_in layers p i (pre ++ spec :: post) built w
             = (Raise KeyError, w').
Proof.
  intros Hpre Hspec. revert built i w.
  induction Hpre as [|s pre Hs Hpre IH]; intros built i w Hlen.
  - cbn [app MLP.noisy_stack].
    destruct (previous_total x n_in i built w Hlen) as ([inp n] & Hp).
    erewrite bind_Ok by exact Hp. cbn beta iota.
    case_decide.
    + unfold bind at 1. unfold random_stream, bind, fresh, ret.
      rewrite type_map_unknown by done. by eexists.
    + unfold bind at 1. unfold ret at 1.
      unfold bind. rewrite type_map_unknown by done. by eexists.
  - cbn [app MLP.noisy_stack].
    destruct (previous_total x n_in i built w Hlen) as ([inp n] & Hp).
    erewrite bind_Ok by exact Hp. cbn beta iota.
    case_decide.
    + unfold bind at 1. unfold random_stream, bind at 1, fresh, ret.
      unfold bind at 1.
      match goal with |- context [bind (MLP.type_map ?a ?b ?c ?d ?e ?f ?g) _ ?u] =>
        destruct (type_map_known a b c d e f g u Hs) as (l & u' & Ht) end.
      erewrite bind_Ok by exact Ht.
      apply IH. rewrite length_app. cbn. lia.
    + unfold bind at 1. unfold ret at 1.
      match goal with |- context [bind (MLP.type_map ?a ?b ?c ?d ?e ?f ?g) _ ?u] =>
        destruct (type_map_known a b c d e f g u Hs) as (l & u' & Ht) end.
      erewrite bind_Ok by exact Ht.
      apply IH. rewrite length_app. cbn. lia.
Qed.

(** X5. A network description with a layer type that [type_map] has no
    entry for is refused with KeyError, at the first such layer: the layers
    in front of it (of known types, with units) are built, the rest is not
    looked at. *)
Theorem MLP_unknown_layer_type n_in layers pre spec post p l2 lr mom (w : world D) :
  layers = (pre ++ spec :: post)%list ->
  Forall (fun s : string * nat => known_type s.1 /\ (0 < s.2)%nat) pre ->
  ~ known_type spec.1 ->
  (MLP.__init__ n_in layers p l2 lr mom w).1 = Raise KeyError.
Proof.
  intros Hl Hpre Hspec. unfold MLP.__init__.
  unfold bind at 1. unfold RandomStreams at 1.
  set (w1 := with_np _ w). unfold bind at 1.
  rewrite Hl at 2.
  destruct (noisy_stack_unknown (Input "x") n_in layers p pre spec post [] 0 w1)
    as (w' & ->); [|done..].
  eapply Forall_impl; [exact Hpre|]. by intros s [? _].
Qed.

(** With fewer than two layers the constructor gets as far as
    [self.clean_layers[-2]] (or [-1], without layers) and fails there. *)
Lemma MLP_short_stack n_in layers p l2 lr mom (w : world D) :
  (length layers < 2)%nat ->
  Forall (fun s : string * nat => known_type s.1) layers ->
  (MLP.__init__ n_in layers p l2 lr mom w).1 = Raise IndexError.
Proof.
  intros Hlen Hk. destruct layers as [|spec [|? ?]]; [| |cbn in Hlen; lia].
  - reflexivity.
  - apply Forall_cons in Hk as [Hk _]. unfold MLP.__init__.
    unfold bind at 1. unfold RandomStreams at 1. set (w1 := with_np _ w).
    cbn [MLP.noisy_stack MLP.clean_stack length].
    unfold bind at 1. unfold bind at 1. unfold MLP.previous at 1.
    rewrite decide_True by done. unfold ret at 1.
    rewrite decide_True by done.
    unfold bind at 1. unfold random_stream, bind at 1, fresh, ret.
    unfold bind at 1.
    match goal with |- context [bind (MLP.type_map ?a ?b ?c ?d ?e ?f ?g) _ ?u] =>
      destruct (type_map_known a b c d e f g u Hk) as (l & u' & Ht) end.
    erewrite bind_Ok by exact Ht.
    unfold bind at 1. unfold bind at 1.
    assert (Hp : MLP.previous (Input "x") n_in 0 [] u' = (Ok (Input "x", n_in), u'))
      by reflexivity.
    rewrite Hp. cbn [app lookup list_lookup]. rewrite decide_True by done.
    unfold bind at 1.
    match goal with |- context [bind (MLP.type_map ?a ?b ?c ?d ?e ?f ?g) _ ?u] =>
      destruct (type_map_known a b c d e f g u Hk) as (cl & u'' & Ht') end.
    erewrite bind_Ok by exact Ht'.
    reflexivity.
Qed.


(** X6. A network needs two layers.  With none, or with a softmax layer
    alone, the constructor raises IndexError: [_output] is compiled from
    [self.clean_layers[-1]] and [transform] from [self.clean_layers[-2]],
    and no model is returned. *)
Theorem MLP_too_few_layers n_in layers p l2 lr mom (w : world D) :
  (length layers < 2)%nat ->
  Forall (fun s : string * nat => s.1 = "S" /\ (0 < s.2)%nat) layers ->
  (MLP.__init__ n_in layers p l2 lr mom w).1 = Raise IndexError.
Proof.
  intros Hlen Hk. apply MLP_short_stack; [done|].
  eapply Forall_impl; [exact Hk|]. intros s [-> _].
  unfold known_type. rewrite !elem_of_cons. auto.
Qed.

End MLPErrors.

Section MLPErrorExamples.
Import Shapes Example.

Lemma MLP_unknown_layer_type_witness :
  (MLP.__init__ 5 [("R", 4%nat); ("X", 3%nat); ("S", 2%nat)] (1 # 2) None (1 # 100) None w0).1
  = Raise KeyError.
Proof.
  apply (MLP_unknown_layer_type 5 _ [("R", 4%nat)] ("X", 3%nat) [("S", 2%nat)]).
  - reflexivity.
  - repeat constructor; cbn; lia.
  - unfold known_type. cbn. rewrite !elem_of_cons, elem_of_nil. naive_solver.
Defined.

Lemma MLP_too_few_layers_witness :
  (MLP.__init__ 5 [("S", 2%nat)] (1 # 2) None (1 # 100) None w0).1 = Raise IndexError.
Proof.
  apply MLP_too_few_layers.
  - cbn. lia.
  - repeat constructor; cbn; lia.
Defined.

End MLPErrorExamples.

(** ** A load that fails half way *)

Section PartialLoad.
Import MLPVocabulary SaveFacts.
Context {D : Type} `{B : Backend D}.

Lemma for_each_app {A} (xs ys : list A) (body : A -> M D unit) (w : world D) :
  for_each (xs ++ ys) body w
  = match for_each xs body w with
    | (Ok _, w') => for_each ys body w'
    | (Raise e, w') => (Raise e, w')
    end.
Proof.
  revert w. induction xs as [|x xs IH]; intros w; [done|].
  cbn [app for_each]. unfold bind.
  destruct (body x w) as [[[]|e] w1]; [apply IH|done].
Qed.

(** X7. [load] reads the files layer by layer and stops with IOError at
    the first file that is missing: the layers in front of it already
    have the values of their files, all other shared variables are as they
    were, so a failed [load] leaves the model partly loaded. *)
Theorem load_stops_at_missing_file (m : MLP.t) pre l post
    (target : nat -> option D) (u : world D) :
  MLP.layers m = (pre ++ l :: post)%list ->
  (forall i l', pre !! i = Some l' ->
     is_Some (target (NeuralNetworkLayer.W l')) /\
     is_Some (target (NeuralNetworkLayer.b l')) /\
     files u !! MLP.W_file i = target (NeuralNetworkLayer.W l') /\
     files u !! MLP.b_file i = target (NeuralNetworkLayer.b l')) ->
  files u !! MLP.W_file (length pre) = None ->
  exists u',
    MLP.load m u = (Raise IOError, u') /\
    files u' = files u /\
    (forall q, q ∈ params pre -> shared u' !! q = target q) /\
    (forall q, q ∉ params pre -> shared u' !! q = shared u !! q).
Proof.
  intros Hl Hpre Hmissing. unfold MLP.load, MLP.enumerate. rewrite Hl.
  rewrite length_app, seq_app, zip_with_app by (by rewrite length_seq).
  rewrite for_each_app.
  destruct (load_steps pre 0 target u) as (u3 & -> & Hf & Hin & Hout).
  { intros i l' Hl'. cbn [Nat.add]. by apply Hpre. }
  exists u3. cbn [length seq zip_with for_each Nat.add].
  unfold bind at 1. unfold bind at 1. unfold numpy_load at 1. cbn [fst].
  rewrite Hf, Hmissing. done.
Qed.

End PartialLoad.

Section PartialLoadExample.
Import Shapes MLPVocabulary.

Local Notation l0 :=
  (NeuralNetworkLayer.Make 5 4 (Input "x") 0 1 (Bin Dot (Input "x") (Shared 0))
     (Un Tanh (Bin Add (Bin Dot (Input "x") (Shared 0)) (Shared 1)))).
Local Notation l1 :=
  (NeuralNetworkLayer.Make 4 2 (NeuralNetworkLayer.output l0) 2 3
     (Bin Dot (NeuralNetworkLayer.output l0) (Shared 2))
     (Un Softmax (Bin Add (Bin Dot (NeuralNetworkLayer.output l0) (Shared 2)) (Shared 3)))).
Local Notation f := (Compiled ["x"] (NeuralNetworkLayer.output l1) ∅).
Local Notation m := (MLP.Make [l0; l1] [l0; l1] f f f).
(** A state with the files of the first layer only. *)
Local Notation u :=
  (World (B := Shapes.backend) 4
     (<[3%nat := SArr [2%nat]]> (<[2%nat := SArr [4; 2]%nat]>
        (<[1%nat := SArr [4%nat]]> (<[0%nat := SArr [5; 4]%nat]> ∅))))
     ∅ tt ∅ 0
     (<["b_0.npy" := SArr [4%nat]]> (<["W_0.npy" := SArr [5; 4]%nat]> ∅))).

Lemma load_stops_at_missing_file_witness :
  exists u', MLP.load m u = (Raise IOError, u') /\ files u' = files u /\
             shared u' !! 2%nat = shared u !! 2%nat.
Proof.
  destruct (load_stops_at_missing_file m [l0] l1 []
              (fun q => match q with
                        | 0%nat => Some (SArr [5; 4]%nat)
                        | 1%nat => Some (SArr [4%nat])
                        | _ => None
                        end) u eq_refl)
    as (u' & Hr & Hf & _ & Hout).
  - intros [|i] l' Hl'; [|destruct i; discriminate Hl'].
    injection Hl' as <-. cbn [NeuralNetworkLayer.W NeuralNetworkLayer.b].
    split; [by eexists|]. split; [by eexists|]. split; vm_compute; reflexivity.
  - vm_compute. reflexivity.
  - exists u'. split; [exact Hr|]. split; [exact Hf|]. apply Hout.
    unfold params. cbn. rewrite !elem_of_cons, elem_of_nil. lia.
Defined.

End PartialLoadExample.

(** ** The files of a SetRBM *)

Section SetRBMSave.
Import SaveFacts.
Context {D : Type} `{B : Backend D}.

Lemma SetRBM_files_disjoint tag tag' name :
  tag <> tag' -> name ∈ SetRBM_files tag -> name ∉ SetRBM_files tag'.
Proof.
  intros Hne H1 H2. unfold SetRBM_files in H1, H2.
  cbn [fmap list_fmap] in H1, H2.
  rewrite !elem_of_cons, elem_of_nil in H1, H2.
  assert (Hs : forall a b : string, a +:+ ".npy" = b +:+ ".npy" -> a = b)
    by (intros a b; apply append_inj_l).
  assert (Ht : match tag with None => "" | Some t => "_" +:+ t end
               = match tag' with None => "" | Some t => "_" +:+ t end).
  { destruct H1 as [->|[->|[->|[->|[->|[]]]]]];
      destruct H2 as [H|[H|[H|[H|[H|[]]]]]]; injection H as H; try discriminate;
      by apply Hs in H. }
  apply Hne. destruct tag as [t|], tag' as [t'|]; try discriminate; [|done].
  apply (inj (String.app "_")) in Ht. by subst.
Qed.

(** X8. [SetRBM.save(tag)] writes the values of W, U, b, c, d to the five
    files rbm_W<s>.npy, ..., rbm_d<s>.npy, where <s> is empty without a tag
    and "_" + tag otherwise; it changes no shared variable and no other
    file.  The names of different tags do not meet, so a save under one
    tag leaves the files saved under every other tag (or without a tag) as
    they are. *)
Theorem SetRBM_save_files (self : SetRBM.t) tag (w : world D) :
  Forall (fun q => is_Some (shared w !! q))
    [SetRBM.W self; SetRBM.U self; SetRBM.b self; SetRBM.c self; SetRBM.d self] ->
  exists w',
    SetRBM.save self tag w = (Ok tt, w') /\
    shared w' = shared w /\
    Forall2 (fun name q => files w' !! name = shared w !! q) (SetRBM_files tag)
      [SetRBM.W self; SetRBM.U self; SetRBM.b self; SetRBM.c self; SetRBM.d self] /\
    (forall name, name ∉ SetRBM_files tag -> files w' !! name = files w !! name) /\
    (forall tag' name, tag' <> tag -> name ∈ SetRBM_files tag' ->
       files w' !! name = files w !! name).
Proof.
  intros Hv.
  apply Forall_cons in Hv as [[vW HW] Hv]. apply Forall_cons in Hv as [[vU HU] Hv].
  apply Forall_cons in Hv as [[vb Hb] Hv]. apply Forall_cons in Hv as [[vc Hc] Hv].
  apply Forall_cons in Hv as [[vd Hd] _].
  unfold SetRBM.save, bind, get_value, numpy_save.
  rewrite HW. cbn. rewrite HU. cbn. rewrite Hb. cbn. rewrite Hc. cbn. rewrite Hd. cbn.
  eexists. split; [reflexivity|]. cbn. split; [done|].
  set (s := match tag with None => "" | Some t => "_" +:+ t end).
  assert (Hframe : forall name, name ∉ SetRBM_files tag ->
            <["rbm_d" +:+ s +:+ ".npy" := vd]> (<["rbm_c" +:+ s +:+ ".npy" := vc]>
              (<["rbm_b" +:+ s +:+ ".npy" := vb]> (<["rbm_U" +:+ s +:+ ".npy" := vU]>
                (<["rbm_W" +:+ s +:+ ".npy" := vW]> (files w))))) !! name
            = files w !! name).
  { intros name Hn. unfold SetRBM_files in Hn. cbn [fmap list_fmap] in Hn. fold s in Hn.
    rewrite !not_elem_of_cons in Hn. destruct Hn as (H1 & H2 & H3 & H4 & H5 & _).
    rewrite !lookup_insert_ne; [done|intros E; subst name; by auto..]. }
  split; [|split; [exact Hframe|]].
  - unfold SetRBM_files. cbn [fmap list_fmap]. fold s.
    rewrite ?HW, ?HU, ?Hb, ?Hc, ?Hd.
    repeat (constructor;
            [rewrite ?lookup_insert_ne by (intros E; by injection E);
             by rewrite lookup_insert_eq|]).
    constructor.
  - intros tag' name Hne Hin. apply Hframe.
    by apply (SetRBM_files_disjoint tag' tag).
Qed.

End SetRBMSave.

Section SetRBMSaveExample.
Import Shapes Example ExampleSet.

Lemma SetRBM_save_files_witness :
  exists w', SetRBM.save set0 (Some "a") w_set0 = (Ok tt, w') /\ shared w' = shared w_set0.
Proof.
  destruct (SetRBM_save_files set0 (Some "a") w_set0) as (w' & H1 & H2 & _).
  - repeat constructor; vm_compute; by eexists.
  - by exists w'.
Defined.

End SetRBMSaveExample.

(** ** The trainer with and without momentum *)

Section Momentum.
Context {D : Type} `{B : Backend D}.

Lemma make_updates_falsy lr m pg (w : world D) :
  Qeq_bool m 0 = true ->
  NeuralNetworkTrainer.make_updates lr (Some m) pg w
  = NeuralNetworkTrainer.make_updates lr None pg w.
Proof.
  intros Hm. revert w. induction pg as [|[p g] pg IH]; intros w; [done|].
  cbn [NeuralNetworkTrainer.make_updates NeuralNetworkTrainer.truthy]. rewrite Hm.
  unfold bind at 1 3. cbn [ret]. unfold bind at 1 2. by rewrite IH.
Qed.

(** X9. A momentum that is zero counts as none ([if momentum:] is false for
    0 as for None): the constructor builds the same model, with plain
    gradient steps and without memory variables, in the same final state. *)
Theorem zero_momentum_is_no_momentum n_in layers p l2 lr m (w : world D) :
  (m == 0)%Q ->
  MLP.__init__ n_in layers p l2 lr (Some m) w = MLP.__init__ n_in layers p l2 lr None w.
Proof.
  intros Hm%Qeq_bool_iff. unfold MLP.__init__.
  unfold bind at 1 10. destruct (RandomStreams w) as [[[]|e] w1]; [|done].
  unfold bind at 1 9. destruct (MLP.noisy_stack _ _ _ _ _ _ _ w1) as [[ls|e] w2]; [|done].
  unfold bind at 1 8. destruct (MLP.clean_stack _ _ _ _ _ _ _ w2) as [[cs|e] w3]; [|done].
  unfold bind at 1 7. destruct (MLP.from_end cs 0 w3) as [[top|e] w4]; [|done].
  unfold bind at 1 6. destruct (theano_function _ _ _ w4) as [[out|e] w5]; [|done].
  unfold bind at 1 5. destruct (MLP.from_end cs 1 w5) as [[under|e] w6]; [|done].
  unfold bind at 1 4. destruct (theano_function _ _ _ w6) as [[tr|e] w7]; [|done].
  unfold bind at 1 3. destruct (MLP.from_end ls 0 w7) as [[ntop|e] w8]; [|done].
  unfold NeuralNetworkTrainer.__init__.
  unfold bind at 1 4. unfold bind at 1 3.
  destruct (theano_shared (of_float lr) w8) as [[i|e] w9]; [|done].
  unfold bind at 1 2. by rewrite make_updates_falsy.
Qed.

End Momentum.

Section MomentumExample.
Import Shapes Example.

Lemma zero_momentum_is_no_momentum_witness :
  MLP.__init__ 5 [("T", 3%nat); ("S", 2%nat)] (1 # 2) None (1 # 100) (Some (0 # 5)) w0
  = MLP.__init__ 5 [("T", 3%nat); ("S", 2%nat)] (1 # 2) None (1 # 100) None w0.
Proof. apply zero_momentum_is_no_momentum. reflexivity. Defined.

End MomentumExample.

Section MomentumLag.
Context {D : Type} `{B : Backend D}.

(** The update loop with a momentum: every parameter gets a memory
    variable, created after all variables there are, that holds zeros of
    the parameter's shape; the parameter's update is [param - memory]. *)
Lemma make_updates_momentum lr mom m pg (w : world D) ups w1 :
  NeuralNetworkTrainer.truthy mom = Some m ->
  NeuralNetworkTrainer.make_updates lr mom pg w = (Ok ups, w1) ->
  (forall p, p ∈ pg.*1 -> (p < next_id w)%nat) ->
  (next_id w <= next_id w1)%nat /\
  (forall q, (q < next_id w)%nat -> shared w1 !! q = shared w !! q) /\
  (forall p, p ∈ pg.*1 ->
     exists mem v,
       (p, Bin Sub (Shared p) (Shared mem)) ∈ ups /\
       shared w !! p = Some v /\
       shared w1 !! mem = Some (np_zeros (np_shape v))).
Proof.
  intros Hm. revert w ups w1. induction pg as [|[p g] pg IH]; intros w ups w1 Hrun Hlt.
  - injection Hrun as <- <-. split; [done|]. split; [done|].
    intros p Hp. by apply elem_of_nil in Hp.
  - cbn [NeuralNetworkTrainer.make_updates] in Hrun. rewrite Hm in Hrun.
    unfold bind at 1 in Hrun. unfold bind at 1 in Hrun. unfold get_value at 1 in Hrun.
    destruct (shared w !! p) as [v|] eqn:Hv; [|discriminate Hrun].
    unfold bind at 1 in Hrun. unfold theano_shared at 1 in Hrun. cbn [ret] in Hrun.
    set (w' := with_shared _ _) in Hrun.
    unfold bind at 1 in Hrun.
    destruct (NeuralNetworkTrainer.make_updates lr mom pg w') as [[more|e] w2] eqn:Hrest;
      [|discriminate Hrun].
    injection Hrun as <- <-.
    destruct (IH w' more w2 Hrest) as (Hn & Hframe & Hups).
    { intros q Hq. unfold w'. cbn.
      assert (q < next_id w)%nat by (apply Hlt; cbn; by apply list_elem_of_further).
      lia. }
    unfold w' in Hn, Hframe. cbn in Hn, Hframe.
    split; [lia|]. split.
    { intros q Hq. rewrite Hframe by lia. apply lookup_insert_ne. lia. }
    intros q Hq. cbn in Hq. apply elem_of_cons in Hq as [-> | Hq].
    + exists (next_id w), v. split; [apply list_elem_of_here|]. split; [exact Hv|].
      rewrite Hframe by lia. by rewrite lookup_insert_eq.
    + destruct (Hups q Hq) as (mem & v' & Hin & Hv' & Hmem).
      exists mem, v'. split; [by do 2 apply list_elem_of_further|].
      split; [|exact Hmem].
      unfold w' in Hv'. cbn in Hv'. rewrite lookup_insert_ne in Hv'; [done|].
      assert (q < next_id w)%nat by (apply Hlt; cbn; by apply list_elem_of_further).
      lia.
Qed.

(** X10. With a momentum the parameters lag one step behind: the update of
    a parameter is [param - memory] with the memory as it was before the
    call, and the memories start as zeros.  The first call of the training
    function after the trainer has been built therefore changes no
    parameter (on an engine where subtracting zeros of an array's shape
    gives the array back); it only fills the memories. *)
Theorem first_momentum_step_keeps_parameters inputs cost layers lr mom m
    (w w1 u : world D) f args v :
  NeuralNetworkTrainer.truthy mom = Some m ->
  let params := ((NeuralNetworkLayer.W <$> layers) ++ (NeuralNetworkLayer.b <$> layers))%list in
  (forall p, p ∈ params -> (p < next_id w)%nat) ->
  (forall p x, p ∈ params -> shared w !! p = Some x ->
     bin_op Sub x (np_zeros (np_shape x)) = Some x) ->
  NeuralNetworkTrainer.__init__ inputs cost layers lr mom w = (Ok f, w1) ->
  call_function f args w1 = (Ok v, u) ->
  forall p, p ∈ params -> shared u !! p = shared w !! p.
Proof.
  intros Hm params Hlt Hsub Hinit Hcall p Hp.
  unfold NeuralNetworkTrainer.__init__ in Hinit. fold params in Hinit.
  unfold bind at 1 in Hinit. unfold theano_shared at 1 in Hinit.
  set (w0 := with_shared _ _) in Hinit.
  unfold bind at 1 in Hinit.
  destruct (NeuralNetworkTrainer.make_updates lr mom _ w0) as [[ups|e] w2] eqn:Hups;
    [|discriminate Hinit].
  unfold theano_function_pairs in Hinit. case_decide as Hnd; [|discriminate Hinit].
  unfold theano_function in Hinit.
  destruct (input_names inputs) as [names|]; [|discriminate Hinit].
  injection Hinit as <- <-.
  assert (Hkeys : (zip params ((fun param => Grad cost param []) <$> params)).*1 = params).
  { apply fst_zip. by rewrite length_fmap. }
  destruct (make_updates_momentum lr mom m _ w0 ups w2 Hm Hups) as (Hn & Hframe & Hu).
  { rewrite Hkeys. intros q Hq. unfold w0. cbn. specialize (Hlt q Hq). lia. }
  rewrite Hkeys in Hu. destruct (Hu p Hp) as (mem & x & Hin & Hx & Hmem).
  assert (Hx' : shared w !! p = Some x).
  { unfold w0 in Hx. cbn in Hx. rewrite lookup_insert_ne in Hx; [done|].
    specialize (Hlt p Hp). lia. }
  apply call_function_Ok in Hcall as (_ & Hupd & _).
  destruct (Hupd p (Bin Sub (Shared p) (Shared mem))) as (d & Hev & Hd).
  { cbn [fn_updates default]. by apply elem_of_list_to_map_1. }
  rewrite Hd, Hx'. cbn [eval shared with_compilations] in Hev.
  assert (Hp2 : shared w2 !! p = Some x).
  { rewrite Hframe; [exact Hx|]. unfold w0. cbn. specialize (Hlt p Hp). lia. }
  rewrite Hp2, Hmem in Hev. cbn in Hev. rewrite (Hsub p x Hp Hx') in Hev. congruence.
Qed.

End MomentumLag.

Section MomentumLagExample.
Import Shapes.

Local Notation l0 :=
  (NeuralNetworkLayer.Make 5 4 (Input "x") 0 1 (Bin Dot (Input "x") (Shared 0))
     (Un Tanh (Bin Add (Bin Dot (Input "x") (Shared 0)) (Shared 1)))).
Local Notation before :=
  (World (B := Shapes.backend) 2
     (<[1%nat := SArr [4%nat]]> (<[0%nat := SArr [5; 4]%nat]> ∅)) ∅ tt ∅ 0 ∅).
Local Notation trainer :=
  (NeuralNetworkTrainer.__init__ [Input "x"] (Un Mean (NeuralNetworkLayer.output l0)) [l0]
     (1 # 100) (Some (9 # 10)) before).

Lemma first_momentum_step_keeps_parameters_witness :
  exists f v,
    trainer.1 = Ok f /\
    (call_function f [SArr [3; 5]%nat] trainer.2).1 = Ok v /\
    shared (call_function f [SArr [3; 5]%nat] trainer.2).2 !! 0%nat = Some (SArr [5; 4]%nat).
Proof.
  eassert (Hf : trainer.1 = Ok _) by (vm_compute; reflexivity).
  match type of Hf with _ = Ok ?f =>
    eassert (Hc : (call_function f [SArr [3; 5]%nat] trainer.2).1 = Ok _)
      by (vm_compute; reflexivity)
  end.
  eexists _, _. split; [exact Hf|]. split; [exact Hc|].
  rewrite (first_momentum_step_keeps_parameters [Input "x"]
             (Un Mean (NeuralNetworkLayer.output l0)) [l0] (1 # 100) (Some (9 # 10)) (9 # 10)
             before trainer.2 _ _ _ _ eq_refl
             ltac:(intros p Hp; cbn in Hp; rewrite !elem_of_cons, elem_of_nil in Hp;
                   destruct Hp as [->|[->|[]]]; cbn; lia)
             ltac:(intros p x Hp Hx; cbn in Hp; rewrite !elem_of_cons, elem_of_nil in Hp;
                   destruct Hp as [->|[->|[]]]; vm_compute in Hx; injection Hx as <-;
                   reflexivity)
             (run_eta _ _ Hf) (run_eta _ _ Hc) 0%nat ltac:(apply list_elem_of_here)).
  reflexivity.
Defined.

End MomentumLagExample.

Section PlainSteps.
Context {D : Type} `{B : Backend D}.



End PlainSteps.

Section PlainStepsExample.
Import Shapes Example.


End PlainStepsExample.
